(** * PalletManager: station identifiers and the station table

  A shallow embedding of the scripts that normalise warehouse station
  identifiers ([debug_station_lookup.py]) and that maintain the station
  table ([update_station_csv.py], [add_aisle.py],
  [verify_import_process.py]), with the properties stated about them.

  Conventions of the embedding.
  - A Python [str] is a list of characters; characters are the code
    points below 256, so a character is an [ascii].  The character
    classes used by [str.strip], [str.isdigit] and the regex class
    [\d] are those of Python 3 on that range.
  - A Python exception is a value [Raise e] of the type [result]; code
    that indexes a list or a dictionary is written in that monad.
  - The [csv] module is taken at the level of rows: a table is the list
    of its rows and a row is the list of its fields.
  - Calls to [print] are left out: nothing below is about the console. *)

From Stdlib Require Import List Ascii Bool Arith PeanoNat ZArith Lia.
From Stdlib Require String.
From Stdlib Require Import Sorting.Sorted Sorting.Permutation.
From Stdlib Require Import Numbers.DecimalString.
Import ListNotations.

Set Implicit Arguments.

(* ------------------------------------------------------------------ *)
(** ** Python strings and exceptions *)
(* ------------------------------------------------------------------ *)

Module Py.

(** [str]: a sequence of code points. *)
Definition str : Set := list ascii.

Inductive str_literal : Set :=
| LitNil
| LitCons (c : ascii) (s : str_literal).

Fixpoint literal_of_bytes (l : list Byte.byte) : str_literal :=
  match l with
  | [] => LitNil
  | b :: l => LitCons (ascii_of_byte b) (literal_of_bytes l)
  end.

Fixpoint bytes_of_literal (s : str_literal) : list Byte.byte :=
  match s with
  | LitNil => []
  | LitCons c s => byte_of_ascii c :: bytes_of_literal s
  end.

Declare Scope str_scope.
Delimit Scope str_scope with str.
Bind Scope str_scope with str.

#[warnings="-via-type-remapping,-via-type-mismatch"]
String Notation str literal_of_bytes bytes_of_literal
  (via str_literal mapping [[nil] => LitNil, [cons] => LitCons]) : str_scope.

(** The exceptions the modelled code can meet. *)
Inductive exn : Set :=
| IndexError
| KeyError
| TypeError
| StopIteration.

Inductive result (A : Type) : Type :=
| Ok (a : A)
| Raise (e : exn).

Arguments Ok {A} a.
Arguments Raise {A} e.

Definition bind {A B : Type} (m : result A) (k : A -> result B) : result B :=
  match m with
  | Ok a => k a
  | Raise e => Raise e
  end.

(** [l[i]] for a non-negative index [i]. *)
Definition getitem {A : Type} (l : list A) (i : nat) : result A :=
  match nth_error l i with
  | Some a => Ok a
  | None => Raise IndexError
  end.

(** [mapM f l]: a comprehension or loop whose body may raise; the first
    exception stops it. *)
Fixpoint mapM {A B : Type} (f : A -> result B) (l : list A) : result (list B) :=
  match l with
  | [] => Ok []
  | a :: l =>
      bind (f a) (fun b => bind (mapM f l) (fun bs => Ok (b :: bs)))
  end.

Definition code (c : ascii) : nat := nat_of_ascii c.

(** [c.isspace()]: U+0009..U+000D, U+001C..U+0020, U+0085, U+00A0. *)
Definition isspace_char (c : ascii) : bool :=
  let n := code c in
  ((9 <=? n) && (n <=? 13)) || ((28 <=? n) && (n <=? 32))
  || (n =? 133) || (n =? 160).

(** The regex class [\d] and the ten decimal digits. *)
Definition is_decimal (c : ascii) : bool :=
  let n := code c in (48 <=? n) && (n <=? 57).

(** [c.isdigit()]: the decimal digits and the superscripts U+00B2,
    U+00B3 and U+00B9. *)
Definition isdigit_char (c : ascii) : bool :=
  let n := code c in
  is_decimal c || (n =? 178) || (n =? 179) || (n =? 185).

(** [s.isdigit()]: every character is a digit and there is at least one. *)
Definition isdigit (s : str) : bool :=
  match s with
  | [] => false
  | _ :: _ => forallb isdigit_char s
  end.

Fixpoint lstrip (s : str) : str :=
  match s with
  | [] => []
  | c :: r => if isspace_char c then lstrip r else s
  end.

Fixpoint rstrip (s : str) : str :=
  match s with
  | [] => []
  | c :: r =>
      match rstrip r with
      | [] => if isspace_char c then [] else [c]
      | r' => c :: r'
      end
  end.

(** [s.strip()] *)
Definition strip (s : str) : str := rstrip (lstrip s).

(** [s.replace(c, "")] for a one-character [c]. *)
Definition remove_char (c : ascii) (s : str) : str :=
  filter (fun x => negb (Ascii.eqb x c)) s.

(** [s.split(sep)] for a one-character [sep]. *)
Fixpoint split (sep : ascii) (s : str) : list str :=
  match s with
  | [] => [[]]
  | c :: r =>
      if Ascii.eqb c sep then [] :: split sep r
      else match split sep r with
           | p :: ps => (c :: p) :: ps
           | [] => [[c]]
           end
  end.

(** [s[i:j]] for [0 <= i <= j]. *)
Definition slice (i j : nat) (s : str) : str := firstn (j - i) (skipn i s).

(** [s.zfill(width)]: zeros go after a leading sign. *)
Definition zfill (width : nat) (s : str) : str :=
  if width <=? length s then s
  else
    let fill := repeat "0"%char (width - length s) in
    match s with
    | c :: r =>
        if Ascii.eqb c "+" || Ascii.eqb c "-" then c :: fill ++ r
        else fill ++ s
    | [] => fill
    end.

(** [a == b] on strings. *)
Fixpoint str_eqb (a b : str) : bool :=
  match a, b with
  | [], [] => true
  | x :: a', y :: b' => Ascii.eqb x y && str_eqb a' b'
  | _, _ => false
  end.

(** [a < b] on strings: lexicographic on code points. *)
Fixpoint str_ltb (a b : str) : bool :=
  match a, b with
  | _, [] => false
  | [], _ :: _ => true
  | x :: a', y :: b' =>
      match Nat.compare (code x) (code y) with
      | Lt => true
      | Gt => false
      | Eq => str_ltb a' b'
      end
  end.

Definition str_leb (a b : str) : bool := negb (str_ltb b a).

(** [str(n)] for an integer. *)
Definition str_of_int (n : Z) : str :=
  String.list_ascii_of_string (NilZero.string_of_int (Z.to_int n)).

(** A value that is a string or [None]. *)
Definition cell : Set := option str.

(** [a == b] on such values. *)
Definition cell_eqb (a b : cell) : bool :=
  match a, b with
  | Some x, Some y => str_eqb x y
  | None, None => true
  | _, _ => false
  end.

(** [a < b] on such values: [None] is not ordered. *)
Definition cell_lt (a b : cell) : result bool :=
  match a, b with
  | Some x, Some y => Ok (str_ltb x y)
  | _, _ => Raise TypeError
  end.

(** [a < b] on pairs: the first components that differ decide. *)
Definition item_lt (a b : cell * cell) : result bool :=
  if cell_eqb (fst a) (fst b) then
    if cell_eqb (snd a) (snd b) then Ok false
    else cell_lt (snd a) (snd b)
  else cell_lt (fst a) (fst b).

(** A dictionary, in insertion order. *)
Definition dict (K V : Type) : Type := list (K * V).

Section Dict.
Variables (K V : Type) (eqb : K -> K -> bool).

(** [d[k] = v] *)
Fixpoint dict_set (k : K) (v : V) (d : dict K V) : dict K V :=
  match d with
  | [] => [(k, v)]
  | (k', v') :: d' =>
      if eqb k' k then (k', v) :: d' else (k', v') :: dict_set k v d'
  end.

(** [d.get(k)] *)
Fixpoint dict_get (k : K) (d : dict K V) : option V :=
  match d with
  | [] => None
  | (k', v') :: d' => if eqb k' k then Some v' else dict_get k d'
  end.

(** [k in d] *)
Definition dict_mem (k : K) (d : dict K V) : bool :=
  match dict_get k d with
  | Some _ => true
  | None => false
  end.

Definition dict_keys (d : dict K V) : list K := map fst d.
End Dict.

Section Sort.
Variables (A : Type) (lt : A -> A -> result bool).

(** [x] goes before the first element that is not below it. *)
Fixpoint insert_sorted (x : A) (l : list A) : result (list A) :=
  match l with
  | [] => Ok [x]
  | y :: l' =>
      bind (lt y x) (fun below =>
        if below then bind (insert_sorted x l') (fun r => Ok (y :: r))
        else Ok (x :: l))
  end.

(** Neighbours in a sorted list: the second is not below the first. *)
Definition not_above (a b : A) : Prop := lt b a = Ok false.

(** [sorted(l)], as a stable insertion sort on [<]. *)
Fixpoint sorted (l : list A) : result (list A) :=
  match l with
  | [] => Ok []
  | x :: l' => bind (sorted l') (insert_sorted x)
  end.
End Sort.

(** A loop that threads a state and may raise. *)
Fixpoint foldM {A S : Type} (f : S -> A -> result S) (l : list A) (s : S)
  : result S :=
  match l with
  | [] => Ok s
  | a :: l' => bind (f s a) (foldM f l')
  end.

End Py.

Export Py.
Open Scope str_scope.
Open Scope list_scope.

Notation "x <- m ;; k" := (bind m (fun x => k))
(at level 61, m at next level, right associativity).

(* ------------------------------------------------------------------ *)
(** ** debug_station_lookup.py *)
(* ------------------------------------------------------------------ *)

Module DebugStationLookup.

(** The test [len(cleaned) == 4 and cleaned.isdigit()]. *)
Definition four_digits (cleaned : str) : bool :=
  (length cleaned =? 4) && isdigit cleaned.

(** [cleaned = input_str.replace("-", "").strip()] *)
Definition cleaned_of (input_str : str) : str :=
  strip (remove_char "-" input_str).

(** [parts = [part.strip() for part in input_str.split("-")]] *)
Definition parts_of (input_str : str) : list str :=
  map strip (split "-" input_str).

(** The f-string ["03-{aisle}-{station}-01"]. *)
Definition canonical (aisle station : str) : str :=
  "03-" ++ aisle ++ "-" ++ station ++ "-01".

Definition normalize_station_number (input_str : str) : result str :=
  let cleaned := cleaned_of input_str in
  if four_digits cleaned then
    let aisle := slice 0 2 cleaned in
    let station := slice 2 4 cleaned in
    Ok (canonical aisle station)
  else
    let parts := parts_of input_str in
    if length parts =? 2 then
      p0 <- getitem parts 0 ;;
      p1 <- getitem parts 1 ;;
      let aisle := zfill 2 p0 in
      let station := zfill 2 p1 in
      Ok (canonical aisle station)
    else if length parts =? 3 then
      p0 <- getitem parts 0 ;;
      if str_eqb p0 "03" || str_eqb p0 "3" then
        p1 <- getitem parts 1 ;;
        p2 <- getitem parts 2 ;;
        let aisle := zfill 2 p1 in
        let station := zfill 2 p2 in
        Ok (canonical aisle station)
      else Ok input_str
    else if length parts =? 4 then
      p0 <- getitem parts 0 ;;
      p1 <- getitem parts 1 ;;
      p2 <- getitem parts 2 ;;
      p3 <- getitem parts 3 ;;
      let building := zfill 2 p0 in
      let aisle := zfill 2 p1 in
      let station := zfill 2 p2 in
      let position := zfill 2 p3 in
      if (str_eqb building "03" || str_eqb p0 "3")
         && (str_eqb position "01" || str_eqb p3 "1")
      then Ok (canonical aisle station)
      else Ok input_str
    else Ok input_str.

End DebugStationLookup.

Import DebugStationLookup.

(* ------------------------------------------------------------------ *)
(** ** The csv module, at the level of rows *)
(* ------------------------------------------------------------------ *)

Module Csv.

Definition row : Set := list str.

(** What [csv.reader] yields for a file, and what [csv.writer] was
    given for it. *)
Definition table : Set := list row.

(** A file that may be absent. *)
Definition file (A : Type) : Type := option A.

(** A field as [csv.writer] writes it: [None] is written empty. *)
Definition written_field (c : cell) : str :=
  match c with
  | Some s => s
  | None => ""
  end.

(** [record[key]] for the record [csv.DictReader] makes of [r] under
    [fieldnames]: the last column of that name decides, a column the
    row is too short for holds [None], an unknown name is no key. *)
Fixpoint record_get (key : str) (fieldnames r : row) : option cell :=
  match fieldnames with
  | [] => None
  | f :: fs =>
      match record_get key fs (tl r) with
      | Some c => Some c
      | None => if str_eqb f key then Some (hd_error r) else None
      end
  end.

Definition record_getitem (key : str) (fieldnames r : row) : result cell :=
  match record_get key fieldnames r with
  | Some c => Ok c
  | None => Raise KeyError
  end.

Definition is_blank (r : row) : bool :=
  match r with
  | [] => true
  | _ :: _ => false
  end.

(** The rows [csv.DictReader] iterates over, each with the field
    names: the first row names the fields and blank rows are skipped. *)
Definition dictreader (t : table) : list (row * row) :=
  match t with
  | [] => []
  | fieldnames :: rows =>
      map (pair fieldnames) (filter (fun r => negb (is_blank r)) rows)
  end.

End Csv.

Import Csv.

(* ------------------------------------------------------------------ *)
(** ** update_station_csv.py *)
(* ------------------------------------------------------------------ *)

Module UpdateStationCsv.

Definition newline : ascii := "010"%char.

Fixpoint take_decimals (s : str) : str :=
  match s with
  | [] => []
  | c :: r => if is_decimal c then c :: take_decimals r else []
  end.

(** A literal of the pattern: the text after it, when [s] starts
    with it. *)
Fixpoint expect (literal s : str) : option str :=
  match literal, s with
  | [], _ => Some s
  | c :: literal', x :: s' =>
      if Ascii.eqb x c then expect literal' s' else None
  | _ :: _, [] => None
  end.

(** [\d{2}]: the two digits and the text after them. *)
Definition two_decimals (s : str) : option (str * str) :=
  match s with
  | a :: b :: rest =>
      if is_decimal a && is_decimal b then Some ([a; b], rest) else None
  | _ => None
  end.

(** A match of [(03-\d{2}-\d{2}-01)--(\d+)] at the start of [line]:
    the two groups.  [\d+] is greedy and ends the pattern, so the
    second group is the longest run of digits. *)
Definition match_line (line : str) : option (str * str) :=
  match expect "03-" line with
  | None => None
  | Some r1 =>
  match two_decimals r1 with
  | None => None
  | Some (aisle, r2) =>
  match expect "-" r2 with
  | None => None
  | Some r3 =>
  match two_decimals r3 with
  | None => None
  | Some (station, r4) =>
  match expect "-01" r4 with
  | None => None
  | Some r5 =>
  match expect "--" r5 with
  | None => None
  | Some r6 =>
  match take_decimals r6 with
  | [] => None
  | digits => Some ("03-" ++ aisle ++ "-" ++ station ++ "-01", digits)
  end end end end end end end.

(** [pattern.findall(content)] under [re.MULTILINE]: [^] holds at the
    start of the text and after each newline, and a match never spans
    a newline, so the matches are those of the lines, in order. *)
Definition findall (content : str) : list (str * str) :=
  flat_map (fun line =>
              match match_line line with
              | Some m => [m]
              | None => []
              end)
           (split newline content).

(** [None] when the file is absent or holds no match. *)
Definition extract_check_digits_from_md (md : file str)
  : option (list (str * str)) :=
  match md with
  | None => None
  | Some content =>
      match findall content with
      | [] => None
      | matches => Some matches
      end
  end.

Definition header : row := ["station_number"; "check_digit"].

(** The loop over [csv.DictReader]. *)
Definition read_existing (csv : file table) : result (dict cell cell) :=
  match csv with
  | None => Ok []
  | Some t =>
      foldM (fun existing_data (fr : row * row) =>
               let (fieldnames, r) := fr in
               check_digit <- record_getitem "check_digit" fieldnames r ;;
               station <- record_getitem "station_number" fieldnames r ;;
               Ok (dict_set cell_eqb station check_digit existing_data))
            (dictreader t) []
  end.

Record merge_state : Type := MergeState {
  existing_data : dict cell cell;
  new_count : nat;
  updated_count : nat
}.

(** The body of the loop over [station_data]. *)
Definition merge_step (st : merge_state) (entry : str * str) : merge_state :=
  let (station, check_digit) := entry in
  match dict_get cell_eqb (Some station) (existing_data st) with
  | Some old =>
      MergeState
        (dict_set cell_eqb (Some station) (Some check_digit) (existing_data st))
        (new_count st)
        (if cell_eqb old (Some check_digit) then updated_count st
         else S (updated_count st))
  | None =>
      MergeState
        (dict_set cell_eqb (Some station) (Some check_digit) (existing_data st))
        (S (new_count st))
        (updated_count st)
  end.

Definition merge (station_data : list (str * str)) (d : dict cell cell)
  : merge_state :=
  fold_left merge_step station_data (MergeState d 0 0).

Definition written_row (item : cell * cell) : row :=
  [written_field (fst item); written_field (snd item)].

(** What a call does to the file at [csv_path]. *)
Inductive effect : Set :=
| Untouched
| Wrote (t : table).

(** The table left in the file and the value returned.  An exception
    while reading leaves the file as it was; the file is opened for
    writing and the header written before [sorted] runs, so an
    exception there leaves the header alone. *)
Definition update_android_csv (station_data : list (str * str))
           (csv : file table) : effect * bool :=
  match read_existing csv with
  | Raise _ => (Untouched, false)
  | Ok d =>
      let st := merge station_data d in
      match sorted item_lt (existing_data st) with
      | Raise _ => (Wrote [header], false)
      | Ok sorted_stations =>
          (Wrote (header :: map written_row sorted_stations), true)
      end
  end.

(** [main]: the effect on the table and the exit status. *)
Definition main (md : file str) (csv : file table) : effect * Z :=
  match extract_check_digits_from_md md with
  | None => (Untouched, 1%Z)
  | Some station_data =>
      let (e, success) := update_android_csv station_data csv in
      (e, if success then 0%Z else 1%Z)
  end.

End UpdateStationCsv.

(* ------------------------------------------------------------------ *)
(** ** add_aisle.py *)
(* ------------------------------------------------------------------ *)

Module AddAisle.

(** The format [{n:02d}]. *)
Definition format_02d (n : Z) : str := zfill 2 (str_of_int n).

(** Truth of an entry of [check_digits]: [None] and [0] are false. *)
Definition truthy (check_digit : option Z) : bool :=
  match check_digit with
  | None => false
  | Some n => negb (n =? 0)%Z
  end.

(** The loop over [enumerate(check_digits, 1)], from index [i]. *)
Fixpoint new_stations_from (aisle_number : Z) (i : Z)
         (check_digits : list (option Z)) : table :=
  match check_digits with
  | [] => []
  | check_digit :: rest =>
      let later := new_stations_from aisle_number (i + 1) rest in
      match check_digit with
      | Some n =>
          if truthy check_digit then
            [format_02d aisle_number ++ "-" ++ format_02d i; str_of_int n]
              :: later
          else later
      | None => later
      end
  end.

Definition header : row := ["station_number"; "check_digit"].

(** The order of two rows under [key=lambda x: x[0]]. *)
Definition by_first (a b : str * row) : result bool :=
  Ok (str_ltb (fst a) (fst b)).

(** [all_data.sort(key=lambda x: x[0])]: the keys are taken first. *)
Definition sort_by_first (all_data : table) : result table :=
  keyed <- mapM (fun x : row => k <- getitem x 0 ;; Ok (k, x)) all_data ;;
  r <- sorted by_first keyed ;;
  Ok (map snd r).

(** The table written, or the exception that stops the call before
    the file is opened for writing. *)
Definition add_aisle_to_csv (aisle_number : Z)
           (check_digits : list (option Z)) (csv : file table)
  : result table :=
  let existing_data := match csv with Some t => t | None => [] end in
  let new_stations := new_stations_from aisle_number 1 check_digits in
  all_data <- sort_by_first (tl existing_data ++ new_stations) ;;
  Ok (header :: all_data).

End AddAisle.

(* ------------------------------------------------------------------ *)
(** ** verify_import_process.py *)
(* ------------------------------------------------------------------ *)

Module VerifyImportProcess.

(** Step 1: [next(reader)] takes the header, then every row of at
    least two fields gives a pair. *)
Definition station_data (t : table) : result (list (str * str)) :=
  match t with
  | [] => Raise StopIteration
  | _ :: rows =>
      Ok (flat_map (fun r : row =>
                      match r with
                      | station_number :: check_digit :: _ =>
                          [(station_number, check_digit)]
                      | _ => []
                      end) rows)
  end.

(** Step 3: the check digit is stripped. *)
Definition normalized_stations (t : table) : result (list (str * str)) :=
  data <- station_data t ;;
  Ok (map (fun sc : str * str => (fst sc, strip (snd sc))) data).

(** Step 5: stations per aisle; [station.split('-')[1]] may raise. *)
Definition coverage (stations : list (str * str)) : result (dict str nat) :=
  foldM (fun aisles (sc : str * str) =>
           aisle <- getitem (split "-" (fst sc)) 1 ;;
           let seen := match dict_get str_eqb aisle aisles with
                       | Some n => n
                       | None => 0
                       end in
           Ok (dict_set str_eqb aisle (S seen) aisles))
        stations [].

(** [True] when no step raises. *)
Definition simulate_android_import (csv : file table) : bool :=
  match csv with
  | None => false
  | Some t =>
      match (stations <- normalized_stations t ;; coverage stations) with
      | Ok _ => true
      | Raise _ => false
      end
  end.

End VerifyImportProcess.

Import UpdateStationCsv AddAisle VerifyImportProcess.

(* ------------------------------------------------------------------ *)
(** ** Shapes of identifiers and tables *)
(* ------------------------------------------------------------------ *)

Module Shapes.

(** A segment that normalising leaves alone: trimmed, of two characters
    or more, without a hyphen. *)
Definition settled (a : str) : Prop :=
  strip a = a /\ 2 <= length a /\ ~ In "-"%char a.

(** The first field of a record. *)
Definition station_number_of (r : row) : str := hd "" r.

(** Records in ascending order of [station_number]. *)
Definition ascending (records : table) : Prop :=
  StronglySorted
    (fun r1 r2 =>
       str_leb (station_number_of r1) (station_number_of r2) = true)
    records.

Definition one_record_per_station (records : table) : Prop :=
  NoDup (map station_number_of records).

(** [(k, v)] is the pair of the last entry of [station_data] for [k]. *)
Definition last_entry (station_data : list (str * str)) (k v : str) : Prop :=
  exists before after,
    station_data = before ++ (k, v) :: after /\ ~ In k (map fst after).

(** [line] starts with the code [k], two hyphens and the digits [cd],
    and no digit follows [cd]. *)
Definition check_digit_line (line k cd : str) : Prop :=
  exists a1 a2 s1 s2 rest,
    is_decimal a1 = true /\ is_decimal a2 = true /\
    is_decimal s1 = true /\ is_decimal s2 = true /\
    k = "03-" ++ [a1; a2] ++ "-" ++ [s1; s2] ++ "-01" /\
    cd <> [] /\ forallb is_decimal cd = true /\
    match rest with
    | [] => True
    | c :: _ => is_decimal c = false
    end /\
    line = k ++ "--" ++ cd ++ rest.

End Shapes.

Import Shapes.

(* ------------------------------------------------------------------ *)
(** ** verify_import_process.py: the steps of the import *)
(* ------------------------------------------------------------------ *)

Module ImportSteps.

(** The body of the loop of step 5. *)
Definition count_step (aisles : dict str nat) (sc : str * str)
  : result (dict str nat) :=
  aisle <- getitem (split "-" (fst sc)) 1 ;;
  let seen := match dict_get str_eqb aisle aisles with
              | Some n => n
              | None => 0
              end in
  Ok (dict_set str_eqb aisle (S seen) aisles).

(** [station.split('-')[1] == a], false when there is no second part. *)
Definition in_aisle (a : str) (sc : str * str) : bool :=
  match getitem (split "-" (fst sc)) 1 with
  | Ok p => str_eqb p a
  | Raise _ => false
  end.

End ImportSteps.

Import ImportSteps.

(* ------------------------------------------------------------------ *)
(** ** analyze_station_coverage.py and show_coverage.py: station ranges *)
(* ------------------------------------------------------------------ *)

Module AnalyzeStationCoverage.

(** [range(a, b)] *)
Definition py_range (a b : Z) : list Z :=
  map (fun i => (a + Z.of_nat i)%Z) (seq 0 (Z.to_nat (b - a))).

(** One entry of [ranges]: [str(start)], or [f"{start}-{end}"]. *)
Definition range_text (start stop : Z) : str :=
  if (start =? stop)%Z then str_of_int start
  else str_of_int start ++ "-" ++ str_of_int stop.

(** The loop that groups consecutive numbers, from the state [start],
    [end] and the numbers still to come: the runs it appends, the last
    one after the loop. *)
Fixpoint runs_from (start stop : Z) (rest : list Z) : list (Z * Z) :=
  match rest with
  | [] => [(start, stop)]
  | n :: rest' =>
      if (n =? stop + 1)%Z then runs_from start n rest'
      else (start, stop) :: runs_from n n rest'
  end.

(** The runs of [numbers]; [numbers[0]] is read first. *)
Definition runs (numbers : list Z) : result (list (Z * Z)) :=
  start <- getitem numbers 0 ;;
  Ok (runs_from start start (tl numbers)).

(** The list [ranges] that is joined and printed. *)
Definition ranges (numbers : list Z) : result (list str) :=
  rs <- runs numbers ;;
  Ok (map (fun r : Z * Z => range_text (fst r) (snd r)) rs).

End AnalyzeStationCoverage.

Import AnalyzeStationCoverage.

(* ------------------------------------------------------------------ *)
(** ** rebuild_stations.py *)
(* ------------------------------------------------------------------ *)

Module RebuildStations.

(** The line [f"## District 03-{aisle_num:02d} Series\n"]. *)
Definition district_heading (aisle_num : Z) : str :=
  "## District 03-" ++ format_02d aisle_num ++ " Series" ++ [newline].

(** The line [f"03-{aisle_num:02d}-{station:02d}-01--\n"]. *)
Definition empty_line (aisle_num station : Z) : str :=
  "03-" ++ format_02d aisle_num ++ "-" ++ format_02d station ++ "-01--"
  ++ [newline].

(** The empty template: stations 01 to 63. *)
Definition template (aisle_num : Z) : str :=
  concat (map (empty_line aisle_num) (py_range 1 64)).

(** [existing_data] defaults to [None]; a dictionary that holds the
    aisle is not empty, so the test [existing_data and ...] comes to the
    lookup. *)
Definition generate_district_section (aisle_num : Z)
           (existing_data : option (dict Z (list str))) : str :=
  let section := district_heading aisle_num in
  let body :=
    match existing_data with
    | Some d =>
        match dict_get Z.eqb aisle_num d with
        | Some lines =>
            concat (map (fun station_data => station_data ++ [newline]) lines)
        | None => template aisle_num
        end
    | None => template aisle_num
    end in
  section ++ body ++ [newline].

Definition summary : str :=
  "## Summary" ++ [newline]
  ++ "**Building 3 Complete Coverage:**" ++ [newline]
  ++ "- Districts 03-01 through 03-58 (58 aisles)" ++ [newline]
  ++ "- Each district contains stations 01-63 (63 stations per aisle)"
  ++ [newline]
  ++ "- Total stations: " ++ str_of_int (58 * 63) ++ " stations" ++ [newline].

(** The text [main] writes to [station-numbers-complete.md], from the
    dictionary that [parse_existing_data] returned. *)
Definition complete_content (existing_data : dict Z (list str)) : str :=
  "# Station Numbers - Organized and Sorted" ++ [newline; newline]
  ++ concat (map (fun aisle =>
                    generate_district_section aisle (Some existing_data))
                 (py_range 1 59))
  ++ summary.

End RebuildStations.

Import RebuildStations.

(* ------------------------------------------------------------------ *)
(** ** debug_station_lookup.py: the analysis of the table and the lookup *)
(* ------------------------------------------------------------------ *)

Module StationLookup.

(** [re.match(r'^03-\d{2}-\d{2}-01$', station)]: [$] holds at the end of
    the string and before a newline that ends it. *)
Definition station_format (station : str) : bool :=
  match expect "03-" station with
  | None => false
  | Some r1 =>
  match two_decimals r1 with
  | None => false
  | Some (_, r2) =>
  match expect "-" r2 with
  | None => false
  | Some r3 =>
  match two_decimals r3 with
  | None => false
  | Some (_, r4) =>
  match expect "-01" r4 with
  | None => false
  | Some r5 =>
      match r5 with
      | [] => true
      | [c] => Ascii.eqb c newline
      | _ => false
      end
  end end end end end.

(** [not c] for a string or [None]. *)
Definition falsy (c : cell) : bool :=
  match c with
  | None => true
  | Some [] => true
  | Some (_ :: _) => false
  end.

Record analysis : Type := Analysis {
  stations : dict str (list (str * str));
  issues : list str;
  row_num : Z
}.

Definition issue (n : Z) (text : str) : str :=
  "Row " ++ str_of_int n ++ ": " ++ text.

(** The body of the loop over [enumerate(reader, 2)]. *)
Definition analyze_row (st : analysis) (fr : row * row) : result analysis :=
  let (fieldnames, r) := fr in
  station <- record_getitem "station_number" fieldnames r ;;
  check_digit <- record_getitem "check_digit" fieldnames r ;;
  if falsy station || falsy check_digit then
    Ok (Analysis (stations st)
                 (issues st
                  ++ [issue (row_num st) "Empty station or check digit"])
                 (row_num st + 1))
  else
    let station := written_field station in
    let check_digit := written_field check_digit in
    let issues1 :=
      if station_format station then issues st
      else issues st
           ++ [issue (row_num st) ("Invalid station format: " ++ station)] in
    let issues2 :=
      if isdigit check_digit then issues1
      else issues1
           ++ [issue (row_num st) ("Invalid check digit: " ++ check_digit)] in
    aisle <- getitem (split "-" station) 1 ;;
    let listed := match dict_get str_eqb aisle (stations st) with
                  | Some l => l
                  | None => []
                  end in
    Ok (Analysis (dict_set str_eqb aisle (listed ++ [(station, check_digit)])
                           (stations st))
                 issues2
                 (row_num st + 1)).

(** The loop of [analyze_csv_data] over the rows of the table. *)
Definition analyze_rows (t : table) : result analysis :=
  foldM analyze_row (dictreader t) (Analysis [] [] 2).

(** [analyze_csv_data]: the dictionary of the stations by aisle, empty
    when the file is absent or an exception stops the loop. *)
Definition analyze_csv_data (csv : file table) : dict str (list (str * str)) :=
  match csv with
  | None => []
  | Some t =>
      match analyze_rows t with
      | Ok st => stations st
      | Raise _ => []
      end
  end.

(** [lookup_db] of [test_lookup_simulation]. *)
Definition lookup_db (stations_data : dict str (list (str * str)))
  : dict str str :=
  fold_left (fun db (group : str * list (str * str)) =>
               fold_left (fun db (sc : str * str) =>
                            dict_set str_eqb (fst sc) (snd sc) db)
                         (snd group) db)
            stations_data [].

(** [lookup_db.get(normalized)] for one user input. *)
Definition lookup (stations_data : dict str (list (str * str)))
           (user_input : str) : result (option str) :=
  normalized <- normalize_station_number user_input ;;
  Ok (dict_get str_eqb normalized (lookup_db stations_data)).

(** The status shown: found when the check digit is not empty. *)
Definition found (check_digit : option str) : bool :=
  match check_digit with
  | Some (_ :: _) => true
  | _ => false
  end.

(** [x] is listed under the aisle [a]. *)
Definition listed_in (d : dict str (list (str * str))) (a : str)
           (x : str * str) : Prop :=
  exists l, dict_get str_eqb a d = Some l /\ In x l.

End StationLookup.

Import StationLookup.

(* ------------------------------------------------------------------ *)
(** ** generate_warehouse_map.py: breezeways *)
(* ------------------------------------------------------------------ *)

Module GenerateWarehouseMap.

(** [a < b] on integers, for [sorted]. *)
Definition int_lt (a b : Z) : result bool := Ok (a <? b)%Z.

(** The loop over [range(len(stations) - 1)]: a gap wherever two
    neighbours are more than 1 apart. *)
Fixpoint gaps (stations : list Z) : list (Z * Z) :=
  match stations with
  | [] => []
  | a :: rest =>
      match rest with
      | [] => []
      | b :: _ =>
          if (b - a >? 1)%Z then (a + 1, b - 1)%Z :: gaps rest
          else gaps rest
      end
  end.

(** The body of the loop over the aisles. *)
Definition breezeway_step (V : Type) (breezeways : dict Z (Z * Z))
           (entry : Z * dict Z V) : result (dict Z (Z * Z)) :=
  let (aisle, by_station) := entry in
  stations <- sorted int_lt (dict_keys by_station) ;;
  match gaps stations with
  | [] => Ok breezeways
  | first :: _ => Ok (dict_set Z.eqb aisle first breezeways)
  end.

Definition find_breezeways (V : Type) (station_data : dict Z (dict Z V))
  : result (dict Z (Z * Z)) :=
  foldM (@breezeway_step V) station_data [].

End GenerateWarehouseMap.

Import GenerateWarehouseMap.

(* ------------------------------------------------------------------ *)
(** ** Facts about the string operations *)
(* ------------------------------------------------------------------ *)

Section StringFacts.

Ltac by_cases_on c :=
  destruct c as [[] [] [] [] [] [] [] []]; vm_compute in *;
  try reflexivity; try discriminate; auto.

Lemma decimal_isdigit_char (c : ascii) :
  is_decimal c = true -> isdigit_char c = true.
Proof. unfold isdigit_char. intros ->. reflexivity. Qed.

Lemma isdigit_char_not_space (c : ascii) :
  isdigit_char c = true -> isspace_char c = false.
Proof. by_cases_on c. Qed.

Lemma isdigit_char_not_hyphen (c : ascii) :
  isdigit_char c = true -> c <> "-"%char.
Proof. intros H ->. vm_compute in H. discriminate. Qed.

Lemma str_eqb_eq (a b : str) : str_eqb a b = true <-> a = b.
Proof.
  revert b. induction a as [|x a IH]; intros [|y b]; simpl; split;
    try discriminate; try reflexivity.
  - intros H. apply andb_true_iff in H as [Hx Hab].
    apply Ascii.eqb_eq in Hx. apply IH in Hab. now subst.
  - intros H. injection H as -> ->.
    apply andb_true_iff. split; [apply Ascii.eqb_refl | now apply IH].
Qed.

Lemma str_eqb_refl (a : str) : str_eqb a a = true.
Proof. now apply str_eqb_eq. Qed.

Lemma str_eqb_neq (a b : str) : str_eqb a b = false <-> a <> b.
Proof.
  split.
  - intros H E. apply str_eqb_eq in E. congruence.
  - intros H. destruct (str_eqb a b) eqn:E; [|reflexivity].
    apply str_eqb_eq in E. contradiction.
Qed.

(** *** strip *)

Lemma lstrip_head (c : ascii) (r : str) :
  isspace_char c = false -> lstrip (c :: r) = c :: r.
Proof. simpl. now intros ->. Qed.

Lemma lstrip_clean (s : str) :
  lstrip s = [] \/
  exists c r, lstrip s = c :: r /\ isspace_char c = false.
Proof.
  induction s as [|c r IH]; simpl; [now left|].
  destruct (isspace_char c) eqn:E; [exact IH|].
  right. now exists c, r.
Qed.

Lemma rstrip_head (c : ascii) (r : str) :
  isspace_char c = false -> rstrip (c :: r) = c :: rstrip r.
Proof. simpl. intros ->. now destruct (rstrip r). Qed.

Lemma rstrip_idem (s : str) : rstrip (rstrip s) = rstrip s.
Proof.
  induction s as [|c r IH]; simpl; [reflexivity|].
  destruct (rstrip r) as [|d r'] eqn:E.
  - destruct (isspace_char c) eqn:Ec; simpl; [reflexivity|].
    now rewrite Ec.
  - change (rstrip (c :: d :: r') = c :: d :: r').
    simpl. simpl in IH. now rewrite IH.
Qed.

Lemma strip_idem (s : str) : strip (strip s) = strip s.
Proof.
  unfold strip. destruct (lstrip_clean s) as [-> | (c & r & -> & Hc)].
  - reflexivity.
  - rewrite rstrip_head, lstrip_head, rstrip_head by assumption.
    now rewrite rstrip_idem.
Qed.

Lemma rstrip_no_space (s : str) :
  forallb (fun c => negb (isspace_char c)) s = true -> rstrip s = s.
Proof.
  induction s as [|c r IH]; simpl; [reflexivity|].
  intros H. apply andb_true_iff in H as [Hc Hr].
  rewrite (IH Hr). apply negb_true_iff in Hc. rewrite Hc.
  now destruct r.
Qed.

Lemma rstrip_snoc (m : str) (d : ascii) :
  isspace_char d = false -> rstrip (m ++ [d]) = m ++ [d].
Proof.
  intros Hd. induction m as [|c m IH]; simpl.
  - now rewrite Hd.
  - rewrite IH. now destruct m.
Qed.

Lemma strip_fixed (c d : ascii) (m : str) :
  isspace_char c = false -> isspace_char d = false ->
  strip (c :: m ++ [d]) = c :: m ++ [d].
Proof.
  intros Hc Hd. unfold strip. rewrite lstrip_head by assumption.
  now apply (rstrip_snoc (c :: m)).
Qed.

Lemma strip_no_space (s : str) :
  forallb (fun c => negb (isspace_char c)) s = true -> strip s = s.
Proof.
  intros H. unfold strip.
  destruct s as [|c r]; [reflexivity|].
  pose proof H as H'. simpl in H'. apply andb_true_iff in H' as [Hc _].
  apply negb_true_iff in Hc. rewrite lstrip_head by assumption.
  now apply rstrip_no_space.
Qed.

Lemma lstrip_incl (s : str) (c : ascii) : In c (lstrip s) -> In c s.
Proof.
  induction s as [|x r IH]; simpl; [tauto|].
  destruct (isspace_char x); simpl; tauto.
Qed.

Lemma rstrip_incl (s : str) (c : ascii) : In c (rstrip s) -> In c s.
Proof.
  induction s as [|x r IH]; simpl; [tauto|].
  destruct (rstrip r) as [|d r'].
  - destruct (isspace_char x); simpl; tauto.
  - intros [H | H]; [now left | right; now apply IH].
Qed.

Lemma strip_incl (s : str) (c : ascii) : In c (strip s) -> In c s.
Proof. intros H. now apply lstrip_incl, rstrip_incl. Qed.

Lemma strip_single (c : ascii) : strip [c] = [c] -> isspace_char c = false.
Proof.
  unfold strip. simpl. destruct (isspace_char c); [discriminate | reflexivity].
Qed.

(** *** split and replace *)

Lemma split_not_nil (sep : ascii) (s : str) : split sep s <> [].
Proof.
  induction s as [|c r IH]; simpl; [discriminate|].
  destruct (Ascii.eqb c sep); [discriminate|].
  destruct (split sep r); discriminate.
Qed.

Lemma split_without (sep : ascii) (s : str) :
  ~ In sep s -> split sep s = [s].
Proof.
  induction s as [|c r IH]; simpl; [reflexivity|].
  intros H. destruct (Ascii.eqb_spec c sep) as [-> | _]; [tauto|].
  rewrite IH; tauto.
Qed.

Lemma split_app (sep : ascii) (a b : str) :
  ~ In sep a -> split sep (a ++ sep :: b) = a :: split sep b.
Proof.
  induction a as [|c r IH]; simpl.
  - now rewrite Ascii.eqb_refl.
  - intros H. destruct (Ascii.eqb_spec c sep) as [-> | _]; [tauto|].
    rewrite IH; tauto.
Qed.

Lemma split_parts_without (sep : ascii) (s p : str) :
  In p (split sep s) -> ~ In sep p.
Proof.
  revert p. induction s as [|c r IH]; simpl; intros p.
  - intros [<- | []]. tauto.
  - destruct (Ascii.eqb_spec c sep) as [-> | Hc].
    + intros [<- | H]; [tauto | now apply IH].
    + destruct (split sep r) as [|q qs] eqn:E.
      * now apply split_not_nil in E.
      * intros [<- | H].
        -- intros [Hin | Hin]; [congruence|].
           apply (IH q); [now left | exact Hin].
        -- apply IH. now right.
Qed.

Lemma remove_char_without (c : ascii) (s : str) :
  ~ In c s -> remove_char c s = s.
Proof.
  unfold remove_char. induction s as [|x r IH]; simpl; [reflexivity|].
  intros H. destruct (Ascii.eqb_spec x c) as [-> | _]; [tauto|].
  simpl. rewrite IH; tauto.
Qed.

Lemma remove_char_app (c : ascii) (a b : str) :
  remove_char c (a ++ b) = remove_char c a ++ remove_char c b.
Proof. apply filter_app. Qed.

Lemma remove_char_absent (c : ascii) (s : str) : ~ In c (remove_char c s).
Proof.
  unfold remove_char. intros H. apply filter_In in H as [_ H].
  now rewrite Ascii.eqb_refl in H.
Qed.

(** *** zfill *)

Lemma zfill_long (w : nat) (s : str) : w <= length s -> zfill w s = s.
Proof.
  intros H. unfold zfill. apply Nat.leb_le in H. now rewrite H.
Qed.

Lemma zfill_length (w : nat) (s : str) : w <= length (zfill w s).
Proof.
  unfold zfill. destruct (w <=? length s) eqn:E.
  - now apply Nat.leb_le.
  - apply Nat.leb_gt in E.
    destruct s as [|c r]; simpl in *.
    + rewrite repeat_length. lia.
    + destruct (Ascii.eqb c "+" || Ascii.eqb c "-"); simpl;
        rewrite length_app, repeat_length; simpl; lia.
Qed.

Lemma zfill_incl (w : nat) (s : str) (c : ascii) :
  In c (zfill w s) -> In c s \/ c = "0"%char.
Proof.
  unfold zfill. destruct (w <=? length s); [tauto|].
  destruct s as [|x r].
  - intros H. right. now apply repeat_spec in H.
  - destruct (Ascii.eqb x "+" || Ascii.eqb x "-"); simpl;
      rewrite in_app_iff; simpl.
    + intros [H | [H | H]]; [tauto | | tauto].
      right. now apply repeat_spec in H.
    + intros [H | [H | H]]; [ | tauto | tauto].
      right. now apply repeat_spec in H.
Qed.

Lemma zfill2_stripped (s : str) :
  strip s = s -> strip (zfill 2 s) = zfill 2 s.
Proof.
  intros H. destruct s as [|c [|d r]].
  - reflexivity.
  - apply strip_single in H. unfold zfill. simpl.
    destruct (Ascii.eqb c "+" || Ascii.eqb c "-").
    + now apply (@strip_fixed c "0"%char []).
    + now apply (@strip_fixed "0"%char c []).
  - rewrite zfill_long; [exact H | simpl; lia].
Qed.

Lemma zfill2_is (s : str) (c : ascii) :
  c <> "+"%char -> c <> "-"%char -> c <> "0"%char ->
  zfill 2 s = ["0"%char; c] <-> (s = ["0"%char; c] \/ s = [c]).
Proof.
  intros Hp Hm Hz. destruct s as [|x [|y [|z r]]]; unfold zfill; simpl.
  - split; [intros H; injection H as H; congruence | intros [H | H]; discriminate].
  - destruct (Ascii.eqb_spec x "+") as [-> | Hx]; simpl.
    { split; [discriminate | intros [H | H]; [discriminate | congruence]]. }
    destruct (Ascii.eqb_spec x "-") as [-> | Hx']; simpl.
    { split; [discriminate | intros [H | H]; [discriminate | congruence]]. }
    split.
    + intros H. injection H as ->. now right.
    + intros [H | H]; [discriminate | now injection H as ->].
  - split; [intros H; now left | intros [H | H]; [exact H | discriminate]].
  - split; [discriminate | intros [H | H]; discriminate].
Qed.

(** *** The order on strings *)

Lemma code_inj (x y : ascii) : code x = code y -> x = y.
Proof.
  unfold code. intros H.
  rewrite <- (ascii_nat_embedding x), <- (ascii_nat_embedding y).
  now rewrite H.
Qed.

Ltac compare_codes x y :=
  destruct (Nat.compare_spec (code x) (code y)).

Lemma str_ltb_irrefl (a : str) : str_ltb a a = false.
Proof.
  induction a as [|x a IH]; simpl; [reflexivity|].
  now rewrite Nat.compare_refl.
Qed.

Lemma str_ltb_asym (a b : str) :
  str_ltb a b = true -> str_ltb b a = false.
Proof.
  revert b. induction a as [|x a IH]; intros [|y b]; simpl;
    try discriminate; try reflexivity.
  compare_codes x y; compare_codes y x;
    try discriminate; try (exfalso; lia); auto.
Qed.

Lemma str_ltb_trans (a b c : str) :
  str_ltb a b = true -> str_ltb b c = true -> str_ltb a c = true.
Proof.
  revert b c. induction a as [|x a IH]; intros [|y b] [|z c]; simpl;
    try discriminate; try reflexivity.
  compare_codes x y; compare_codes y z; compare_codes x z;
    try discriminate; try (exfalso; lia); try reflexivity.
  apply IH.
Qed.

Lemma str_ltb_total (a b : str) :
  str_ltb a b = false -> str_ltb b a = false -> a = b.
Proof.
  revert b. induction a as [|x a IH]; intros [|y b]; simpl;
    try discriminate; try reflexivity.
  compare_codes x y; compare_codes y x;
    try discriminate; try (exfalso; lia).
  intros Hab Hba. f_equal; [now apply code_inj | now apply IH].
Qed.

Lemma str_leb_iff (a b : str) :
  str_leb a b = true <-> str_ltb a b = true \/ a = b.
Proof.
  unfold str_leb. rewrite negb_true_iff. split.
  - intros H. destruct (str_ltb a b) eqn:E; [now left | right].
    now apply str_ltb_total.
  - intros [H | ->]; [now apply str_ltb_asym | apply str_ltb_irrefl].
Qed.

Lemma str_leb_trans (a b c : str) :
  str_leb a b = true -> str_leb b c = true -> str_leb a c = true.
Proof.
  rewrite !str_leb_iff. intros [Hab | ->] [Hbc | ->]; auto.
  left. exact (str_ltb_trans _ _ _ Hab Hbc).
Qed.

Lemma cell_eqb_eq (a b : cell) : cell_eqb a b = true <-> a = b.
Proof.
  destruct a as [x|], b as [y|]; simpl; try (split; congruence).
  rewrite str_eqb_eq. split; congruence.
Qed.

Lemma cell_eqb_refl (a : cell) : cell_eqb a a = true.
Proof. now apply cell_eqb_eq. Qed.

Lemma cell_eqb_neq (a b : cell) : cell_eqb a b = false <-> a <> b.
Proof.
  split.
  - intros H E. apply cell_eqb_eq in E. congruence.
  - intros H. destruct (cell_eqb a b) eqn:E; [|reflexivity].
    apply cell_eqb_eq in E. contradiction.
Qed.

Lemma cell_eqb_sym (a b : cell) : cell_eqb a b = cell_eqb b a.
Proof.
  destruct (cell_eqb b a) eqn:E.
  - apply cell_eqb_eq in E. subst. apply cell_eqb_refl.
  - apply cell_eqb_neq in E. apply cell_eqb_neq. congruence.
Qed.

Lemma cell_eq_dec (a b : cell) : {a = b} + {a <> b}.
Proof.
  destruct (cell_eqb a b) eqn:E.
  - left. now apply cell_eqb_eq.
  - right. now apply cell_eqb_neq.
Defined.

End StringFacts.

(* ------------------------------------------------------------------ *)
(** ** Facts about dictionaries and sorting *)
(* ------------------------------------------------------------------ *)

Section DictFacts.

Variables (K V : Type) (eqb : K -> K -> bool).
Hypothesis eqb_eq : forall a b, eqb a b = true <-> a = b.

Lemma eqb_same (a : K) : eqb a a = true.
Proof. now apply eqb_eq. Qed.

Lemma eqb_other (a b : K) : a <> b -> eqb a b = false.
Proof.
  intros H. destruct (eqb a b) eqn:E; [|reflexivity].
  apply eqb_eq in E. contradiction.
Qed.

Lemma dict_get_set_same (k : K) (v : V) (d : dict K V) :
  dict_get eqb k (dict_set eqb k v d) = Some v.
Proof.
  induction d as [|[k' v'] d IH]; simpl.
  - now rewrite eqb_same.
  - destruct (eqb k' k) eqn:E; simpl; now rewrite E.
Qed.

Lemma dict_get_set_other (k k' : K) (v : V) (d : dict K V) :
  k' <> k -> dict_get eqb k' (dict_set eqb k v d) = dict_get eqb k' d.
Proof.
  intros H. induction d as [|[k0 v0] d IH]; simpl.
  - rewrite eqb_other; [reflexivity | congruence].
  - destruct (eqb k0 k) eqn:E; simpl.
    + apply eqb_eq in E. subst k0.
      rewrite eqb_other; [reflexivity | congruence].
    + now rewrite IH.
Qed.

Lemma dict_keys_set (k k' : K) (v : V) (d : dict K V) :
  In k' (dict_keys (dict_set eqb k v d)) <-> k' = k \/ In k' (dict_keys d).
Proof.
  unfold dict_keys. induction d as [|[k0 v0] d IH]; simpl.
  - intuition congruence.
  - destruct (eqb k0 k) eqn:E; simpl.
    + apply eqb_eq in E. subst k0. intuition congruence.
    + rewrite IH. intuition congruence.
Qed.

Lemma dict_set_nodup (k : K) (v : V) (d : dict K V) :
  NoDup (dict_keys d) -> NoDup (dict_keys (dict_set eqb k v d)).
Proof.
  unfold dict_keys. induction d as [|[k0 v0] d IH]; simpl; intros H.
  - constructor; [tauto | constructor].
  - inversion H as [|? ? Hn Hd]; subst.
    destruct (eqb k0 k) eqn:E; simpl.
    + now constructor.
    + constructor; [|now apply IH].
      intros Hin. apply (dict_keys_set k k0 v d) in Hin as [-> | Hin].
      * now rewrite eqb_same in E.
      * contradiction.
Qed.

Lemma dict_get_in (k : K) (v : V) (d : dict K V) :
  dict_get eqb k d = Some v -> In (k, v) d.
Proof.
  induction d as [|[k0 v0] d IH]; simpl; [discriminate|].
  destruct (eqb k0 k) eqn:E.
  - apply eqb_eq in E. subst k0. intros H. injection H as ->. now left.
  - intros H. right. now apply IH.
Qed.

Lemma dict_in_get (k : K) (v : V) (d : dict K V) :
  NoDup (dict_keys d) -> In (k, v) d -> dict_get eqb k d = Some v.
Proof.
  unfold dict_keys. induction d as [|[k0 v0] d IH]; simpl; [tauto|].
  intros H Hin. inversion H as [|? ? Hn Hd]; subst.
  destruct Hin as [E | Hin].
  - injection E as -> ->. now rewrite eqb_same.
  - destruct (eqb k0 k) eqn:E.
    + apply eqb_eq in E. subst k0. exfalso. apply Hn.
      apply in_map_iff. now exists (k, v).
    + now apply IH.
Qed.

Lemma dict_get_none (k : K) (d : dict K V) :
  ~ In k (dict_keys d) -> dict_get eqb k d = None.
Proof.
  unfold dict_keys. induction d as [|[k0 v0] d IH]; simpl; [reflexivity|].
  intros H. rewrite eqb_other by tauto. apply IH. tauto.
Qed.

End DictFacts.

Section SortFacts.

Variables (A : Type) (lt : A -> A -> result bool).

Hypothesis lt_asym : forall a b, lt a b = Ok true -> lt b a = Ok false.

Lemma insert_sorted_perm (x : A) (l r : list A) :
  insert_sorted lt x l = Ok r -> Permutation (x :: l) r.
Proof.
  revert r. induction l as [|y l IH]; simpl; intros r.
  - intros H. injection H as <-. reflexivity.
  - destruct (lt y x) as [[|]|] eqn:E; simpl; try discriminate.
    + destruct (insert_sorted lt x l) as [r'|] eqn:E'; simpl;
        try discriminate.
      intros H. injection H as <-.
      rewrite perm_swap. constructor. now apply IH.
    + intros H. injection H as <-. reflexivity.
Qed.

Lemma sorted_perm (l r : list A) :
  sorted lt l = Ok r -> Permutation l r.
Proof.
  revert r. induction l as [|x l IH]; simpl; intros r.
  - intros H. injection H as <-. reflexivity.
  - destruct (sorted lt l) as [r'|] eqn:E; simpl; try discriminate.
    intros H. apply insert_sorted_perm in H.
    rewrite <- H. constructor. now apply IH.
Qed.

Lemma insert_sorted_defined (x : A) (l : list A) :
  (forall y, In y l -> exists b, lt y x = Ok b) ->
  exists r, insert_sorted lt x l = Ok r.
Proof.
  induction l as [|y l IH]; simpl; intros H.
  - now exists [x].
  - destruct (H y) as [b Hb]; [now left|]. rewrite Hb. simpl.
    destruct b.
    + destruct IH as [r Hr]; [intros z Hz; apply H; now right|].
      rewrite Hr. simpl. now exists (y :: r).
    + now exists (x :: y :: l).
Qed.

Lemma insert_sorted_HdRel (x y : A) (l r : list A) :
  insert_sorted lt x l = Ok r ->
  not_above lt y x -> HdRel (not_above lt) y l -> HdRel (not_above lt) y r.
Proof.
  destruct l as [|h t]; simpl.
  - intros H Hx _. injection H as <-. now constructor.
  - destruct (lt h x) as [[|]|] eqn:E; simpl; try discriminate.
    + destruct (insert_sorted lt x t) as [r'|]; simpl; try discriminate.
      intros H _ Hh. injection H as <-.
      inversion Hh; subst. now constructor.
    + intros H Hx _. injection H as <-. now constructor.
Qed.

Lemma insert_sorted_Sorted (x : A) (l r : list A) :
  Sorted (not_above lt) l -> insert_sorted lt x l = Ok r ->
  Sorted (not_above lt) r.
Proof.
  revert r. induction l as [|y l IH]; simpl; intros r Hs.
  - intros H. injection H as <-. repeat constructor.
  - destruct (lt y x) as [[|]|] eqn:E; simpl; try discriminate.
    + destruct (insert_sorted lt x l) as [r'|] eqn:E'; simpl;
        try discriminate.
      intros H. injection H as <-.
      inversion Hs as [|? ? Hl Hh]; subst.
      constructor; [now apply IH|].
      apply insert_sorted_HdRel with (x := x) (l := l);
        [exact E' | now apply lt_asym | exact Hh].
    + intros H. injection H as <-.
      constructor; [exact Hs|]. now constructor.
Qed.

Lemma sorted_Sorted (l r : list A) :
  sorted lt l = Ok r -> Sorted (not_above lt) r.
Proof.
  revert r. induction l as [|x l IH]; simpl; intros r.
  - intros H. injection H as <-. constructor.
  - destruct (sorted lt l) as [r'|] eqn:E; simpl; try discriminate.
    apply insert_sorted_Sorted. now apply IH.
Qed.

End SortFacts.

Section ListFacts.

Variables (A B : Type).

Lemma Sorted_map (R : B -> B -> Prop) (f : A -> B) (l : list A) :
  Sorted (fun a b => R (f a) (f b)) l -> Sorted R (map f l).
Proof.
  induction 1 as [|a l Hs IH Hh]; simpl; constructor; [exact IH|].
  destruct Hh; simpl; now constructor.
Qed.

Lemma StronglySorted_weaken (R R' : A -> A -> Prop) (l : list A) :
  (forall a b, R a b -> R' a b) ->
  StronglySorted R l -> StronglySorted R' l.
Proof.
  intros H. induction 1 as [|a l Hs IH Hf]; constructor; [exact IH|].
  revert Hf. apply Forall_impl. exact (H a).
Qed.

Lemma Sorted_weaken (R R' : A -> A -> Prop) (l : list A) :
  (forall a b, R a b -> R' a b) -> Sorted R l -> Sorted R' l.
Proof.
  intros H. induction 1 as [|a l Hs IH Hh]; constructor; [exact IH|].
  destruct Hh; constructor. now apply H.
Qed.

Lemma StronglySorted_map_in (P : A -> Prop) (R : A -> A -> Prop)
      (R' : B -> B -> Prop) (f : A -> B) (l : list A) :
  (forall a b, P a -> P b -> R a b -> R' (f a) (f b)) ->
  Forall P l -> StronglySorted R l -> StronglySorted R' (map f l).
Proof.
  intros H Hp Hs. induction Hs as [|a l Hs IH Hf]; simpl; constructor.
  - apply IH. now inversion Hp.
  - inversion Hp as [|? ? Pa Pl]; subst.
    rewrite Forall_forall in *. intros y Hy.
    apply in_map_iff in Hy as (b & <- & Hb). auto.
Qed.

Lemma last_occurrence (k : A) (l : list (A * B)) :
  (forall a b : A, {a = b} + {a <> b}) ->
  In k (map fst l) ->
  exists before v after,
    l = before ++ (k, v) :: after /\ ~ In k (map fst after).
Proof.
  intros dec. induction l as [|[k0 v0] l IH]; simpl; [tauto|].
  intros H. destruct (in_dec dec k (map fst l)) as [Hin | Hout].
  - destruct (IH Hin) as (before & v & after & -> & Hafter).
    now exists ((k0, v0) :: before), v, after.
  - destruct H as [-> | H]; [|contradiction].
    now exists [], v0, l.
Qed.

End ListFacts.

(* ------------------------------------------------------------------ *)
(** ** normalize_station_number *)
(* ------------------------------------------------------------------ *)

Section Normalize.

Lemma four_digits_inv (cleaned : str) :
  four_digits cleaned = true ->
  exists d1 d2 d3 d4,
    cleaned = [d1; d2; d3; d4] /\
    isdigit_char d1 = true /\ isdigit_char d2 = true /\
    isdigit_char d3 = true /\ isdigit_char d4 = true.
Proof.
  unfold four_digits. intros H. apply andb_true_iff in H as [Hl Hd].
  apply Nat.eqb_eq in Hl.
  destruct cleaned as [|d1 [|d2 [|d3 [|d4 [|d5 r]]]]]; try discriminate.
  simpl in Hd. rewrite !andb_true_iff in Hd.
  exists d1, d2, d3, d4. tauto.
Qed.

Lemma four_digits_long (s : str) : 4 < length s -> four_digits s = false.
Proof.
  intros H. unfold four_digits.
  destruct (Nat.eqb_spec (length s) 4); [lia | reflexivity].
Qed.

Lemma settled_digits (d1 d2 : ascii) :
  isdigit_char d1 = true -> isdigit_char d2 = true -> settled [d1; d2].
Proof.
  intros H1 H2. repeat split.
  - apply (@strip_fixed d1 d2 []); now apply isdigit_char_not_space.
  - simpl. lia.
  - intros [H | [H | []]];
      [exact (isdigit_char_not_hyphen H1 H) | exact (isdigit_char_not_hyphen H2 H)].
Qed.

Lemma settled_part (s p : str) :
  In p (parts_of s) -> settled (zfill 2 p).
Proof.
  unfold parts_of. intros H. apply in_map_iff in H as (q & <- & Hq).
  apply split_parts_without in Hq. repeat split.
  - apply zfill2_stripped, strip_idem.
  - apply zfill_length.
  - intros H. apply zfill_incl in H as [H | H]; [|discriminate].
    now apply strip_incl in H.
Qed.

Lemma cleaned_canonical (a st : str) :
  ~ In "-"%char a -> ~ In "-"%char st ->
  cleaned_of (canonical a st) = "03" ++ a ++ st ++ "01".
Proof.
  intros Ha Hs. unfold cleaned_of, canonical.
  rewrite !remove_char_app.
  rewrite (@remove_char_without "-"%char a Ha).
  rewrite (@remove_char_without "-"%char st Hs).
  assert (E : remove_char "-" "03-" ++ a ++ remove_char "-" "-" ++ st
              ++ remove_char "-" "-01"
              = "0"%char :: ("3"%char :: a ++ st ++ "0") ++ ["1"%char]).
  { simpl. now rewrite <- !app_assoc. }
  rewrite E, strip_fixed by reflexivity.
  simpl. now rewrite <- !app_assoc.
Qed.

Lemma parts_canonical (a st : str) :
  settled a -> settled st ->
  parts_of (canonical a st) = ["03"; a; st; "01"].
Proof.
  intros (Ha & _ & Hna) (Hs & _ & Hns). unfold parts_of, canonical.
  change ("03-" ++ a ++ "-" ++ st ++ "-01")
    with ("03" ++ "-"%char :: (a ++ "-"%char :: (st ++ "-"%char :: "01"))).
  rewrite split_app, split_app, split_app, split_without; try assumption.
  - simpl. now rewrite Ha, Hs.
  - intros [H | [H | []]]; discriminate.
  - intros [H | [H | []]]; discriminate.
Qed.

(** A canonical string over settled segments is a fixed point. *)
Lemma normalize_canonical (a st : str) :
  settled a -> settled st ->
  normalize_station_number (canonical a st) = Ok (canonical a st).
Proof.
  intros Ha Hs. unfold normalize_station_number.
  pose proof Ha as (_ & Hla & Hna). pose proof Hs as (_ & Hls & Hns).
  rewrite (@cleaned_canonical a st Hna Hns), four_digits_long.
  - rewrite (@parts_canonical a st Ha Hs). simpl.
    now rewrite !zfill_long by assumption.
  - simpl. rewrite !length_app. simpl. lia.
Qed.

(** The two kinds of result: the input itself, or a canonical string
    over settled segments. *)
Lemma normalize_cases (s : str) :
  normalize_station_number s = Ok s \/
  exists a st,
    settled a /\ settled st /\
    normalize_station_number s = Ok (canonical a st).
Proof.
  unfold normalize_station_number.
  destruct (four_digits (cleaned_of s)) eqn:E4.
  - apply four_digits_inv in E4 as (d1 & d2 & d3 & d4 & -> & H1 & H2 & H3 & H4).
    right. exists [d1; d2], [d3; d4].
    repeat split; try (now apply settled_digits).
  - pose proof (@settled_part s) as Hp.
    destruct (parts_of s) as [|p0 [|p1 [|p2 [|p3 [|p4 r]]]]]; simpl;
      try (now left).
    + right. exists (zfill 2 p0), (zfill 2 p1).
      repeat split; try (apply Hp; simpl; tauto).
    + destruct (str_eqb p0 "03" || str_eqb p0 "3"); [|now left].
      right. exists (zfill 2 p1), (zfill 2 p2).
      repeat split; try (apply Hp; simpl; tauto).
    + destruct ((str_eqb (zfill 2 p0) "03" || str_eqb p0 "3")
                && (str_eqb (zfill 2 p3) "01" || str_eqb p3 "1"));
        [|now left].
      right. exists (zfill 2 p1), (zfill 2 p2).
      repeat split; try (apply Hp; simpl; tauto).
Qed.

Lemma zfill2_eqb (p : str) (c : ascii) :
  c <> "+"%char -> c <> "-"%char -> c <> "0"%char ->
  str_eqb (zfill 2 p) ["0"%char; c] || str_eqb p [c]
  = str_eqb p ["0"%char; c] || str_eqb p [c].
Proof.
  intros Hp Hm Hz.
  destruct (str_eqb p [c]) eqn:E1; [now rewrite !orb_true_r|].
  rewrite !orb_false_r.
  destruct (str_eqb p ["0"%char; c]) eqn:E2.
  - apply str_eqb_eq. apply zfill2_is; try assumption.
    left. now apply str_eqb_eq.
  - apply str_eqb_neq. intros H. apply zfill2_is in H; try assumption.
    apply str_eqb_neq in E1, E2. tauto.
Qed.

(** The inputs of [test_normalization_scenarios] and what they give. *)
Example normalization_scenarios :
  map normalize_station_number
      ["3-40-15-1"; "4015"; "40-15"; "03-40-15"; "03-40-15-01";
       "3-58-22-1"; "5822"; "58-22"; "03-58-22"; "03-58-22-01"]
  = map Ok
        ["03-40-15-01"; "03-40-15-01"; "03-40-15-01"; "03-40-15-01";
         "03-40-15-01";
         "03-58-22-01"; "03-58-22-01"; "03-58-22-01"; "03-58-22-01";
         "03-58-22-01"].
Proof. reflexivity. Qed.

(** The parts are trimmed before they are compared and padded, and
    [zfill] keeps a sign in front. *)
Example normalization_of_spaced_parts :
  normalize_station_number " 3 - 57 - 15 " = Ok "03-57-15-01"
  /\ normalize_station_number "3-+-5" = Ok "03-+0-05-01".
Proof. split; reflexivity. Qed.

(** C1. When the input without its hyphens, trimmed, is four decimal
    digits [d1 d2 d3 d4], the result is ["03-d1d2-d3d4-01"], wherever
    the hyphens were and whatever number of parts they cut. *)
Theorem normalize_four_digit_rule (s : str) (d1 d2 d3 d4 : ascii) :
  strip (remove_char "-" s) = [d1; d2; d3; d4] ->
  is_decimal d1 = true -> is_decimal d2 = true ->
  is_decimal d3 = true -> is_decimal d4 = true ->
  normalize_station_number s
  = Ok ("03-" ++ [d1; d2] ++ "-" ++ [d3; d4] ++ "-01").
Proof.
  intros H H1 H2 H3 H4. unfold normalize_station_number, cleaned_of.
  rewrite H. unfold four_digits, isdigit. simpl.
  now rewrite !decimal_isdigit_char by assumption.
Qed.

Lemma normalize_four_digit_rule_witness :
  normalize_station_number "4015" = Ok "03-40-15-01"
  /\ normalize_station_number "5-8-2-2" = Ok "03-58-22-01".
Proof.
  split.
  - apply (@normalize_four_digit_rule "4015" "4" "0" "1" "5"); reflexivity.
  - apply (@normalize_four_digit_rule "5-8-2-2" "5" "8" "2" "2"); reflexivity.
Defined.

(** C2, as stated, fails: ["1-234"] splits into the two parts ["1"] and
    ["234"], yet the four-digit rule applies first and the result is
    ["03-12-34-01"], not ["03-01-234-01"]. *)
Lemma normalize_two_parts_counterexample :
  split "-" "1-234" = ["1"; "234"]
  /\ parts_of "1-234" = ["1"; "234"]
  /\ normalize_station_number "1-234" = Ok "03-12-34-01"
  /\ normalize_station_number "1-234"
     <> Ok ("03-" ++ zfill 2 "1" ++ "-" ++ zfill 2 "234" ++ "-01").
Proof. repeat split. discriminate. Qed.

(** C2, amended. When the four-digit rule does not apply and the input
    splits on ["-"] into exactly two parts [A] and [S], the result is
    ["03-"], [A] zero-filled to two characters, ["-"], [S] zero-filled,
    ["-01"].  The parts are those the code pads, each trimmed. *)
Theorem normalize_two_parts (s A S : str) :
  four_digits (cleaned_of s) = false ->
  parts_of s = [A; S] ->
  normalize_station_number s
  = Ok ("03-" ++ zfill 2 A ++ "-" ++ zfill 2 S ++ "-01").
Proof.
  intros H4 Hs. unfold normalize_station_number.
  now rewrite H4, Hs.
Qed.

Lemma normalize_two_parts_witness :
  normalize_station_number "7-9" = Ok "03-07-09-01".
Proof. apply (@normalize_two_parts "7-9" "7" "9"); reflexivity. Defined.

(** On a string without a sign, [zfill(2)] puts zeros in front until
    there are two characters. *)
Lemma zfill2_unsigned (p : str) :
  ~ In "-"%char p ->
  zfill 2 p
  = match p with
    | [] => "00"
    | [c] => if Ascii.eqb c "+" then "+0" else ["0"%char; c]
    | _ => p
    end.
Proof.
  intros Hm. destruct p as [|c [|d r]]; [reflexivity | | reflexivity].
  unfold zfill. cbn.
  destruct (Ascii.eqb c "+") eqn:Ep.
  - apply Ascii.eqb_eq in Ep. now subst c.
  - destruct (Ascii.eqb c "-") eqn:Em; [|reflexivity].
    apply Ascii.eqb_eq in Em. subst c. exfalso. apply Hm. now left.
Qed.

Lemma zfill2_part (s p : str) :
  In p (split "-" s) ->
  zfill 2 (strip p)
  = match strip p with
    | [] => "00"
    | [c] => if Ascii.eqb c "+" then "+0" else ["0"%char; c]
    | _ => strip p
    end.
Proof.
  intros Hin. apply zfill2_unsigned. intros H. apply strip_incl in H.
  now apply (split_parts_without _ _ _ Hin).
Qed.

(** C3, as stated, fails: [" 3-57-15"] splits into the three parts
    [" 3"], ["57"] and ["15"], the first of which is neither ["03"] nor
    ["3"], yet the result is ["03-57-15-01"] and not the input: the code
    trims each part before it compares it. *)
Lemma normalize_three_parts_counterexample :
  four_digits (cleaned_of " 3-57-15") = false
  /\ split "-" " 3-57-15" = [" 3"; "57"; "15"]
  /\ str_eqb " 3" "03" || str_eqb " 3" "3" = false
  /\ normalize_station_number " 3-57-15" = Ok "03-57-15-01"
  /\ normalize_station_number " 3-57-15" <> Ok " 3-57-15".
Proof. repeat split. discriminate. Qed.

(** C3, amended. When the four-digit rule does not apply and the input
    splits on ["-"] into exactly three parts, each part is first trimmed
    of whitespace.  If the trimmed first part is ["03"] or ["3"], the
    result is ["03-"], the trimmed second part zero-padded to two
    characters, ["-"], the trimmed third part zero-padded, ["-01"];
    otherwise the result is the input.  Zero-padding is written out: an
    empty part becomes ["00"], a one-character part gets one ["0"] in
    front (behind it when the character is ["+"]), a longer part stays
    as it is. *)
Theorem normalize_three_parts (s p0 p1 p2 : str) :
  four_digits (cleaned_of s) = false ->
  split "-" s = [p0; p1; p2] ->
  let pad := fun p : str =>
               match p with
               | [] => "00"
               | [c] => if Ascii.eqb c "+" then "+0" else ["0"%char; c]
               | _ => p
               end in
  normalize_station_number s
  = if str_eqb (strip p0) "03" || str_eqb (strip p0) "3"
    then Ok ("03-" ++ pad (strip p1) ++ "-" ++ pad (strip p2) ++ "-01")
    else Ok s.
Proof.
  intros H4 Hs pad. unfold normalize_station_number, parts_of.
  rewrite H4, Hs. cbn [map length Nat.eqb getitem nth_error bind].
  destruct (str_eqb (strip p0) "03" || str_eqb (strip p0) "3");
    [|reflexivity].
  unfold canonical, pad. cbv beta.
  rewrite (@zfill2_part s p1), (@zfill2_part s p2);
    [reflexivity | |]; rewrite Hs; simpl; tauto.
Qed.

Lemma normalize_three_parts_witness :
  normalize_station_number "3-5-7" = Ok "03-05-07-01"
  /\ normalize_station_number " 3 - 57 - 5 " = Ok "03-57-05-01"
  /\ normalize_station_number "03-157-" = Ok "03-157-00-01"
  /\ normalize_station_number "04-57-15" = Ok "04-57-15".
Proof.
  split; [|split; [|split]].
  - apply (@normalize_three_parts "3-5-7" "3" "5" "7"); reflexivity.
  - apply (@normalize_three_parts " 3 - 57 - 5 " " 3 " " 57 " " 5 ");
      reflexivity.
  - apply (@normalize_three_parts "03-157-" "03" "157" ""); reflexivity.
  - apply (@normalize_three_parts "04-57-15" "04" "57" "15"); reflexivity.
Defined.

(** C4, as stated, fails: ["3-58-22- 1"] splits into four parts, the
    fourth of which is [" 1"], neither ["01"] nor ["1"], yet the result
    is ["03-58-22-01"] and not the input: the code trims each part
    before it compares it. *)
Lemma normalize_four_parts_counterexample :
  four_digits (cleaned_of "3-58-22- 1") = false
  /\ split "-" "3-58-22- 1" = ["3"; "58"; "22"; " 1"]
  /\ str_eqb " 1" "01" || str_eqb " 1" "1" = false
  /\ normalize_station_number "3-58-22- 1" = Ok "03-58-22-01"
  /\ normalize_station_number "3-58-22- 1" <> Ok "3-58-22- 1".
Proof. repeat split. discriminate. Qed.

(** C4, amended. When the four-digit rule does not apply and the input
    splits on ["-"] into exactly four parts (building, aisle, station,
    position), each part is first trimmed of whitespace.  If the trimmed
    building is ["03"] or ["3"] and the trimmed position is ["01"] or
    ["1"], the result is ["03-"], the trimmed aisle zero-padded to two
    characters, ["-"], the trimmed station zero-padded, ["-01"];
    otherwise the result is the input.  Zero-padding is written out as
    for three parts. *)
Theorem normalize_four_parts (s building aisle station position : str) :
  four_digits (cleaned_of s) = false ->
  split "-" s = [building; aisle; station; position] ->
  let pad := fun p : str =>
               match p with
               | [] => "00"
               | [c] => if Ascii.eqb c "+" then "+0" else ["0"%char; c]
               | _ => p
               end in
  normalize_station_number s
  = if (str_eqb (strip building) "03" || str_eqb (strip building) "3")
       && (str_eqb (strip position) "01" || str_eqb (strip position) "1")
    then Ok ("03-" ++ pad (strip aisle) ++ "-" ++ pad (strip station)
                   ++ "-01")
    else Ok s.
Proof.
  intros H4 Hs pad. unfold normalize_station_number, parts_of.
  rewrite H4, Hs. cbn [map length Nat.eqb getitem nth_error bind].
  rewrite (@zfill2_eqb (strip building) "3"),
          (@zfill2_eqb (strip position) "1") by discriminate.
  destruct ((str_eqb (strip building) "03" || str_eqb (strip building) "3")
            && (str_eqb (strip position) "01"
                || str_eqb (strip position) "1"));
    [|reflexivity].
  unfold canonical, pad. cbv beta.
  rewrite (@zfill2_part s aisle), (@zfill2_part s station);
    [reflexivity | |]; rewrite Hs; simpl; tauto.
Qed.

Lemma normalize_four_parts_witness :
  normalize_station_number "3-58-2-1" = Ok "03-58-02-01"
  /\ normalize_station_number " 03 - 8 - 22 - 01 " = Ok "03-08-22-01"
  /\ normalize_station_number "04-58-22-01" = Ok "04-58-22-01"
  /\ normalize_station_number "03-58-22-02" = Ok "03-58-22-02".
Proof.
  split; [|split; [|split]].
  - apply (@normalize_four_parts "3-58-2-1" "3" "58" "2" "1"); reflexivity.
  - apply (@normalize_four_parts " 03 - 8 - 22 - 01 "
             " 03 " " 8 " " 22 " " 01 "); reflexivity.
  - apply (@normalize_four_parts "04-58-22-01" "04" "58" "22" "01");
      reflexivity.
  - apply (@normalize_four_parts "03-58-22-02" "03" "58" "22" "02");
      reflexivity.
Defined.

(** C5. The function raises on no input and returns a string, which is
    the input itself or a canonical string; equal inputs give equal
    results; an input that no rule takes (not four digits, and fewer
    than two or more than four parts, or three parts behind another
    building, or four parts with another building or position) is
    returned as it is. *)
Theorem normalize_total_deterministic :
  (forall s : str,
      exists r : str,
        normalize_station_number s = Ok r
        /\ (r = s \/ exists a st, r = canonical a st))
  /\ (forall s1 s2 : str,
         s1 = s2 -> normalize_station_number s1 = normalize_station_number s2)
  /\ (forall s : str,
         four_digits (cleaned_of s) = false ->
         length (parts_of s) < 2 \/ 4 < length (parts_of s) ->
         normalize_station_number s = Ok s)
  /\ (forall s p0 p1 p2 : str,
         four_digits (cleaned_of s) = false ->
         parts_of s = [p0; p1; p2] ->
         str_eqb p0 "03" || str_eqb p0 "3" = false ->
         normalize_station_number s = Ok s)
  /\ (forall s p0 p1 p2 p3 : str,
         four_digits (cleaned_of s) = false ->
         parts_of s = [p0; p1; p2; p3] ->
         (str_eqb p0 "03" || str_eqb p0 "3")
         && (str_eqb p3 "01" || str_eqb p3 "1") = false ->
         normalize_station_number s = Ok s).
Proof.
  split; [|split; [|split; [|split]]].
  - intros s. destruct (normalize_cases s) as [H | (a & st & _ & _ & H)].
    + exists s. auto.
    + exists (canonical a st). split; [exact H|]. right. now exists a, st.
  - now intros s1 s2 ->.
  - intros s H4 Hl. unfold normalize_station_number. rewrite H4.
    destruct (parts_of s) as [|p0 [|p1 [|p2 [|p3 [|p4 r]]]]];
      simpl in *; try reflexivity; lia.
  - intros s p0 p1 p2 H4 Hs Hb. unfold normalize_station_number.
    rewrite H4, Hs. simpl. now rewrite Hb.
  - intros s p0 p1 p2 p3 H4 Hs Hb. unfold normalize_station_number.
    rewrite H4, Hs. simpl.
    rewrite (@zfill2_eqb p0 "3"), (@zfill2_eqb p3 "1") by discriminate.
    now rewrite Hb.
Qed.

Lemma normalize_total_deterministic_witness :
  normalize_station_number "1-2-3-4-5" = Ok "1-2-3-4-5"
  /\ normalize_station_number "04-58-22-01" = Ok "04-58-22-01".
Proof.
  split.
  - apply normalize_total_deterministic; [reflexivity | right; simpl; lia].
  - apply (proj2 (proj2 (proj2 (proj2 normalize_total_deterministic)))
             "04-58-22-01" "04" "58" "22" "01"); reflexivity.
Defined.

(** C6. Normalising a result again changes nothing; in particular a
    canonical identifier ["03-AA-SS-01"] over decimal digits is
    returned as it is. *)
Theorem normalize_idempotent :
  (forall s : str,
      (r <- normalize_station_number s ;; normalize_station_number r)
      = normalize_station_number s)
  /\ (forall a1 a2 s1 s2 : ascii,
         is_decimal a1 = true -> is_decimal a2 = true ->
         is_decimal s1 = true -> is_decimal s2 = true ->
         normalize_station_number ("03-" ++ [a1; a2] ++ "-" ++ [s1; s2] ++ "-01")
         = Ok ("03-" ++ [a1; a2] ++ "-" ++ [s1; s2] ++ "-01")).
Proof.
  split.
  - intros s. destruct (normalize_cases s) as [H | (a & st & Ha & Hs & H)];
      rewrite H; simpl.
    + exact H.
    + now apply normalize_canonical.
  - intros a1 a2 s1 s2 H1 H2 H3 H4.
    apply (@normalize_canonical [a1; a2] [s1; s2]);
      apply settled_digits; now apply decimal_isdigit_char.
Qed.

Lemma normalize_idempotent_witness :
  normalize_station_number "03-58-22-01" = Ok "03-58-22-01".
Proof.
  apply (proj2 normalize_idempotent "5"%char "8"%char "2"%char "2"%char);
    reflexivity.
Defined.

End Normalize.

(* ------------------------------------------------------------------ *)
(** ** extract_check_digits_from_md *)
(* ------------------------------------------------------------------ *)

Section Extract.

Lemma expect_spec (literal s r : str) :
  expect literal s = Some r <-> s = literal ++ r.
Proof.
  revert s. induction literal as [|c l IH]; intros s; simpl.
  - split; congruence.
  - destruct s as [|x s']; [split; discriminate|].
    destruct (Ascii.eqb_spec x c) as [-> | Hx].
    + rewrite IH. split; congruence.
    + split; [discriminate | congruence].
Qed.

Lemma two_decimals_spec (s d r : str) :
  two_decimals s = Some (d, r) <->
  exists a b,
    d = [a; b] /\ is_decimal a = true /\ is_decimal b = true /\ s = d ++ r.
Proof.
  unfold two_decimals. split.
  - destruct s as [|a [|b rest]]; try discriminate.
    destruct (is_decimal a) eqn:Ea, (is_decimal b) eqn:Eb;
      try discriminate.
    intros H. injection H as <- <-. now exists a, b.
  - intros (a & b & -> & Ha & Hb & ->). simpl. now rewrite Ha, Hb.
Qed.

Lemma expect_app (literal r : str) : expect literal (literal ++ r) = Some r.
Proof. now apply expect_spec. Qed.

Lemma two_decimals_app (a b : ascii) (r : str) :
  is_decimal a = true -> is_decimal b = true ->
  two_decimals ([a; b] ++ r) = Some ([a; b], r).
Proof. intros Ha Hb. simpl. now rewrite Ha, Hb. Qed.

Lemma take_decimals_all (s : str) :
  forallb is_decimal (take_decimals s) = true.
Proof.
  induction s as [|c r IH]; simpl; [reflexivity|].
  destruct (is_decimal c) eqn:E; simpl; [|reflexivity].
  now rewrite E.
Qed.

Lemma take_decimals_split (s : str) :
  exists rest,
    s = take_decimals s ++ rest
    /\ match rest with
       | [] => True
       | c :: _ => is_decimal c = false
       end.
Proof.
  induction s as [|c r (rest & E & H)]; simpl.
  - now exists [].
  - destruct (is_decimal c) eqn:Ec.
    + exists rest. simpl. now rewrite <- E.
    + now exists (c :: r).
Qed.

Lemma take_decimals_app (cd rest : str) :
  forallb is_decimal cd = true ->
  match rest with
  | [] => True
  | c :: _ => is_decimal c = false
  end ->
  take_decimals (cd ++ rest) = cd.
Proof.
  intros Hcd Hrest. induction cd as [|c cd IH]; simpl.
  - destruct rest as [|c r]; simpl; [reflexivity | now rewrite Hrest].
  - simpl in Hcd. apply andb_true_iff in Hcd as [Hc Hcd].
    now rewrite Hc, IH.
Qed.

Lemma match_line_spec (line k cd : str) :
  match_line line = Some (k, cd) <-> check_digit_line line k cd.
Proof.
  unfold match_line, check_digit_line. split.
  - destruct (expect "03-" line) as [r1|] eqn:E1; [|discriminate].
    destruct (two_decimals r1) as [[aisle r2]|] eqn:E2; [|discriminate].
    destruct (expect "-" r2) as [r3|] eqn:E3; [|discriminate].
    destruct (two_decimals r3) as [[station r4]|] eqn:E4; [|discriminate].
    destruct (expect "-01" r4) as [r5|] eqn:E5; [|discriminate].
    destruct (expect "--" r5) as [r6|] eqn:E6; [|discriminate].
    destruct (take_decimals r6) as [|c digits] eqn:E7; [discriminate|].
    intros H. injection H as <- <-.
    apply expect_spec in E1, E3, E5, E6.
    apply two_decimals_spec in E2 as (a1 & a2 & -> & Ha1 & Ha2 & E2).
    apply two_decimals_spec in E4 as (s1 & s2 & -> & Hs1 & Hs2 & E4).
    destruct (take_decimals_split r6) as (rest & Er & Hrest).
    exists a1, a2, s1, s2, rest.
    repeat split; try assumption.
    + discriminate.
    + rewrite <- E7. apply take_decimals_all.
    + subst. rewrite E7 in Er. rewrite Er. reflexivity.
  - intros (a1 & a2 & s1 & s2 & rest & Ha1 & Ha2 & Hs1 & Hs2 & -> & Hne
            & Hcd & Hrest & ->).
    rewrite <- !app_assoc.
    rewrite expect_app, two_decimals_app by assumption.
    rewrite expect_app, two_decimals_app by assumption.
    rewrite !expect_app, take_decimals_app by assumption.
    destruct cd; [contradiction | reflexivity].
Qed.

Lemma findall_spec (content k cd : str) :
  In (k, cd) (findall content) <->
  exists line, In line (split newline content) /\ check_digit_line line k cd.
Proof.
  unfold findall. rewrite in_flat_map. split.
  - intros (line & Hl & H). exists line. split; [exact Hl|].
    apply match_line_spec.
    destruct (match_line line) as [m|]; [|contradiction].
    destruct H as [-> | []]. reflexivity.
  - intros (line & Hl & H). exists line. split; [exact Hl|].
    apply match_line_spec in H. rewrite H. now left.
Qed.

Lemma extracted_digits_are_matches (content : str)
      (station_data : list (str * str)) :
  extract_check_digits_from_md (Some content) = Some station_data ->
  station_data = findall content.
Proof.
  unfold extract_check_digits_from_md.
  destruct (findall content); [discriminate | congruence].
Qed.

(** C10, as stated, fails: a line with three digits after the two
    hyphens gives a check digit of three digits. *)
Lemma check_digit_length_counterexample :
  findall "03-57-01-01--123" = [("03-57-01-01", "123")]
  /\ extract_check_digits_from_md (Some "03-57-01-01--123")
     = Some [("03-57-01-01", "123")]
  /\ ~ length "123" <= 2.
Proof. repeat split. simpl. lia. Qed.

(** C10, amended. Every pair extracted has a check digit that is a
    string of one or more decimal digits, the longest run of digits
    after the two hyphens; a line contributes a pair exactly when it
    starts with ["03-AA-SS-01--"] followed by a digit, so a line that
    does not contributes none. *)
Theorem extracted_check_digits (content : str) :
  (forall k cd,
      In (k, cd) (findall content) ->
      1 <= length cd /\ forallb is_decimal cd = true)
  /\ (forall k cd,
         In (k, cd) (findall content) <->
         exists line,
           In line (split newline content) /\ check_digit_line line k cd)
  /\ (forall line, match_line line = None -> forall k cd, ~ check_digit_line line k cd)
  /\ (forall station_data,
         extract_check_digits_from_md (Some content) = Some station_data ->
         station_data = findall content).
Proof.
  split; [|split; [|split]].
  - intros k cd H. apply findall_spec in H as (line & _ & H).
    destruct H as (a1 & a2 & s1 & s2 & rest & _ & _ & _ & _ & _ & Hne
                   & Hcd & _).
    split; [|exact Hcd]. destruct cd; [contradiction | simpl; lia].
  - intros k cd. apply findall_spec.
  - intros line H k cd Hs. apply match_line_spec in Hs. congruence.
  - intros sd. apply extracted_digits_are_matches.
Qed.

Lemma extracted_check_digits_witness :
  1 <= length "7" /\ forallb is_decimal "7" = true.
Proof.
  apply (proj1 (extracted_check_digits "## District
03-57-03-01--7 x") "03-57-03-01" "7").
  vm_compute. now left.
Defined.

End Extract.

(* ------------------------------------------------------------------ *)
(** ** update_android_csv *)
(* ------------------------------------------------------------------ *)

Section Update.

Lemma cell_lt_asym (a b : cell) :
  cell_lt a b = Ok true -> cell_lt b a = Ok false.
Proof.
  destruct a as [x|], b as [y|]; simpl; try discriminate.
  intros H. injection H as H. now rewrite (str_ltb_asym _ _ H).
Qed.

Lemma item_lt_asym (a b : cell * cell) :
  item_lt a b = Ok true -> item_lt b a = Ok false.
Proof.
  unfold item_lt.
  rewrite (cell_eqb_sym (fst b) (fst a)), (cell_eqb_sym (snd b) (snd a)).
  destruct (cell_eqb (fst a) (fst b)).
  - destruct (cell_eqb (snd a) (snd b)); [discriminate|].
    apply cell_lt_asym.
  - apply cell_lt_asym.
Qed.

(** *** Reading the table *)

Lemma foldM_nodup (A : Type) (f : dict cell cell -> A -> result (dict cell cell))
      (l : list A) (d r : dict cell cell) :
  (forall d a d', f d a = Ok d' ->
                  NoDup (dict_keys d) -> NoDup (dict_keys d')) ->
  foldM f l d = Ok r -> NoDup (dict_keys d) -> NoDup (dict_keys r).
Proof.
  intros Hf. revert d. induction l as [|a l IH]; simpl; intros d.
  - intros H. now injection H as <-.
  - destruct (f d a) as [d'|] eqn:E; simpl; [|discriminate].
    intros H Hd. apply (IH d'); [exact H|]. now apply (Hf d a).
Qed.

Lemma read_existing_nodup (csv : file table) (d : dict cell cell) :
  read_existing csv = Ok d -> NoDup (dict_keys d).
Proof.
  unfold read_existing. destruct csv as [t|].
  - intros H. apply foldM_nodup in H; [exact H | | constructor].
    intros d0 [fieldnames r] d'.
    destruct (record_getitem "check_digit" fieldnames r) as [c|];
      simpl; [|discriminate].
    destruct (record_getitem "station_number" fieldnames r) as [k|];
      simpl; [|discriminate].
    intros E. injection E as <-.
    apply dict_set_nodup. exact cell_eqb_eq.
  - intros H. injection H as <-. constructor.
Qed.

(** *** The merge *)

Lemma merge_step_data (st : merge_state) (e : str * str) :
  existing_data (merge_step st e)
  = dict_set cell_eqb (Some (fst e)) (Some (snd e)) (existing_data st).
Proof.
  unfold merge_step. destruct e as [station check_digit]. simpl.
  now destruct (dict_get cell_eqb (Some station) (existing_data st)).
Qed.

Lemma merged_keys (station_data : list (str * str)) (st : merge_state)
      (c : cell) :
  In c (dict_keys (existing_data (fold_left merge_step station_data st)))
  <-> In c (dict_keys (existing_data st))
      \/ In c (map (fun e => Some (fst e)) station_data).
Proof.
  revert st. induction station_data as [|e l IH]; intros st; simpl.
  - tauto.
  - rewrite IH, merge_step_data.
    rewrite (@dict_keys_set _ _ cell_eqb cell_eqb_eq). intuition congruence.
Qed.

Lemma merged_nodup (station_data : list (str * str)) (st : merge_state) :
  NoDup (dict_keys (existing_data st)) ->
  NoDup (dict_keys (existing_data (fold_left merge_step station_data st))).
Proof.
  revert st. induction station_data as [|e l IH]; intros st; simpl.
  - tauto.
  - intros H. apply IH. rewrite merge_step_data.
    apply dict_set_nodup; [exact cell_eqb_eq | exact H].
Qed.

Lemma merged_untouched (station_data : list (str * str)) (st : merge_state)
      (k : str) :
  ~ In k (map fst station_data) ->
  dict_get cell_eqb (Some k) (existing_data (fold_left merge_step station_data st))
  = dict_get cell_eqb (Some k) (existing_data st).
Proof.
  revert st. induction station_data as [|e l IH]; intros st; simpl.
  - reflexivity.
  - intros H. rewrite IH by tauto. rewrite merge_step_data.
    apply (@dict_get_set_other _ _ cell_eqb cell_eqb_eq). intros E. injection E as E.
    apply H. now left.
Qed.

Lemma merged_last (station_data : list (str * str)) (st : merge_state)
      (k v : str) :
  last_entry station_data k v ->
  dict_get cell_eqb (Some k) (existing_data (fold_left merge_step station_data st))
  = Some (Some v).
Proof.
  intros (before & after & -> & Hafter).
  rewrite fold_left_app. cbn [fold_left].
  rewrite merged_untouched by exact Hafter.
  rewrite merge_step_data. apply (@dict_get_set_same _ _ cell_eqb cell_eqb_eq).
Qed.

Lemma str_eq_dec (a b : str) : {a = b} + {a <> b}.
Proof. apply list_eq_dec, ascii_dec. Defined.

Lemma entry_has_last (station_data : list (str * str)) (k : str) :
  In k (map fst station_data) -> exists v, last_entry station_data k v.
Proof.
  intros H.
  apply (@last_occurrence str str k station_data str_eq_dec) in H
    as (before & v & after & E & Hafter).
  exists v, before, after. now split.
Qed.

Lemma last_entry_in (station_data : list (str * str)) (k v : str) :
  last_entry station_data k v -> In (k, v) station_data.
Proof.
  intros (before & after & -> & _). apply in_elt.
Qed.

(** *** Sorting the items *)

Lemma sorted_items_defined (l : dict cell cell) :
  NoDup (dict_keys l) ->
  (forall it, In it l -> fst it <> None) ->
  exists r, sorted item_lt l = Ok r.
Proof.
  unfold dict_keys. induction l as [|x l IH]; simpl; intros Hn Hs.
  - now exists [].
  - inversion Hn as [|? ? Hx Hl]; subst.
    destruct IH as [r Hr]; [exact Hl | intros; apply Hs; now right |].
    rewrite Hr. simpl. apply insert_sorted_defined.
    intros y Hy. apply (Permutation_in _ (Permutation_sym (sorted_perm _ _ Hr))) in Hy.
    assert (Hk : fst y <> fst x).
    { intros E. apply Hx. rewrite <- E. now apply in_map. }
    unfold item_lt. apply cell_eqb_neq in Hk. rewrite Hk.
    destruct (fst y) as [ky|] eqn:Ey.
    + destruct (fst x) as [kx|] eqn:Ex.
      * simpl. eauto.
      * exfalso. apply (Hs x); [now left | exact Ex].
    + exfalso. apply (Hs y); [now right | exact Ey].
Qed.

Lemma sorted_items_strict (r : dict cell cell) :
  Sorted (not_above item_lt) r ->
  NoDup (dict_keys r) ->
  Sorted (fun a b =>
            str_ltb (written_field (fst a)) (written_field (fst b)) = true)
         r.
Proof.
  unfold dict_keys. induction 1 as [|a r Hs IH Hh]; intros Hn.
  - constructor.
  - simpl in Hn. inversion Hn as [|? ? Ha Hr]; subst.
    constructor; [now apply IH|].
    destruct Hh as [|b r Hab]; constructor.
    assert (Hk : fst b <> fst a).
    { intros E. apply Ha. rewrite <- E. simpl. now left. }
    unfold not_above, item_lt in Hab.
    apply cell_eqb_neq in Hk. rewrite Hk in Hab.
    destruct (fst b) as [kb|], (fst a) as [ka|]; simpl in *;
      try discriminate.
    injection Hab as Hab.
    destruct (str_ltb ka kb) eqn:E; [reflexivity|].
    apply str_eqb_neq in Hk. exfalso. apply Hk.
    symmetry. now apply str_ltb_total.
Qed.

Lemma strictly_ascending (records : table) :
  Sorted (fun r1 r2 =>
            str_ltb (station_number_of r1) (station_number_of r2) = true)
         records ->
  one_record_per_station records /\ ascending records.
Proof.
  intros H. apply Sorted_StronglySorted in H.
  - split.
    + unfold one_record_per_station.
      induction H as [|a l Hs IH Hf]; simpl; constructor; [|exact IH].
      intros Hin. apply in_map_iff in Hin as (b & E & Hb).
      rewrite Forall_forall in Hf. specialize (Hf b Hb). simpl in Hf.
      rewrite E, str_ltb_irrefl in Hf. discriminate.
    + unfold ascending. revert H. apply StronglySorted_weaken.
      intros a b Hab. apply str_leb_iff. now left.
  - intros a b c. apply str_ltb_trans.
Qed.

Lemma written_rows_well_formed (r : dict cell cell) :
  Sorted (not_above item_lt) r ->
  NoDup (dict_keys r) ->
  one_record_per_station (map written_row r)
  /\ ascending (map written_row r).
Proof.
  intros Hs Hn. apply strictly_ascending.
  apply Sorted_map with (f := written_row)
    (R := fun r1 r2 =>
            str_ltb (station_number_of r1) (station_number_of r2) = true).
  now apply sorted_items_strict.
Qed.

(** *** What a call writes *)

Lemma update_android_csv_cases (station_data : list (str * str))
      (csv : file table) (t : table) (b : bool) :
  update_android_csv station_data csv = (Wrote t, b) ->
  (t = [UpdateStationCsv.header] /\ b = false)
  \/ exists d0 r,
      read_existing csv = Ok d0
      /\ sorted item_lt (existing_data (merge station_data d0)) = Ok r
      /\ t = UpdateStationCsv.header :: map written_row r
      /\ b = true.
Proof.
  unfold update_android_csv.
  destruct (read_existing csv) as [d0|]; [|discriminate].
  destruct (sorted item_lt (existing_data (merge station_data d0)))
    as [r|] eqn:E.
  - intros H. injection H as <- <-. right. now exists d0, r.
  - intros H. injection H as <- <-. now left.
Qed.

Lemma update_android_csv_succeeds (station_data : list (str * str))
      (csv : file table) (d0 : dict cell cell) :
  read_existing csv = Ok d0 ->
  (forall c, In c (dict_keys d0) -> c <> None) ->
  exists r,
    sorted item_lt (existing_data (merge station_data d0)) = Ok r
    /\ Permutation (existing_data (merge station_data d0)) r
    /\ NoDup (dict_keys (existing_data (merge station_data d0)))
    /\ update_android_csv station_data csv
       = (Wrote (UpdateStationCsv.header :: map written_row r), true).
Proof.
  intros Hread Hkeys.
  assert (Hn : NoDup (dict_keys (existing_data (merge station_data d0)))).
  { apply merged_nodup. simpl. now apply (read_existing_nodup csv). }
  destruct (@sorted_items_defined (existing_data (merge station_data d0)))
    as [r Hr]; [exact Hn | |].
  - intros it Hit E.
    assert (Hin : In (fst it) (dict_keys (existing_data (merge station_data d0)))).
    { now apply in_map. }
    apply merged_keys in Hin as [Hin | Hin]; simpl in Hin.
    + now apply (Hkeys (fst it)).
    + apply in_map_iff in Hin as (e & He & _). congruence.
  - exists r. repeat split; try assumption.
    + now apply sorted_perm in Hr.
    + unfold update_android_csv. now rewrite Hread, Hr.
Qed.

(** *** Reading the table back *)

Lemma normalized_stations_written (h : row) (r : dict cell cell) :
  normalized_stations (h :: map written_row r)
  = Ok (map (fun it => (written_field (fst it),
                        strip (written_field (snd it)))) r).
Proof.
  unfold normalized_stations, station_data. simpl. f_equal.
  induction r as [|it r IH]; simpl; [reflexivity | now rewrite IH].
Qed.

Lemma decimals_stripped (v : str) :
  forallb is_decimal v = true -> strip v = v.
Proof.
  intros H. apply strip_no_space. rewrite forallb_forall in *.
  intros c Hc. apply negb_true_iff.
  now apply isdigit_char_not_space, decimal_isdigit_char, H.
Qed.

Lemma fresh_items (station_data : list (str * str)) (it : cell * cell) :
  In it (existing_data (merge station_data [])) <->
  exists k v, it = (Some k, Some v) /\ last_entry station_data k v.
Proof.
  assert (Hn : NoDup (dict_keys (existing_data (merge station_data [])))).
  { apply merged_nodup. constructor. }
  split.
  - destruct it as [c1 c2]. intros Hin.
    assert (Hk : In c1 (dict_keys (existing_data (merge station_data [])))).
    { apply in_map_iff. now exists (c1, c2). }
    apply merged_keys in Hk as [[] | Hk].
    apply in_map_iff in Hk as (e & <- & He).
    destruct (@entry_has_last station_data (fst e)) as [v Hv].
    { now apply in_map. }
    exists (fst e), v. split; [|exact Hv].
    apply (@dict_in_get _ _ cell_eqb cell_eqb_eq) in Hin; [|exact Hn].
    pose proof (@merged_last station_data (MergeState [] 0 0) _ _ Hv) as Hl.
    unfold merge in *. rewrite Hl in Hin.
    now injection Hin as <-.
  - intros (k & v & -> & Hv).
    apply (@dict_get_in _ _ cell_eqb).
    + exact cell_eqb_eq.
    + exact (@merged_last station_data (MergeState [] 0 0) k v Hv).
Qed.

(** C7, as stated, fails: a document that gives one code two check
    digits yields two pairs, and the table read back holds only the
    later one. *)
Lemma roundtrip_counterexample :
  let content := "03-57-01-01--12
03-57-01-01--34" in
  extract_check_digits_from_md (Some content)
  = Some [("03-57-01-01", "12"); ("03-57-01-01", "34")]
  /\ main (Some content) None
     = (Wrote [["station_number"; "check_digit"]; ["03-57-01-01"; "34"]], 0%Z)
  /\ normalized_stations
       [["station_number"; "check_digit"]; ["03-57-01-01"; "34"]]
     = Ok [("03-57-01-01", "34")]
  /\ ~ In ("03-57-01-01", "12") [("03-57-01-01", "34")].
Proof.
  repeat split. intros [H | []]. discriminate.
Qed.

(** C7, amended. For a document with at least one match and a table
    that holds no record yet, the table written and read back gives
    each extracted code exactly once, with the check digit of its last
    line in the document; when no code has two different check digits
    in the document, the pairs read back are exactly the pairs
    extracted. *)
Theorem roundtrip_last_entry (content : str) (csv : file table)
        (extracted : list (str * str)) :
  extract_check_digits_from_md (Some content) = Some extracted ->
  read_existing csv = Ok [] ->
  exists records parsed,
    main (Some content) csv
    = (Wrote (["station_number"; "check_digit"] :: records), 0%Z)
    /\ normalized_stations (["station_number"; "check_digit"] :: records)
       = Ok parsed
    /\ NoDup (map fst parsed)
    /\ (forall k v, In (k, v) parsed <-> last_entry extracted k v)
    /\ ((forall k v v',
            In (k, v) extracted -> In (k, v') extracted -> v = v') ->
        forall p, In p parsed <-> In p extracted).
Proof.
  intros Hex Hread.
  assert (Hfind : extracted = findall content).
  { now apply extracted_digits_are_matches. }
  destruct (@update_android_csv_succeeds extracted csv [] Hread)
    as (r & Hsorted & Hperm & Hnodup & Hupd); [intros c []|].
  assert (Hdigits : forall k v, In (k, v) extracted -> strip v = v).
  { intros k v Hin. apply decimals_stripped. rewrite Hfind in Hin.
    apply findall_spec in Hin as (line & _ & Hl).
    destruct Hl as (a1 & a2 & s1 & s2 & rest & _ & _ & _ & _ & _ & _
                    & Hcd & _).
    exact Hcd. }
  assert (Hparsed : forall k v,
             In (k, v)
                (map (fun it => (written_field (fst it),
                                 strip (written_field (snd it)))) r)
             <-> last_entry extracted k v).
  { intros k v. rewrite in_map_iff. split.
    - intros (it & E & Hit).
      apply (Permutation_in _ (Permutation_sym Hperm)) in Hit.
      apply fresh_items in Hit as (k' & v' & -> & Hl).
      simpl in E. rewrite (Hdigits k' v') in E by now apply last_entry_in.
      now injection E as <- <-.
    - intros Hl. exists (Some k, Some v). split.
      + simpl. rewrite (Hdigits k v) by now apply last_entry_in.
        reflexivity.
      + apply (Permutation_in _ Hperm). apply fresh_items. now exists k, v. }
  exists (map written_row r),
    (map (fun it => (written_field (fst it),
                     strip (written_field (snd it)))) r).
  split; [|split; [|split; [|split]]].
  - unfold main. rewrite Hex, Hupd. reflexivity.
  - apply normalized_stations_written.
  - rewrite map_map. simpl.
    destruct (@written_rows_well_formed r) as [Hone _].
    + now apply (@sorted_Sorted _ item_lt item_lt_asym) in Hsorted.
    + unfold dict_keys in *.
      apply (Permutation_NoDup (Permutation_map fst Hperm) Hnodup).
    + unfold one_record_per_station in Hone.
      now rewrite map_map in Hone.
  - exact Hparsed.
  - intros Hfun [k v]. rewrite Hparsed. split.
    + apply last_entry_in.
    + intros Hin.
      destruct (@entry_has_last extracted k) as [v' Hv'].
      { apply in_map_iff. now exists (k, v). }
      rewrite (Hfun k v v' Hin (last_entry_in Hv')). exact Hv'.
Qed.

Lemma roundtrip_last_entry_witness :
  exists records parsed,
    main (Some "03-57-01-01--12") None
    = (Wrote (["station_number"; "check_digit"] :: records), 0%Z)
    /\ normalized_stations (["station_number"; "check_digit"] :: records)
       = Ok parsed
    /\ NoDup (map fst parsed)
    /\ (forall k v,
           In (k, v) parsed <-> last_entry [("03-57-01-01", "12")] k v)
    /\ ((forall k v v',
            In (k, v) [("03-57-01-01", "12")] ->
            In (k, v') [("03-57-01-01", "12")] -> v = v') ->
        forall p, In p parsed <-> In p [("03-57-01-01", "12")]).
Proof.
  apply (@roundtrip_last_entry "03-57-01-01--12" None
           [("03-57-01-01", "12")]); reflexivity.
Defined.

(** A record too short to carry a station number gets the key [None];
    with a second record [sorted] cannot order the keys, the call
    returns [False] and the table is left with its header alone. *)
Example update_without_station_number :
  update_android_csv
    [("03-57-01-01", "12")]
    (Some [["check_digit"; "station_number"]; ["9"]])
  = (Wrote [["station_number"; "check_digit"]], false).
Proof. reflexivity. Qed.

Lemma sorted_none_alone (r : dict cell cell) (c : cell) :
  Sorted (not_above item_lt) r ->
  NoDup (dict_keys r) ->
  In (None, c) r -> r = [(None, c)].
Proof.
  unfold dict_keys. induction 1 as [|a r Hs IH Hh]; intros Hn Hin.
  - destruct Hin.
  - simpl in Hn. inversion Hn as [|? ? Ha Hr]; subst.
    destruct Hh as [|b r Hab].
    + destruct Hin as [-> | []]. reflexivity.
    + exfalso.
      assert (Hk : fst b <> fst a).
      { intros E. apply Ha. rewrite <- E. simpl. now left. }
      unfold not_above, item_lt in Hab.
      apply cell_eqb_neq in Hk. rewrite Hk in Hab.
      destruct (fst a) as [ka|] eqn:Ea; [|now destruct (fst b)].
      destruct (fst b) as [kb|] eqn:Eb; [|discriminate].
      destruct Hin as [-> | Hin]; [discriminate|].
      pose proof (IH Hr Hin) as E. injection E as -> _. discriminate.
Qed.

(** C8. Whenever the merge into the existing records succeeds: a code
    that is in the existing table and in the extracted data with
    another check digit has, in the table written, one record, which
    carries the extracted (later applied) check digit; and the number
    of records written is the number of distinct codes of the two
    sources together.  The merge does succeed when every existing
    record carries a station number. *)
Theorem merge_last_write_wins (station_data : list (str * str))
        (csv : file table) (d0 : dict cell cell) :
  read_existing csv = Ok d0 ->
  (forall t : table,
      update_android_csv station_data csv = (Wrote t, true) ->
      exists records,
        t = ["station_number"; "check_digit"] :: records
        /\ (forall k old v,
               dict_get cell_eqb (Some k) d0 = Some old ->
               last_entry station_data k v ->
               old <> Some v ->
               In [k; v] records
               /\ forall v', In [k; v'] records -> v' = v)
        /\ length records
           = length (nodup cell_eq_dec
                           (dict_keys d0
                            ++ map (fun e => Some (fst e)) station_data)))
  /\ ((forall c, In c (dict_keys d0) -> c <> None) ->
      exists t, update_android_csv station_data csv = (Wrote t, true)).
Proof.
  intros Hread. split.
  - intros t Hupd. unfold update_android_csv in Hupd. rewrite Hread in Hupd.
    destruct (sorted item_lt (existing_data (merge station_data d0)))
      as [r|] eqn:Hsorted; [|discriminate].
    injection Hupd as <-.
    pose proof (sorted_perm _ _ Hsorted) as Hperm.
    assert (Hnodup : NoDup (dict_keys (existing_data (merge station_data d0)))).
    { apply merged_nodup. simpl. now apply (read_existing_nodup csv). }
    assert (Hnodup' : NoDup (dict_keys r)).
    { exact (Permutation_NoDup (Permutation_map fst Hperm) Hnodup). }
    apply (@sorted_Sorted _ item_lt item_lt_asym) in Hsorted.
    exists (map written_row r). split; [reflexivity | split].
    + intros k old v _ Hlast _.
      pose proof (@merged_last station_data (MergeState d0 0 0) k v Hlast)
        as Hget.
      assert (Hkv : In (Some k, Some v) r).
      { apply (Permutation_in _ Hperm).
        apply (@dict_get_in _ _ cell_eqb); [exact cell_eqb_eq | exact Hget]. }
      split.
      * apply in_map_iff. now exists (Some k, Some v).
      * intros v' Hin. apply in_map_iff in Hin as ([c1 c2] & E & Hit).
        unfold written_row in E. simpl in E.
        destruct c1 as [k1|].
        -- simpl in E. injection E as -> E.
           apply (Permutation_in _ (Permutation_sym Hperm)) in Hit.
           apply (@dict_in_get _ _ cell_eqb cell_eqb_eq) in Hit;
             [|exact Hnodup].
           unfold merge in *. rewrite Hget in Hit.
           injection Hit as <-. now simpl in E.
        -- rewrite (@sorted_none_alone r c2 Hsorted Hnodup' Hit) in Hkv.
           destruct Hkv as [Hkv | []]. discriminate.
    + rewrite length_map, <- (Permutation_length Hperm).
      rewrite <- (length_map fst).
      apply Permutation_length, NoDup_Permutation.
      * exact Hnodup.
      * apply NoDup_nodup.
      * intros c. rewrite nodup_In, in_app_iff. apply merged_keys.
  - intros Hkeys.
    destruct (@update_android_csv_succeeds station_data csv d0 Hread Hkeys)
      as (r & _ & _ & _ & Hupd).
    now exists (UpdateStationCsv.header :: map written_row r).
Qed.

Lemma merge_last_write_wins_witness :
  let station_data := [("03-57-03-01", "7")] in
  let csv := Some [["station_number"; "check_digit"];
                   ["03-57-03-01"; "8"]; ["03-58-01-01"; "9"]] in
  let d0 := [(Some "03-57-03-01", Some "8");
             (Some "03-58-01-01", Some "9")] in
  read_existing csv = Ok d0
  /\ update_android_csv station_data csv
     = (Wrote [["station_number"; "check_digit"];
               ["03-57-03-01"; "7"]; ["03-58-01-01"; "9"]], true)
  /\ (forall t : table,
         update_android_csv station_data csv = (Wrote t, true) ->
         exists records,
           t = ["station_number"; "check_digit"] :: records
           /\ (forall k old v,
                  dict_get cell_eqb (Some k) d0 = Some old ->
                  last_entry station_data k v ->
                  old <> Some v ->
                  In [k; v] records
                  /\ forall v', In [k; v'] records -> v' = v)
           /\ length records
              = length (nodup cell_eq_dec
                              (dict_keys d0
                               ++ map (fun e => Some (fst e)) station_data))).
Proof.
  split; [reflexivity | split; [reflexivity|]].
  apply (@merge_last_write_wins
           [("03-57-03-01", "7")]
           (Some [["station_number"; "check_digit"];
                  ["03-57-03-01"; "8"]; ["03-58-01-01"; "9"]])
           [(Some "03-57-03-01", Some "8"); (Some "03-58-01-01", Some "9")]).
  reflexivity.
Defined.

End Update.

(* ------------------------------------------------------------------ *)
(** ** The tables written *)
(* ------------------------------------------------------------------ *)

Section Tables.

Lemma by_first_asym (a b : str * row) :
  by_first a b = Ok true -> by_first b a = Ok false.
Proof.
  unfold by_first. intros H. injection H as H.
  now rewrite (str_ltb_asym _ _ H).
Qed.

Lemma keyed_first (all_data : table) (keyed : list (str * row)) :
  mapM (fun x : row => k <- getitem x 0 ;; Ok (k, x)) all_data = Ok keyed ->
  Forall (fun kx => station_number_of (snd kx) = fst kx) keyed
  /\ map snd keyed = all_data.
Proof.
  revert keyed. induction all_data as [|x l IH]; simpl; intros keyed.
  - intros H. injection H as <-. now split.
  - destruct x as [|k rest]; simpl; [discriminate|].
    destruct (mapM (fun x : row => k <- getitem x 0 ;; Ok (k, x)) l)
      as [keyed'|]; simpl; [|discriminate].
    intros H. injection H as <-.
    destruct (IH keyed' eq_refl) as [Hf Hm].
    split; [now constructor | simpl; now rewrite Hm].
Qed.

Lemma sort_by_first_ascending (all_data rows : table) :
  sort_by_first all_data = Ok rows ->
  ascending rows /\ Permutation all_data rows.
Proof.
  unfold sort_by_first.
  destruct (mapM (fun x : row => k <- getitem x 0 ;; Ok (k, x)) all_data)
    as [keyed|] eqn:Ek; simpl; [|discriminate].
  destruct (sorted by_first keyed) as [r|] eqn:Es; simpl; [|discriminate].
  intros H. injection H as <-.
  apply keyed_first in Ek as [Hf Hm].
  pose proof (sorted_perm _ _ Es) as Hperm.
  split.
  - apply (@sorted_Sorted _ by_first by_first_asym) in Es.
    apply Sorted_weaken
      with (R' := fun a b : str * row => str_leb (fst a) (fst b) = true)
      in Es.
    + apply Sorted_StronglySorted in Es.
      * unfold ascending. revert Es.
        apply StronglySorted_map_in
          with (P := fun kx => station_number_of (snd kx) = fst kx).
        -- intros a b Ha Hb. now rewrite Ha, Hb.
        -- now apply (Permutation_Forall Hperm).
      * intros a b c. apply str_leb_trans.
    + intros a b Hab. unfold not_above, by_first in Hab.
      injection Hab as Hab. unfold str_leb. now rewrite Hab.
  - rewrite <- Hm. now apply Permutation_map.
Qed.

(** C9, as stated, fails for [add_aisle_to_csv]: adding an aisle that
    the table already holds writes its stations a second time. *)
Lemma add_aisle_duplicates_counterexample :
  add_aisle_to_csv 59 [Some 17%Z] None
  = Ok [["station_number"; "check_digit"]; ["59-01"; "17"]]
  /\ add_aisle_to_csv 59 [Some 23%Z]
       (Some [["station_number"; "check_digit"]; ["59-01"; "17"]])
     = Ok [["station_number"; "check_digit"];
           ["59-01"; "17"]; ["59-01"; "23"]]
  /\ ~ one_record_per_station [["59-01"; "17"]; ["59-01"; "23"]].
Proof.
  repeat split. unfold one_record_per_station. simpl.
  intros H. inversion H as [|? ? Hn _]. apply Hn. now left.
Qed.

(** C9, amended. Every table written by [update_android_csv] starts
    with the header row, holds at most one record per station number
    and has its records in ascending order of station number; every
    table written by [add_aisle_to_csv] starts with the header row and
    has its records, the old ones and the new ones together, in
    ascending order of station number. *)
Theorem written_tables_well_formed :
  (forall (station_data : list (str * str)) (csv : file table)
          (t : table) (b : bool),
      update_android_csv station_data csv = (Wrote t, b) ->
      exists records,
        t = ["station_number"; "check_digit"] :: records
        /\ one_record_per_station records
        /\ ascending records)
  /\ (forall (aisle_number : Z) (check_digits : list (option Z))
             (csv : file table) (t : table),
         add_aisle_to_csv aisle_number check_digits csv = Ok t ->
         exists records,
           t = ["station_number"; "check_digit"] :: records
           /\ ascending records).
Proof.
  split.
  - intros station_data csv t b H.
    apply update_android_csv_cases in H
      as [[-> _] | (d0 & r & Hread & Hsorted & -> & _)].
    + exists []. repeat split; constructor.
    + exists (map written_row r). split; [reflexivity|].
      apply written_rows_well_formed.
      * now apply (@sorted_Sorted _ item_lt item_lt_asym) in Hsorted.
      * apply sorted_perm in Hsorted.
        apply (Permutation_NoDup (Permutation_map fst Hsorted)).
        apply merged_nodup. simpl. now apply (read_existing_nodup csv).
  - intros aisle_number check_digits csv t. unfold add_aisle_to_csv.
    cbv zeta.
    match goal with
    | |- bind ?m _ = _ -> _ => destruct m as [rows|] eqn:E
    end; simpl; [|discriminate].
    intros H. injection H as <-. exists rows. split; [reflexivity|].
    now apply sort_by_first_ascending in E.
Qed.

Lemma written_tables_well_formed_witness :
  (exists records,
      [["station_number"; "check_digit"];
       ["03-57-01-01"; "12"]; ["03-58-01-01"; "9"]]
      = ["station_number"; "check_digit"] :: records
      /\ one_record_per_station records
      /\ ascending records)
  /\ (exists records,
         [["station_number"; "check_digit"];
          ["59-01"; "17"]; ["59-01"; "23"]]
         = ["station_number"; "check_digit"] :: records
         /\ ascending records).
Proof.
  split.
  - apply (proj1 written_tables_well_formed
             [("03-57-01-01", "12")]
             (Some [["station_number"; "check_digit"];
                    ["03-58-01-01"; "9"]])
             _ true).
    reflexivity.
  - apply (proj2 written_tables_well_formed
             59%Z [Some 23%Z]
             (Some [["station_number"; "check_digit"]; ["59-01"; "17"]])).
    reflexivity.
Defined.

End Tables.


(* ------------------------------------------------------------------ *)
(** ** The notations of one station *)
(* ------------------------------------------------------------------ *)

Section Notations.

Lemma decimal_cases (c : ascii) :
  is_decimal c = true ->
  In c ["0"; "1"; "2"; "3"; "4"; "5"; "6"; "7"; "8"; "9"]%char.
Proof.
  destruct c as [[] [] [] [] [] [] [] []]; vm_compute; intros H;
    try discriminate; tauto.
Qed.

(** The compact, the two-part, the three-part and the four-part notation
    of a station, with the building and the position short or padded,
    all give the key ["03-AA-SS-01"]. *)
Theorem notations_agree (a1 a2 s1 s2 : ascii) :
  is_decimal a1 = true -> is_decimal a2 = true ->
  is_decimal s1 = true -> is_decimal s2 = true ->
  let aisle := [a1; a2] in
  let station := [s1; s2] in
  let key := "03-" ++ aisle ++ "-" ++ station ++ "-01" in
  Forall (fun notation => normalize_station_number notation = Ok key)
         [aisle ++ station;
          aisle ++ "-" ++ station;
          "3-" ++ aisle ++ "-" ++ station;
          "03-" ++ aisle ++ "-" ++ station;
          "3-" ++ aisle ++ "-" ++ station ++ "-1";
          "3-" ++ aisle ++ "-" ++ station ++ "-01";
          "03-" ++ aisle ++ "-" ++ station ++ "-1";
          "03-" ++ aisle ++ "-" ++ station ++ "-01"].
Proof.
  intros H1 H2 H3 H4.
  pose (agree := fun a1 a2 s1 s2 : ascii =>
    let aisle := [a1; a2] in
    let station := [s1; s2] in
    let key := "03-" ++ aisle ++ "-" ++ station ++ "-01" in
    forallb (fun notation =>
               match normalize_station_number notation with
               | Ok r => str_eqb r key
               | Raise _ => false
               end)
            [aisle ++ station;
             aisle ++ "-" ++ station;
             "3-" ++ aisle ++ "-" ++ station;
             "03-" ++ aisle ++ "-" ++ station;
             "3-" ++ aisle ++ "-" ++ station ++ "-1";
             "3-" ++ aisle ++ "-" ++ station ++ "-01";
             "03-" ++ aisle ++ "-" ++ station ++ "-1";
             "03-" ++ aisle ++ "-" ++ station ++ "-01"]).
  pose (digits := ["0"; "1"; "2"; "3"; "4"; "5"; "6"; "7"; "8"; "9"]%char).
  assert (Hall : forallb (fun a1 => forallb (fun a2 => forallb (fun s1 =>
                   forallb (fun s2 => agree a1 a2 s1 s2) digits) digits)
                   digits) digits = true) by (vm_compute; reflexivity).
  rewrite forallb_forall in Hall.
  specialize (Hall a1 (decimal_cases _ H1)). rewrite forallb_forall in Hall.
  specialize (Hall a2 (decimal_cases _ H2)). rewrite forallb_forall in Hall.
  specialize (Hall s1 (decimal_cases _ H3)). rewrite forallb_forall in Hall.
  specialize (Hall s2 (decimal_cases _ H4)).
  unfold agree in Hall. cbv zeta in *.
  rewrite forallb_forall in Hall. apply Forall_forall.
  intros notation Hin. specialize (Hall notation Hin).
  destruct (normalize_station_number notation) as [r|]; [|discriminate].
  apply str_eqb_eq in Hall. now subst.
Qed.

Lemma notations_agree_witness :
  Forall (fun notation => normalize_station_number notation = Ok "03-40-15-01")
         ["4015"; "40-15"; "3-40-15"; "03-40-15"; "3-40-15-1"; "3-40-15-01";
          "03-40-15-1"; "03-40-15-01"].
Proof.
  apply (@notations_agree "4" "0" "1" "5"); reflexivity.
Defined.

End Notations.

(* ------------------------------------------------------------------ *)
(** ** More on update_android_csv *)
(* ------------------------------------------------------------------ *)

Section UpdateMore.

Lemma dict_set_length_present (k v : cell) (d : dict cell cell) (old : cell) :
  dict_get cell_eqb k d = Some old ->
  length (dict_set cell_eqb k v d) = length d.
Proof.
  induction d as [|[k0 v0] d IH]; simpl; [discriminate|].
  destruct (cell_eqb k0 k); simpl; [reflexivity|].
  intros H. now rewrite IH.
Qed.

Lemma dict_set_length_absent (k v : cell) (d : dict cell cell) :
  dict_get cell_eqb k d = None ->
  length (dict_set cell_eqb k v d) = S (length d).
Proof.
  induction d as [|[k0 v0] d IH]; simpl; [reflexivity|].
  destruct (cell_eqb k0 k); simpl; [discriminate|].
  intros H. now rewrite IH.
Qed.

Lemma merge_step_counts (st : merge_state) (e : str * str) :
  length (existing_data (merge_step st e)) + new_count st
  = length (existing_data st) + new_count (merge_step st e)
  /\ new_count (merge_step st e) + updated_count (merge_step st e)
     <= S (new_count st + updated_count st).
Proof.
  unfold merge_step. destruct e as [station check_digit].
  destruct (dict_get cell_eqb (Some station) (existing_data st))
    as [old|] eqn:E; simpl.
  - erewrite dict_set_length_present by exact E.
    destruct (cell_eqb old (Some check_digit)); lia.
  - rewrite dict_set_length_absent by exact E. lia.
Qed.

Lemma merge_counts (station_data : list (str * str)) (st : merge_state) :
  let st' := fold_left merge_step station_data st in
  length (existing_data st') + new_count st
  = length (existing_data st) + new_count st'
  /\ new_count st' + updated_count st'
     <= length station_data + (new_count st + updated_count st).
Proof.
  revert st. induction station_data as [|e l IH]; intros st; simpl.
  - lia.
  - destruct (IH (merge_step st e)) as [H1 H2].
    destruct (merge_step_counts st e) as [H3 H4].
    simpl in H1, H2. lia.
Qed.

(** The totals the merge reports agree: the dictionary has grown by the
    number of stations counted as new, and no entry of the extracted
    data is counted twice, as new and as updated. *)
Theorem merge_totals (station_data : list (str * str)) (d : dict cell cell) :
  let st := merge station_data d in
  length (existing_data st) = length d + new_count st
  /\ new_count st + updated_count st <= length station_data.
Proof.
  destruct (merge_counts station_data (MergeState d 0 0)) as [H1 H2].
  simpl in *. unfold merge. lia.
Qed.

(** *** A table that cannot be read *)

Lemma record_get_none (key : str) (fieldnames r : row) :
  record_get key fieldnames r = None <-> ~ In key fieldnames.
Proof.
  revert r. induction fieldnames as [|f fs IH]; intros r; simpl.
  - tauto.
  - destruct (record_get key fs (tl r)) as [c|] eqn:E.
    + split; [discriminate|].
      intros H. exfalso.
      assert (Hn : record_get key fs (tl r) = None) by (apply IH; tauto).
      congruence.
    + apply IH in E. destruct (str_eqb f key) eqn:Ef.
      * apply str_eqb_eq in Ef. split; [discriminate | tauto].
      * apply str_eqb_neq in Ef. tauto.
Qed.

Lemma foldM_raises (A S : Type) (f : S -> A -> result S) (l : list A) (s : S) :
  l <> [] -> (forall s a, In a l -> exists e, f s a = Raise e) ->
  exists e, foldM f l s = Raise e.
Proof.
  destruct l as [|a l]; [congruence|]. intros _ H. simpl.
  destruct (H s a) as [e He]; [now left|]. rewrite He. now exists e.
Qed.

Lemma foldM_total (A S : Type) (f : S -> A -> result S) (l : list A) (s : S) :
  (forall s a, In a l -> exists s', f s a = Ok s') ->
  exists s', foldM f l s = Ok s'.
Proof.
  revert s. induction l as [|a l IH]; intros s H; simpl.
  - now exists s.
  - destruct (H s a) as [s' Hs]; [now left|]. rewrite Hs. simpl.
    apply IH. intros s0 a0 Ha. apply H. now right.
Qed.

(** The call leaves the table as it was exactly when the table has a
    record and its first row does not name both columns; the call then
    returns [False]. *)
Theorem update_untouched (station_data : list (str * str)) (csv : file table) :
  (fst (update_android_csv station_data csv) = Untouched <->
   exists fieldnames rows,
     csv = Some (fieldnames :: rows)
     /\ (exists r, In r rows /\ r <> [])
     /\ (~ In "station_number" fieldnames \/ ~ In "check_digit" fieldnames))
  /\ (fst (update_android_csv station_data csv) = Untouched ->
      snd (update_android_csv station_data csv) = false).
Proof.
  assert (Hcases : fst (update_android_csv station_data csv) = Untouched
                   <-> exists e, read_existing csv = Raise e).
  { unfold update_android_csv. destruct (read_existing csv) as [d|e].
    - destruct (sorted item_lt (existing_data (merge station_data d)));
        simpl; split; try discriminate; intros [e' H]; discriminate.
    - simpl. split; eauto. }
  split.
  - rewrite Hcases. unfold read_existing. split.
    + destruct csv as [[|fieldnames rows]|];
        try (intros [e H]; discriminate).
      intros [e H]. exists fieldnames, rows. split; [reflexivity|].
      assert (Hne : exists r, In r rows /\ r <> []).
      { destruct (filter (fun r => negb (is_blank r)) rows) as [|r l] eqn:E.
        - simpl in H. rewrite E in H. discriminate.
        - exists r. assert (Hr : In r (filter (fun r => negb (is_blank r)) rows))
            by (rewrite E; now left).
          apply filter_In in Hr as [Hr Hb]. split; [exact Hr|].
          now destruct r. }
      split; [exact Hne|].
      destruct (in_dec str_eq_dec "station_number" fieldnames) as [Hs|Hs];
        [|now left].
      destruct (in_dec str_eq_dec "check_digit" fieldnames) as [Hc|Hc];
        [|now right].
      exfalso.
      destruct (@foldM_total _ _
                  (fun existing_data (fr : row * row) =>
                     let (fieldnames, r) := fr in
                     check_digit <- record_getitem "check_digit" fieldnames r ;;
                     station <- record_getitem "station_number" fieldnames r ;;
                     Ok (dict_set cell_eqb station check_digit existing_data))
                  (dictreader (fieldnames :: rows)) []) as [d Hd].
      * intros s [f r] Hin. simpl in Hin.
        apply in_map_iff in Hin as (r' & Er & _). injection Er as <- <-.
        unfold record_getitem.
        destruct (record_get "check_digit" fieldnames r') as [c|] eqn:Ec;
          [|apply record_get_none in Ec; contradiction].
        destruct (record_get "station_number" fieldnames r') as [k|] eqn:Ek;
          [|apply record_get_none in Ek; contradiction].
        simpl. eauto.
      * rewrite Hd in H. discriminate.
    + intros (fieldnames & rows & -> & (r & Hr & Hne) & Hmiss).
      apply foldM_raises.
      * simpl. intros E.
        assert (Hin : In (fieldnames, r)
                         (map (pair fieldnames)
                              (filter (fun r => negb (is_blank r)) rows))).
        { apply in_map, filter_In. split; [exact Hr | now destruct r]. }
        rewrite E in Hin. destruct Hin.
      * intros s [f r'] Hin. simpl in Hin.
        apply in_map_iff in Hin as (r'' & Er & _). injection Er as <- <-.
        unfold record_getitem.
        destruct (record_get "check_digit" fieldnames r'') as [c|] eqn:Ec;
          simpl; [|eauto].
        destruct Hmiss as [Hs | Hc].
        -- apply (record_get_none "station_number" fieldnames r'') in Hs.
           rewrite Hs. simpl. eauto.
        -- apply (record_get_none "check_digit" fieldnames r'') in Hc.
           congruence.
  - unfold update_android_csv. destruct (read_existing csv) as [d|e].
    + destruct (sorted item_lt (existing_data (merge station_data d)));
        simpl; discriminate.
    + reflexivity.
Qed.

End UpdateMore.

(* ------------------------------------------------------------------ *)
(** ** The records update_android_csv writes *)
(* ------------------------------------------------------------------ *)

Section UpdateRecords.

Lemma merged_untouched_cell (station_data : list (str * str))
      (st : merge_state) (k : cell) :
  ~ In k (map (fun e => Some (fst e)) station_data) ->
  dict_get cell_eqb k (existing_data (fold_left merge_step station_data st))
  = dict_get cell_eqb k (existing_data st).
Proof.
  revert st. induction station_data as [|e l IH]; intros st; simpl.
  - reflexivity.
  - intros H. rewrite IH by tauto. rewrite merge_step_data.
    apply (@dict_get_set_other _ _ cell_eqb cell_eqb_eq). intros E.
    apply H. left. now symmetry.
Qed.

Lemma merged_items (station_data : list (str * str)) (d0 : dict cell cell)
      (k c : cell) :
  NoDup (dict_keys d0) ->
  In (k, c) (existing_data (merge station_data d0)) <->
  (In (k, c) d0 /\ ~ In k (map (fun e => Some (fst e)) station_data))
  \/ (exists k' v, k = Some k' /\ c = Some v /\ last_entry station_data k' v).
Proof.
  intros Hn0.
  assert (Hn : NoDup (dict_keys (existing_data (merge station_data d0)))).
  { now apply merged_nodup. }
  split.
  - intros Hin.
    apply (@dict_in_get _ _ cell_eqb cell_eqb_eq) in Hin; [|exact Hn].
    destruct (in_dec cell_eq_dec k (map (fun e => Some (fst e)) station_data))
      as [Hk | Hk].
    + right. apply in_map_iff in Hk as (e & <- & He).
      destruct (@entry_has_last station_data (fst e)) as [v Hv].
      { now apply in_map. }
      exists (fst e), v. repeat split; [|exact Hv].
      pose proof (@merged_last station_data (MergeState d0 0 0) _ _ Hv) as Hl.
      unfold merge in *. rewrite Hl in Hin. now injection Hin as <-.
    + left. split; [|exact Hk].
      apply (@dict_get_in _ _ cell_eqb cell_eqb_eq).
      rewrite <- Hin. symmetry.
      now apply (@merged_untouched_cell station_data (MergeState d0 0 0) k).
  - intros [[Hin Hk] | (k' & v & -> & -> & Hv)].
    + apply (@dict_get_in _ _ cell_eqb cell_eqb_eq).
      unfold merge.
      rewrite (@merged_untouched_cell station_data (MergeState d0 0 0) k Hk).
      now apply (@dict_in_get _ _ cell_eqb cell_eqb_eq).
    + apply (@dict_get_in _ _ cell_eqb cell_eqb_eq).
      exact (@merged_last station_data (MergeState d0 0 0) k' v Hv).
Qed.

(** Every record written is an existing record whose code the data do not mention, or the last entry of a code of the data. *)
Theorem records_written (station_data : list (str * str)) (csv : file table)
        (d0 : dict cell cell) (t : table) :
  read_existing csv = Ok d0 ->
  update_android_csv station_data csv = (Wrote t, true) ->
  forall r : row,
    In r (tl t) <->
    (exists k c,
        r = [written_field k; written_field c]
        /\ In (k, c) d0
        /\ ~ In k (map (fun e => Some (fst e)) station_data))
    \/ (exists k v, r = [k; v] /\ last_entry station_data k v).
Proof.
  intros Hread Hupd. unfold update_android_csv in Hupd. rewrite Hread in Hupd.
  destruct (sorted item_lt (existing_data (merge station_data d0)))
    as [s|] eqn:Hsorted; [|discriminate].
  injection Hupd as <-. simpl.
  pose proof (sorted_perm _ _ Hsorted) as Hperm.
  pose proof (read_existing_nodup csv Hread) as Hn0.
  intros r. rewrite in_map_iff. split.
  - intros ([k c] & <- & Hin).
    apply (Permutation_in _ (Permutation_sym Hperm)) in Hin.
    apply (@merged_items station_data d0 k c Hn0) in Hin
      as [[Hin Hk] | (k' & v & -> & -> & Hv)].
    + left. now exists k, c.
    + right. now exists k', v.
  - intros [(k & c & -> & Hin & Hk) | (k & v & -> & Hv)].
    + exists (k, c). split; [reflexivity|].
      apply (Permutation_in _ Hperm).
      apply (@merged_items station_data d0 k c Hn0). now left.
    + exists (Some k, Some v). split; [reflexivity|].
      apply (Permutation_in _ Hperm).
      apply (@merged_items station_data d0 (Some k) (Some v) Hn0).
      right. now exists k, v.
Qed.

Lemma records_written_witness :
  In ["03-58-01-01"; "9"] [["03-57-03-01"; "7"]; ["03-58-01-01"; "9"]] <->
  (exists k c,
      ["03-58-01-01"; "9"] = [written_field k; written_field c]
      /\ In (k, c) [(Some "03-57-03-01", Some "8");
                    (Some "03-58-01-01", Some "9")]
      /\ ~ In k (map (fun e => Some (fst e)) [("03-57-03-01", "7")]))
  \/ (exists k v,
         ["03-58-01-01"; "9"] = [k; v]
         /\ last_entry [("03-57-03-01", "7")] k v).
Proof.
  apply (@records_written
           [("03-57-03-01", "7")]
           (Some [["station_number"; "check_digit"];
                  ["03-57-03-01"; "8"]; ["03-58-01-01"; "9"]])
           [(Some "03-57-03-01", Some "8"); (Some "03-58-01-01", Some "9")]
           [["station_number"; "check_digit"];
            ["03-57-03-01"; "7"]; ["03-58-01-01"; "9"]]);
    reflexivity.
Defined.

End UpdateRecords.

(* ------------------------------------------------------------------ *)
(** ** simulate_android_import *)
(* ------------------------------------------------------------------ *)

Section ImportFacts.

Lemma split_with (sep : ascii) (s : str) :
  In sep s -> exists p q rest, split sep s = p :: q :: rest.
Proof.
  induction s as [|c r IH]; simpl; [tauto|].
  destruct (Ascii.eqb_spec c sep) as [-> | Hc].
  - intros _. destruct (split sep r) as [|q rest] eqn:E.
    + now apply split_not_nil in E.
    + now exists [], q, rest.
  - intros [H | H]; [congruence|].
    destruct (IH H) as (p & q & rest & ->). now exists (c :: p), q, rest.
Qed.

Lemma second_part (sep : ascii) (s : str) :
  (exists p, getitem (split sep s) 1 = Ok p) <-> In sep s.
Proof.
  split.
  - intros [p H]. destruct (in_dec ascii_dec sep s) as [Hin | Hout];
      [exact Hin|].
    rewrite (split_without _ _ Hout) in H. discriminate.
  - intros H. destruct (split_with _ _ H) as (p & q & rest & ->).
    now exists q.
Qed.

Lemma coverage_from (stations : list (str * str)) (d0 d : dict str nat) :
  foldM count_step stations d0 = Ok d ->
  (forall sc, In sc stations -> In "-"%char (fst sc))
  /\ forall a,
      dict_get str_eqb a d
      = match dict_get str_eqb a d0, length (filter (in_aisle a) stations) with
        | None, 0 => None
        | None, S n => Some (S n)
        | Some m, n => Some (m + n)
        end.
Proof.
  revert d0. induction stations as [|sc l IH]; intros d0; simpl.
  - intros H. injection H as <-. split; [tauto|].
    intros a. destruct (dict_get str_eqb a d0); [now rewrite Nat.add_0_r | reflexivity].
  - unfold count_step at 1.
    destruct (getitem (split "-" (fst sc)) 1) as [p|] eqn:Ep; simpl;
      [|discriminate].
    intros H. apply IH in H as [Hh Hc]. split.
    + intros sc' [<- | Hin]; [|now apply Hh].
      apply second_part. now exists p.
    + intros a. rewrite Hc.
      assert (Ha : in_aisle a sc = str_eqb p a).
      { unfold in_aisle. now rewrite Ep. }
      rewrite Ha. destruct (str_eqb p a) eqn:Epa.
      * apply str_eqb_eq in Epa. subst a.
        rewrite (@dict_get_set_same _ _ str_eqb str_eqb_eq). simpl.
        destruct (dict_get str_eqb p d0); f_equal; lia.
      * apply str_eqb_neq in Epa.
        rewrite (@dict_get_set_other _ _ str_eqb str_eqb_eq) by congruence.
        reflexivity.
Qed.

Lemma coverage_defined (stations : list (str * str)) (d0 : dict str nat) :
  (forall sc, In sc stations -> In "-"%char (fst sc)) ->
  exists d, foldM count_step stations d0 = Ok d.
Proof.
  revert d0. induction stations as [|sc l IH]; intros d0 H; simpl.
  - now exists d0.
  - unfold count_step at 1.
    destruct (proj2 (second_part "-" (fst sc))) as [p Hp].
    { apply H. now left. }
    rewrite Hp. simpl. apply IH. intros sc' Hin. apply H. now right.
Qed.

(** Step 5 counts, for each aisle, the stations whose second part it
    is, and holds no aisle without a station. *)
Theorem coverage_counts (stations : list (str * str)) (aisles : dict str nat) :
  coverage stations = Ok aisles ->
  forall a : str,
    dict_get str_eqb a aisles
    = match length (filter (in_aisle a) stations) with
      | 0 => None
      | S n => Some (S n)
      end.
Proof.
  intros H a. apply coverage_from in H as [_ H]. exact (H a).
Qed.

Lemma stations_of_rows (h : row) (rows : table) (station check_digit : str) :
  In (station, check_digit)
     (flat_map (fun r : row =>
                  match r with
                  | station_number :: check_digit :: _ =>
                      [(station_number, check_digit)]
                  | _ => []
                  end) rows)
  <-> exists rest, In (station :: check_digit :: rest) rows.
Proof.
  rewrite in_flat_map. split.
  - intros ([|a [|b rest]] & Hr & Hin); [destruct Hin | destruct Hin |].
    destruct Hin as [E | []]. injection E as -> ->. now exists rest.
  - intros [rest H]. exists (station :: check_digit :: rest).
    split; [exact H | now left].
Qed.

Lemma import_rows_ok (h : row) (rows : table) :
  (forall station check_digit rest,
      In (station :: check_digit :: rest) rows -> In "-"%char station) ->
  simulate_android_import (Some (h :: rows)) = true.
Proof.
  intros H.
  unfold simulate_android_import, normalized_stations, station_data, coverage.
  simpl. fold count_step.
  destruct (@coverage_defined
              (map (fun sc : str * str => (fst sc, strip (snd sc)))
                   (flat_map (fun r : row =>
                                match r with
                                | station_number :: check_digit :: _ =>
                                    [(station_number, check_digit)]
                                | _ => []
                                end) rows)) []) as [d Hd].
  - intros sc Hin. apply in_map_iff in Hin as ([s c] & <- & Hin).
    apply (stations_of_rows h) in Hin as [rest Hin]. simpl.
    now apply (H s c rest).
  - now rewrite Hd.
Qed.

(** The simulated import succeeds exactly when the file is there, has a
    first row, and every row of two fields or more has a hyphen in its
    station number. *)
Theorem import_succeeds (csv : file table) :
  simulate_android_import csv = true <->
  exists h rows,
    csv = Some (h :: rows)
    /\ forall station check_digit rest,
        In (station :: check_digit :: rest) rows -> In "-"%char station.
Proof.
  split.
  - unfold simulate_android_import, normalized_stations, station_data.
    destruct csv as [[|h rows]|]; simpl; try discriminate.
    unfold coverage. fold count_step.
    intros H. exists h, rows. split; [reflexivity|].
    intros station check_digit rest Hin.
    destruct (foldM count_step _ []) as [d|] eqn:E; [|discriminate].
    apply coverage_from in E as [E _].
    apply (E (station, strip check_digit)).
    apply in_map_iff. exists (station, check_digit). split; [reflexivity|].
    apply (stations_of_rows h). now exists rest.
  - intros (h & rows & -> & H). now apply import_rows_ok.
Qed.

(** A table that the update writes from a document is accepted by the
    simulated import, when the station numbers the table held before
    have a hyphen. *)
Theorem written_table_imports (content : str) (csv : file table)
        (d0 : dict cell cell) (t : table) :
  read_existing csv = Ok d0 ->
  (forall k c, In (k, c) d0 -> In "-"%char (written_field k)) ->
  main (Some content) csv = (Wrote t, 0%Z) ->
  simulate_android_import (Some t) = true.
Proof.
  intros Hread Hold. unfold main.
  destruct (extract_check_digits_from_md (Some content)) as [sd|] eqn:Hex;
    [|discriminate].
  unfold update_android_csv. rewrite Hread.
  destruct (sorted item_lt (existing_data (merge sd d0))) as [s|] eqn:Hs;
    [|discriminate].
  intros H. injection H as <-.
  apply import_rows_ok. intros station check_digit rest Hin.
  apply in_map_iff in Hin as ([k c] & E & Hin).
  unfold written_row in E. simpl in E. injection E as <- _ _.
  apply (Permutation_in _ (Permutation_sym (sorted_perm _ _ Hs))) in Hin.
  apply (@merged_items sd d0 k c (read_existing_nodup csv Hread)) in Hin
    as [[Hin _] | (k' & v & -> & -> & Hv)].
  - now apply (Hold k c).
  - apply last_entry_in in Hv.
    rewrite (extracted_digits_are_matches _ Hex) in Hv.
    apply findall_spec in Hv as (line & _ & Hl).
    destruct Hl as (a1 & a2 & s1 & s2 & rest' & _ & _ & _ & _ & -> & _).
    simpl. tauto.
Qed.

Lemma written_table_imports_witness :
  simulate_android_import
    (Some [["station_number"; "check_digit"]; ["03-57-01-01"; "12"]]) = true.
Proof.
  apply (@written_table_imports "03-57-01-01--12" None []); try reflexivity.
  intros k c [].
Defined.

Lemma coverage_counts_witness :
  dict_get str_eqb "57" [("57", 2); ("58", 1)] = Some 2.
Proof.
  apply (@coverage_counts
           [("03-57-01-01", "12"); ("03-58-01-01", "9"); ("03-57-02-01", "4")]
           [("57", 2); ("58", 1)] eq_refl "57").
Defined.

End ImportFacts.

(* ------------------------------------------------------------------ *)
(** ** add_aisle_to_csv *)
(* ------------------------------------------------------------------ *)

Section Aisle.

Lemma sorted_total (A : Type) (lt : A -> A -> result bool) (l : list A) :
  (forall a b, exists below, lt a b = Ok below) ->
  exists r, sorted lt l = Ok r.
Proof.
  intros H. induction l as [|x l [r Hr]]; simpl.
  - now exists [].
  - rewrite Hr. simpl. apply insert_sorted_defined. intros y _. apply H.
Qed.

Lemma keyed_defined (all_data : table) :
  ~ In [] all_data ->
  exists keyed,
    mapM (fun x : row => k <- getitem x 0 ;; Ok (k, x)) all_data = Ok keyed.
Proof.
  induction all_data as [|x l IH]; simpl; intros H.
  - now exists [].
  - destruct x as [|k rest]; [tauto|]. simpl.
    destruct IH as [keyed Hk]; [tauto|]. rewrite Hk. simpl. eauto.
Qed.

Lemma keyed_blank (all_data : table) :
  In [] all_data ->
  mapM (fun x : row => k <- getitem x 0 ;; Ok (k, x)) all_data
  = Raise IndexError.
Proof.
  induction all_data as [|x l IH]; simpl; [tauto|].
  destruct x as [|k rest]; [reflexivity|]. simpl.
  intros [H | H]; [discriminate|]. now rewrite IH.
Qed.

Lemma new_stations_spec (aisle_number i : Z) (check_digits : list (option Z))
      (r : row) :
  In r (new_stations_from aisle_number i check_digits) <->
  exists j n,
    nth_error check_digits j = Some (Some n) /\ n <> 0%Z
    /\ r = [format_02d aisle_number ++ "-" ++ format_02d (i + Z.of_nat j);
            str_of_int n].
Proof.
  revert i. induction check_digits as [|c l IH]; intros i; simpl.
  - split; [tauto|]. intros (j & n & H & _). now destruct j.
  - assert (Hlater : In r (new_stations_from aisle_number (i + 1) l) <->
                     exists j n,
                       nth_error (c :: l) (S j) = Some (Some n) /\ n <> 0%Z
                       /\ r = [format_02d aisle_number ++ "-"
                               ++ format_02d (i + Z.of_nat (S j));
                               str_of_int n]).
    { rewrite IH. split; intros (j & n & H1 & H2 & H3); exists j, n;
        (repeat split; [exact H1 | exact H2 |]); rewrite H3;
        now replace (i + Z.of_nat (S j))%Z with (i + 1 + Z.of_nat j)%Z by lia. }
    assert (Hskip : forall j n,
               nth_error (c :: l) j = Some (Some n) -> n <> 0%Z ->
               truthy c = false -> exists j', j = S j').
    { intros [|j] n H Hn Ht; [|now exists j].
      simpl in H. injection H as ->. simpl in Ht.
      apply negb_false_iff, Z.eqb_eq in Ht. contradiction. }
    destruct c as [n0|]; [destruct (truthy (Some n0)) eqn:Et|].
    + simpl. rewrite Hlater. split.
      * intros [<- | (j & n & H)].
        -- exists 0, n0. simpl. repeat split.
           ++ simpl in Et. apply negb_true_iff, Z.eqb_neq in Et. exact Et.
           ++ now rewrite Z.add_0_r.
        -- now exists (S j), n.
      * intros ([|j] & n & H1 & H2 & H3).
        -- left. simpl in H1. injection H1 as ->. rewrite H3.
           now rewrite Z.add_0_r.
        -- right. now exists j, n.
    + rewrite Hlater. split.
      * intros (j & n & H). now exists (S j), n.
      * intros (j & n & H1 & H2 & H3).
        destruct (Hskip j n H1 H2 eq_refl) as [j' ->]. now exists j', n.
    + rewrite Hlater. split.
      * intros (j & n & H). now exists (S j), n.
      * intros (j & n & H1 & H2 & H3).
        destruct (Hskip j n H1 H2 eq_refl) as [j' ->]. now exists j', n.
Qed.

Lemma new_stations_not_blank (aisle_number i : Z)
      (check_digits : list (option Z)) :
  ~ In [] (new_stations_from aisle_number i check_digits).
Proof.
  intros H. apply new_stations_spec in H as (j & n & _ & _ & H).
  discriminate.
Qed.

(** The call raises [IndexError], before it writes, exactly when the
    table holds a blank row after its first row; otherwise it writes
    the header and, in some order, every row the table held after its
    first row and every new row. *)
Theorem add_aisle_outcome (aisle_number : Z) (check_digits : list (option Z))
        (csv : file table) :
  let existing_data := match csv with Some t => t | None => [] end in
  (In [] (tl existing_data) ->
   add_aisle_to_csv aisle_number check_digits csv = Raise IndexError)
  /\ (~ In [] (tl existing_data) ->
      exists records,
        add_aisle_to_csv aisle_number check_digits csv
        = Ok (["station_number"; "check_digit"] :: records)
        /\ Permutation
             (tl existing_data
              ++ new_stations_from aisle_number 1 check_digits)
             records).
Proof.
  cbv zeta. unfold add_aisle_to_csv, sort_by_first. cbv zeta.
  split.
  - intros H.
    match goal with
    | |- bind (bind (mapM ?f ?l) _) _ = _ =>
        assert (E : mapM f l = Raise IndexError)
          by (apply keyed_blank, in_app_iff; now left);
        rewrite E
    end.
    reflexivity.
  - intros H.
    match goal with
    | |- exists _, bind (bind (mapM ?f ?l) _) _ = _ /\ _ =>
        destruct (@keyed_defined l) as [keyed Hk]
    end.
    { intros Hin. apply in_app_iff in Hin as [Hin | Hin]; [tauto|].
      revert Hin. apply new_stations_not_blank. }
    destruct (@sorted_total _ by_first keyed) as [r Hr].
    { intros a b. unfold by_first. eauto. }
    exists (map snd r). split.
    + rewrite Hk. simpl. rewrite Hr. reflexivity.
    + apply keyed_first in Hk as [_ Hm]. rewrite <- Hm.
      apply Permutation_map. now apply sorted_perm in Hr.
Qed.

(** The new rows: entry [j] of [check_digits], counted from 0, gives a
    row for position [j + 1] when it is a number other than 0, and gives
    none when it is [None] or 0. *)
Theorem add_aisle_new_rows (aisle_number : Z) (check_digits : list (option Z))
        (r : row) :
  In r (new_stations_from aisle_number 1 check_digits) <->
  exists j n,
    nth_error check_digits j = Some (Some n) /\ n <> 0%Z
    /\ r = [format_02d aisle_number ++ "-" ++ format_02d (Z.of_nat j + 1);
            str_of_int n].
Proof.
  rewrite new_stations_spec.
  split; intros (j & n & H1 & H2 & H3); exists j, n;
    (repeat split; [exact H1 | exact H2 |]); rewrite H3;
    now replace (Z.of_nat j + 1)%Z with (1 + Z.of_nat j)%Z by lia.
Qed.

Lemma format_02d_small (n : Z) :
  (0 <= n <= 99)%Z ->
  exists d1 d2,
    is_decimal d1 = true /\ is_decimal d2 = true /\ format_02d n = [d1; d2].
Proof.
  intros Hn.
  assert (Hall : forallb (fun k => match format_02d (Z.of_nat k) with
                                   | [d1; d2] => is_decimal d1 && is_decimal d2
                                   | _ => false
                                   end) (seq 0 100) = true)
    by (vm_compute; reflexivity).
  rewrite forallb_forall in Hall. specialize (Hall (Z.to_nat n)).
  rewrite Z2Nat.id in Hall by lia.
  destruct (format_02d n) as [|d1 [|d2 [|d3 l]]];
    try (discriminate Hall; apply in_seq; lia).
  exists d1, d2. assert (H : is_decimal d1 && is_decimal d2 = true).
  { apply Hall, in_seq. lia. }
  apply andb_true_iff in H. tauto.
Qed.

Lemma normalize_result_fixed (s r : str) :
  normalize_station_number s = Ok r -> normalize_station_number r = Ok r.
Proof.
  intros H. destruct (normalize_cases s) as [E | (a & st & Ha & Hs & E)];
    rewrite E in H; injection H as <-.
  - exact E.
  - now apply normalize_canonical.
Qed.

Lemma normalize_aisle_station (a1 a2 s1 s2 : ascii) :
  is_decimal a1 = true -> is_decimal a2 = true ->
  is_decimal s1 = true -> is_decimal s2 = true ->
  normalize_station_number ([a1; a2] ++ "-" ++ [s1; s2])
  = Ok ("03-" ++ [a1; a2] ++ "-" ++ [s1; s2] ++ "-01").
Proof.
  intros H1 H2 H3 H4.
  assert (Hh : forall c, is_decimal c = true -> Ascii.eqb c "-" = false).
  { intros c Hc. apply Ascii.eqb_neq.
    now apply isdigit_char_not_hyphen, decimal_isdigit_char. }
  assert (Hc : cleaned_of ([a1; a2] ++ "-" ++ [s1; s2]) = [a1; a2; s1; s2]).
  { unfold cleaned_of, remove_char. simpl.
    rewrite !Hh by assumption. simpl.
    apply decimals_stripped. simpl. now rewrite H1, H2, H3, H4. }
  unfold normalize_station_number. rewrite Hc.
  unfold four_digits, isdigit. simpl.
  now rewrite !decimal_isdigit_char by assumption.
Qed.

(** A station number that [add_aisle_to_csv] writes, for an aisle from 0
    to 99 and at most 99 check digits, is the result of normalising no
    input: normalising that station number itself gives
    ["03-AA-SS-01"], another string. *)
Theorem add_aisle_keys_not_normal (aisle_number : Z)
        (check_digits : list (option Z)) (r : row) :
  (0 <= aisle_number <= 99)%Z ->
  length check_digits <= 99 ->
  In r (new_stations_from aisle_number 1 check_digits) ->
  normalize_station_number (station_number_of r)
  = Ok ("03-" ++ station_number_of r ++ "-01")
  /\ forall input : str,
      normalize_station_number input <> Ok (station_number_of r).
Proof.
  intros Ha Hl Hr. apply new_stations_spec in Hr as (j & n & Hj & _ & ->).
  assert (Hlt : j < length check_digits).
  { apply nth_error_Some. congruence. }
  destruct (@format_02d_small aisle_number Ha) as (a1 & a2 & Ha1 & Ha2 & Ea).
  destruct (@format_02d_small (1 + Z.of_nat j)%Z) as (s1 & s2 & Hs1 & Hs2 & Es);
    [lia|].
  unfold station_number_of. cbn [hd]. rewrite Ea, Es.
  pose proof (@normalize_aisle_station a1 a2 s1 s2 Ha1 Ha2 Hs1 Hs2) as Hkey.
  split.
  - rewrite Hkey. simpl. reflexivity.
  - intros input H. apply normalize_result_fixed in H.
    rewrite Hkey in H. discriminate.
Qed.

Lemma add_aisle_keys_not_normal_witness :
  normalize_station_number "59-01" = Ok "03-59-01-01"
  /\ forall input : str, normalize_station_number input <> Ok "59-01".
Proof.
  apply (@add_aisle_keys_not_normal 59%Z [Some 17%Z] ["59-01"; "17"]).
  - lia.
  - simpl. lia.
  - now left.
Defined.

Lemma add_aisle_outcome_witness :
  add_aisle_to_csv 59 [Some 17%Z]
                   (Some [["station_number"; "check_digit"]; []])
  = Raise IndexError
  /\ exists records,
      add_aisle_to_csv 59 [Some 17%Z] None
      = Ok (["station_number"; "check_digit"] :: records)
      /\ Permutation ([] ++ new_stations_from 59 1 [Some 17%Z]) records.
Proof.
  split.
  - apply (proj1 (add_aisle_outcome 59 [Some 17%Z]
                    (Some [["station_number"; "check_digit"]; []]))).
    now left.
  - apply (proj2 (add_aisle_outcome 59 [Some 17%Z] None)).
    simpl. tauto.
Defined.

End Aisle.

(* ------------------------------------------------------------------ *)
(** ** Runs of consecutive station numbers *)
(* ------------------------------------------------------------------ *)

Section Ranges.

Lemma py_range_empty (a b : Z) : (b <= a)%Z -> py_range a b = [].
Proof.
  intros H. unfold py_range.
  replace (Z.to_nat (b - a)) with 0 by lia. reflexivity.
Qed.

Lemma py_range_snoc (a b : Z) :
  (a <= b)%Z -> py_range a (b + 1) = py_range a b ++ [b].
Proof.
  intros H. unfold py_range.
  replace (Z.to_nat (b + 1 - a)) with (S (Z.to_nat (b - a))) by lia.
  rewrite seq_S, map_app. simpl. do 2 f_equal. lia.
Qed.

Lemma py_range_one (a : Z) : py_range a (a + 1) = [a].
Proof.
  rewrite py_range_snoc by lia. now rewrite py_range_empty by lia.
Qed.

Lemma py_range_In (a b i : Z) : In i (py_range a b) <-> (a <= i < b)%Z.
Proof.
  unfold py_range. rewrite in_map_iff. split.
  - intros (k & <- & Hk). apply in_seq in Hk. lia.
  - intros H. exists (Z.to_nat (i - a)). split; [lia|].
    apply in_seq. lia.
Qed.

Lemma runs_from_expand (start stop : Z) (rest : list Z) :
  (start <= stop)%Z ->
  flat_map (fun r : Z * Z => py_range (fst r) (snd r + 1))
           (runs_from start stop rest)
  = py_range start (stop + 1) ++ rest.
Proof.
  revert start stop. induction rest as [|n rest IH]; intros start stop H; simpl.
  - reflexivity.
  - destruct (Z.eqb_spec n (stop + 1)) as [-> | Hn].
    + rewrite IH by lia.
      rewrite (@py_range_snoc start (stop + 1)) by lia.
      now rewrite <- app_assoc.
    + simpl. rewrite IH by lia. now rewrite py_range_one.
Qed.

Lemma runs_from_ordered (start stop : Z) (rest : list Z) :
  (start <= stop)%Z ->
  Forall (fun r : Z * Z => (fst r <= snd r)%Z) (runs_from start stop rest).
Proof.
  revert start stop. induction rest as [|n rest IH]; intros start stop H; simpl.
  - now repeat constructor.
  - destruct (Z.eqb_spec n (stop + 1)) as [-> | Hn].
    + apply IH. lia.
    + constructor; [exact H | apply IH; lia].
Qed.

Lemma runs_from_head (start stop : Z) (rest : list Z) :
  exists stop' rs, runs_from start stop rest = (start, stop') :: rs.
Proof.
  revert stop. induction rest as [|n rest IH]; intros stop; simpl.
  - now exists stop, [].
  - destruct (n =? stop + 1)%Z; [apply IH|]. now exists stop, (runs_from n n rest).
Qed.

Lemma runs_from_apart (start stop : Z) (rest : list Z) :
  forall before a b c d after,
    runs_from start stop rest = before ++ (a, b) :: (c, d) :: after ->
    c <> (b + 1)%Z.
Proof.
  revert start stop. induction rest as [|n rest IH];
    intros start stop before a b c d after; simpl.
  - destruct before as [|x [|y before]]; discriminate.
  - destruct (Z.eqb_spec n (stop + 1)) as [-> | Hn]; [apply IH|].
    destruct before as [|x before]; simpl.
    + intros E. injection E as <- <- E.
      destruct (runs_from_head n n rest) as (stop' & rs & Hrs).
      rewrite Hrs in E. now injection E as <- _ _.
    + intros E. injection E as _ E. now apply IH in E.
Qed.

(** The runs of consecutive numbers: laid out one after the other they
    are the numbers again, no run is empty, and no run starts where the
    run before it would go on. *)
Theorem runs_partition (numbers : list Z) (rs : list (Z * Z)) :
  runs numbers = Ok rs ->
  flat_map (fun r : Z * Z => py_range (fst r) (snd r + 1)) rs = numbers
  /\ Forall (fun r : Z * Z => (fst r <= snd r)%Z) rs
  /\ forall before a b c d after,
      rs = before ++ (a, b) :: (c, d) :: after -> c <> (b + 1)%Z.
Proof.
  unfold runs. destruct numbers as [|n rest]; simpl; [discriminate|].
  intros H. injection H as <-. split; [|split].
  - rewrite runs_from_expand by lia. now rewrite py_range_one.
  - apply runs_from_ordered. lia.
  - apply runs_from_apart.
Qed.

Lemma runs_partition_witness :
  flat_map (fun r : Z * Z => py_range (fst r) (snd r + 1))
           [(1, 3); (7, 7); (9, 10)]%Z
  = [1; 2; 3; 7; 9; 10]%Z
  /\ Forall (fun r : Z * Z => (fst r <= snd r)%Z) [(1, 3); (7, 7); (9, 10)]%Z
  /\ forall before a b c d after,
      [(1, 3); (7, 7); (9, 10)]%Z = before ++ (a, b) :: (c, d) :: after ->
      c <> (b + 1)%Z.
Proof.
  apply (@runs_partition [1; 2; 3; 7; 9; 10]%Z). reflexivity.
Defined.

Example ranges_text :
  ranges [1; 2; 3; 7; 9; 10]%Z = Ok ["1-3"; "7"; "9-10"]
  /\ ranges [] = Raise IndexError.
Proof. split; reflexivity. Qed.

End Ranges.

(* ------------------------------------------------------------------ *)
(** ** The file rebuild_stations.py writes *)
(* ------------------------------------------------------------------ *)

Section Rebuild.

Lemma split_app_sep (sep : ascii) (a b : str) :
  split sep (a ++ sep :: b) = split sep a ++ split sep b.
Proof.
  induction a as [|c r IH]; simpl.
  - now rewrite Ascii.eqb_refl.
  - destruct (Ascii.eqb c sep); [now rewrite IH|].
    rewrite IH. destruct (split sep r) as [|p ps] eqn:E; [|reflexivity].
    now apply split_not_nil in E.
Qed.

Lemma findall_app (a b : str) :
  findall (a ++ newline :: b) = findall a ++ findall b.
Proof. unfold findall. now rewrite split_app_sep, flat_map_app. Qed.

Lemma findall_line (l : str) :
  ~ In newline l ->
  findall l = match match_line l with Some m => [m] | None => [] end.
Proof.
  intros H. unfold findall. rewrite (@split_without newline l H). simpl.
  now rewrite app_nil_r.
Qed.

Lemma findall_lines (ls : list str) (rest : str) :
  Forall (fun l => ~ In newline l) ls ->
  findall (concat (map (fun l => l ++ [newline]) ls) ++ rest)
  = flat_map (fun l => match match_line l with Some m => [m] | None => [] end)
             ls
    ++ findall rest.
Proof.
  induction 1 as [|l ls Hl Hls IH]; simpl; [reflexivity|].
  rewrite <- !app_assoc. simpl.
  now rewrite findall_app, IH, (@findall_line l Hl), app_assoc.
Qed.

Lemma decimal_not_newline (c : ascii) : is_decimal c = true -> c <> newline.
Proof. intros H ->. vm_compute in H. discriminate. Qed.

Lemma heading_line (a1 a2 : ascii) :
  is_decimal a1 = true -> is_decimal a2 = true ->
  ~ In newline ("## District 03-" ++ [a1; a2] ++ " Series")
  /\ match_line ("## District 03-" ++ [a1; a2] ++ " Series") = None.
Proof.
  intros H1 H2. split; [|reflexivity].
  simpl. intros H.
  repeat (destruct H as [H | H];
          [first [discriminate H
                 | now apply decimal_not_newline in H]|]).
  exact H.
Qed.

Lemma blank_line (a1 a2 s1 s2 : ascii) :
  is_decimal a1 = true -> is_decimal a2 = true ->
  is_decimal s1 = true -> is_decimal s2 = true ->
  ~ In newline ("03-" ++ [a1; a2] ++ "-" ++ [s1; s2] ++ "-01--")
  /\ match_line ("03-" ++ [a1; a2] ++ "-" ++ [s1; s2] ++ "-01--") = None.
Proof.
  intros H1 H2 H3 H4. split.
  - simpl. intros H.
    repeat (destruct H as [H | H];
            [first [discriminate H
                   | now apply decimal_not_newline in H]|]).
    exact H.
  - unfold match_line. simpl. rewrite H1, H2. simpl. now rewrite H3, H4.
Qed.

Lemma no_matches (A : Type) (f : A -> list (str * str)) (l : list A) :
  (forall x, In x l -> f x = []) -> flat_map f l = [].
Proof.
  induction l as [|x l IH]; simpl; intros H; [reflexivity|].
  rewrite (H x) by now left. apply IH. intros y Hy. apply H. now right.
Qed.

Lemma section_matches (aisle : Z) (d : dict Z (list str)) (rest : str) :
  (0 <= aisle <= 99)%Z ->
  (forall lines l,
      dict_get Z.eqb aisle d = Some lines -> In l lines -> ~ In newline l) ->
  findall (generate_district_section aisle (Some d) ++ rest)
  = match dict_get Z.eqb aisle d with
    | Some lines =>
        flat_map (fun l => match match_line l with
                           | Some m => [m]
                           | None => []
                           end) lines
    | None => []
    end
    ++ findall rest.
Proof.
  intros Ha Hfree.
  destruct (@format_02d_small aisle Ha) as (a1 & a2 & Ha1 & Ha2 & Ea).
  destruct (@heading_line a1 a2 Ha1 Ha2) as [Hh1 Hh2].
  unfold generate_district_section, district_heading. cbv zeta.
  destruct (dict_get Z.eqb aisle d) as [lines|] eqn:Ed.
  - assert (E : ("## District 03-" ++ format_02d aisle ++ " Series" ++ [newline])
                ++ concat (map (fun station_data => station_data ++ [newline])
                               lines)
                ++ [newline]
                = concat (map (fun l => l ++ [newline])
                              (("## District 03-" ++ [a1; a2] ++ " Series")
                                 :: lines ++ [[]]))).
    { rewrite Ea, map_cons, map_app, concat_cons, concat_app.
      simpl. rewrite <- ?app_assoc, ?app_nil_r. reflexivity. }
    rewrite E, findall_lines.
    + cbn [flat_map]. rewrite Hh2, flat_map_app. simpl.
      now rewrite app_nil_r.
    + constructor; [exact Hh1|]. apply Forall_app. split.
      * apply Forall_forall. intros l Hl. now apply (Hfree lines).
      * constructor; [tauto | constructor].
  - assert (E : ("## District 03-" ++ format_02d aisle ++ " Series" ++ [newline])
                ++ template aisle ++ [newline]
                = concat (map (fun l => l ++ [newline])
                              (("## District 03-" ++ [a1; a2] ++ " Series")
                                 :: map (fun station =>
                                           "03-" ++ [a1; a2] ++ "-"
                                           ++ format_02d station ++ "-01--")
                                        (py_range 1 64)
                                 ++ [[]]))).
    { unfold template, empty_line.
      rewrite Ea, map_cons, map_app, concat_cons, concat_app, map_map.
      simpl. rewrite <- ?app_assoc, ?app_nil_r. reflexivity. }
    assert (Hst : forall st, In st (py_range 1 64) ->
                  ~ In newline ("03-" ++ [a1; a2] ++ "-" ++ format_02d st
                                ++ "-01--")
                  /\ match_line ("03-" ++ [a1; a2] ++ "-" ++ format_02d st
                                 ++ "-01--") = None).
    { intros st Hin. apply py_range_In in Hin.
      destruct (@format_02d_small st) as (s1 & s2 & Hs1 & Hs2 & ->); [lia|].
      now apply blank_line. }
    rewrite E, findall_lines.
    + cbn [flat_map]. rewrite Hh2, flat_map_app.
      rewrite (flat_map_concat_map _ (map _ _)), map_map,
        <- flat_map_concat_map.
      rewrite no_matches; [reflexivity|].
      intros st Hin. now rewrite (proj2 (Hst st Hin)).
    + constructor; [exact Hh1|]. apply Forall_app. split.
      * apply Forall_forall. intros l Hl.
        apply in_map_iff in Hl as (st & <- & Hin). apply (Hst st Hin).
      * constructor; [tauto | constructor].
Qed.

Lemma sections_matches (aisles : list Z) (d : dict Z (list str)) (rest : str) :
  (forall aisle, In aisle aisles -> (0 <= aisle <= 99)%Z) ->
  (forall aisle lines l,
      dict_get Z.eqb aisle d = Some lines -> In l lines -> ~ In newline l) ->
  findall (concat (map (fun aisle => generate_district_section aisle (Some d))
                       aisles) ++ rest)
  = flat_map (fun aisle =>
                match dict_get Z.eqb aisle d with
                | Some lines =>
                    flat_map (fun l => match match_line l with
                                       | Some m => [m]
                                       | None => []
                                       end) lines
                | None => []
                end) aisles
    ++ findall rest.
Proof.
  intros Hin Hfree. induction aisles as [|aisle aisles IH];
    cbn [map concat flat_map].
  - reflexivity.
  - rewrite <- app_assoc, section_matches.
    + rewrite IH; [now rewrite app_assoc|].
      intros a Ha. apply Hin. now right.
    + apply Hin. now left.
    + apply Hfree.
Qed.

(** The file [main] writes holds, for [extract_check_digits_from_md],
    exactly the matches of the existing lines of the districts 1 to 58,
    district after district: the headings, the empty templates and the
    summary give none, and the lines of any other district are left
    out. *)
Theorem rebuilt_file_matches (existing_data : dict Z (list str)) :
  (forall aisle lines l,
      dict_get Z.eqb aisle existing_data = Some lines ->
      In l lines -> ~ In newline l) ->
  findall (complete_content existing_data)
  = flat_map (fun aisle =>
                match dict_get Z.eqb aisle existing_data with
                | Some lines =>
                    flat_map (fun l => match match_line l with
                                       | Some m => [m]
                                       | None => []
                                       end) lines
                | None => []
                end) (py_range 1 59).
Proof.
  intros Hfree. unfold complete_content.
  change ("# Station Numbers - Organized and Sorted" ++ [newline; newline]
          ++ concat (map (fun aisle =>
                            generate_district_section aisle (Some existing_data))
                         (py_range 1 59))
          ++ summary)
    with (concat (map (fun l => l ++ [newline])
                      ["# Station Numbers - Organized and Sorted"; []])
          ++ concat (map (fun aisle =>
                            generate_district_section aisle (Some existing_data))
                         (py_range 1 59))
          ++ summary).
  rewrite findall_lines.
  - rewrite sections_matches.
    + assert (Hs : findall summary = []) by (vm_compute; reflexivity).
      rewrite Hs, app_nil_r. reflexivity.
    + intros aisle Ha. apply py_range_In in Ha. lia.
    + exact Hfree.
  - repeat constructor; vm_compute; intuition discriminate.
Qed.

Lemma rebuilt_file_matches_witness :
  findall (complete_content [(57%Z, ["03-57-01-01--12"; "03-57-02-01--"]);
                             (59%Z, ["03-59-01-01--44"])])
  = [("03-57-01-01", "12")].
Proof.
  rewrite (@rebuilt_file_matches
             [(57%Z, ["03-57-01-01--12"; "03-57-02-01--"]);
              (59%Z, ["03-59-01-01--44"])]).
  - vm_compute. reflexivity.
  - intros aisle lines l H Hl Hn. cbn [dict_get] in H.
    destruct (Z.eqb_spec 57 aisle) as [_ | _].
    + injection H as <-.
      destruct Hl as [<- | [<- | []]]; vm_compute in Hn; intuition discriminate.
    + destruct (Z.eqb_spec 59 aisle) as [_ | _]; [|discriminate].
      injection H as <-.
      destruct Hl as [<- | []]; vm_compute in Hn; intuition discriminate.
Defined.

End Rebuild.

(* ------------------------------------------------------------------ *)
(** ** Running the update again *)
(* ------------------------------------------------------------------ *)

Section Again.

Lemma dict_set_keys_present (k v : cell) (d : dict cell cell) :
  In k (dict_keys d) -> dict_keys (dict_set cell_eqb k v d) = dict_keys d.
Proof.
  unfold dict_keys. induction d as [|[k0 v0] d IH]; simpl; [tauto|].
  destruct (cell_eqb k0 k) eqn:E; simpl; [reflexivity|].
  intros [H | H].
  - subst. now rewrite cell_eqb_refl in E.
  - now rewrite IH.
Qed.

Lemma dict_set_keys_absent (k v : cell) (d : dict cell cell) :
  ~ In k (dict_keys d) -> dict_set cell_eqb k v d = d ++ [(k, v)].
Proof.
  unfold dict_keys. induction d as [|[k0 v0] d IH]; simpl; [reflexivity|].
  intros H. destruct (cell_eqb k0 k) eqn:E.
  - apply cell_eqb_eq in E. tauto.
  - rewrite IH; tauto.
Qed.

Lemma dict_ext (d d' : dict cell cell) :
  dict_keys d = dict_keys d' ->
  NoDup (dict_keys d) ->
  (forall k, dict_get cell_eqb k d = dict_get cell_eqb k d') ->
  d = d'.
Proof.
  unfold dict_keys. revert d'.
  induction d as [|[k v] d IH]; intros [|[k' v'] d']; simpl;
    try discriminate; [reflexivity|].
  intros Hk Hn Hget. injection Hk as <- Hk.
  inversion Hn as [|? ? Hnk Hnd]; subst.
  pose proof (Hget k) as Hv. rewrite cell_eqb_refl in Hv.
  injection Hv as <-. f_equal. apply IH; [exact Hk | exact Hnd |].
  intros k0. specialize (Hget k0).
  destruct (cell_eqb k k0) eqn:E; [|exact Hget].
  apply cell_eqb_eq in E. subst k0.
  rewrite (@dict_get_none _ _ cell_eqb cell_eqb_eq k d Hnk).
  rewrite Hk in Hnk.
  now rewrite (@dict_get_none _ _ cell_eqb cell_eqb_eq k d' Hnk).
Qed.

Lemma merged_keys_present (station_data : list (str * str)) (st : merge_state) :
  (forall e, In e station_data ->
             In (Some (fst e)) (dict_keys (existing_data st))) ->
  dict_keys (existing_data (fold_left merge_step station_data st))
  = dict_keys (existing_data st).
Proof.
  revert st. induction station_data as [|e l IH]; intros st H; simpl.
  - reflexivity.
  - assert (He : dict_keys (existing_data (merge_step st e))
                 = dict_keys (existing_data st)).
    { rewrite merge_step_data. apply dict_set_keys_present, H. now left. }
    rewrite IH; [exact He|].
    intros e' He'. rewrite He. apply H. now right.
Qed.

Lemma sorted_ascending_items (l : dict cell cell) :
  Sorted (fun a b =>
            str_ltb (written_field (fst a)) (written_field (fst b)) = true) l ->
  (forall it, In it l -> fst it <> None) ->
  sorted item_lt l = Ok l.
Proof.
  induction 1 as [|x l Hs IH Hh]; intros Hk; simpl; [reflexivity|].
  rewrite IH by (intros it Hit; apply Hk; now right). simpl.
  destruct Hh as [|y l Hxy]; [reflexivity|]. simpl.
  assert (Hx : fst x <> None) by (apply Hk; now left).
  assert (Hy : fst y <> None) by (apply Hk; right; now left).
  unfold item_lt.
  destruct (fst x) as [kx|] eqn:Ex; [|contradiction].
  destruct (fst y) as [ky|] eqn:Ey; [|contradiction].
  simpl in Hxy. simpl.
  assert (Hne : str_eqb ky kx = false).
  { apply str_eqb_neq. intros ->. rewrite str_ltb_irrefl in Hxy. discriminate. }
  rewrite Hne. simpl. now rewrite (str_ltb_asym _ _ Hxy).
Qed.

Lemma nodup_some (A : Type) (l : list A) : NoDup l -> NoDup (map Some l).
Proof.
  induction 1 as [|a l Ha Hl IH]; simpl; constructor; [|exact IH].
  intros H. apply in_map_iff in H as (b & E & Hb). injection E as ->.
  contradiction.
Qed.

Lemma read_rows (s : dict cell cell) (acc : dict cell cell) :
  NoDup (dict_keys acc
         ++ map (fun it => Some (written_field (fst it))) s) ->
  foldM (fun existing_data (fr : row * row) =>
           let (fieldnames, r) := fr in
           check_digit <- record_getitem "check_digit" fieldnames r ;;
           station <- record_getitem "station_number" fieldnames r ;;
           Ok (dict_set cell_eqb station check_digit existing_data))
        (map (pair UpdateStationCsv.header) (map written_row s)) acc
  = Ok (acc ++ map (fun it => (Some (written_field (fst it)),
                               Some (written_field (snd it)))) s).
Proof.
  revert acc. induction s as [|it s IH]; intros acc Hn; simpl.
  - now rewrite app_nil_r.
  - rewrite dict_set_keys_absent.
    + rewrite IH; [now rewrite <- app_assoc|].
      unfold dict_keys in *. rewrite map_app. simpl.
      now rewrite <- app_assoc.
    + apply NoDup_remove_2 in Hn. intros H. apply Hn.
      apply in_app_iff. now left.
Qed.

Lemma read_written (s : dict cell cell) :
  NoDup (map (fun it => written_field (fst it)) s) ->
  read_existing (Some (UpdateStationCsv.header :: map written_row s))
  = Ok (map (fun it => (Some (written_field (fst it)),
                        Some (written_field (snd it)))) s).
Proof.
  intros Hn. unfold read_existing, dictreader.
  assert (Hf : filter (fun r => negb (is_blank r)) (map written_row s)
               = map written_row s).
  { clear Hn. induction s as [|it s IH]; simpl; [reflexivity | now rewrite IH]. }
  rewrite Hf. rewrite (@read_rows s []); [reflexivity|].
  simpl. rewrite <- (map_map (fun it => written_field (fst it)) Some).
  now apply nodup_some.
Qed.

(** Running the update again with the same data on the table it wrote
    writes the same table again, and counts no station as new. *)
Theorem update_again (station_data : list (str * str)) (csv : file table)
        (t : table) :
  update_android_csv station_data csv = (Wrote t, true) ->
  update_android_csv station_data (Some t) = (Wrote t, true)
  /\ exists d1,
      read_existing (Some t) = Ok d1
      /\ new_count (merge station_data d1) = 0.
Proof.
  intros Hupd. unfold update_android_csv in Hupd.
  destruct (read_existing csv) as [d0|] eqn:Hread; [|discriminate].
  destruct (sorted item_lt (existing_data (merge station_data d0)))
    as [s|] eqn:Hsorted; [|discriminate].
  injection Hupd as <-.
  pose proof (sorted_perm _ _ Hsorted) as Hperm.
  assert (Hnodup : NoDup (dict_keys (existing_data (merge station_data d0)))).
  { apply merged_nodup. simpl. now apply (read_existing_nodup csv). }
  assert (Hnodup' : NoDup (dict_keys s)).
  { exact (Permutation_NoDup (Permutation_map fst Hperm) Hnodup). }
  apply (@sorted_Sorted _ item_lt item_lt_asym) in Hsorted.
  pose proof (@sorted_items_strict s Hsorted Hnodup') as Hstrict.
  set (g := fun it : cell * cell => (Some (written_field (fst it)),
                                     Some (written_field (snd it)))).
  assert (Hone : NoDup (map (fun it => written_field (fst it)) s)).
  { destruct (@written_rows_well_formed s Hsorted Hnodup') as [H _].
    unfold one_record_per_station in H. now rewrite map_map in H. }
  pose proof (@read_written s Hone) as Hd1. fold g in Hd1.
  assert (Hk1 : NoDup (dict_keys (map g s))).
  { unfold dict_keys. rewrite map_map. simpl.
    rewrite <- (map_map (fun it => written_field (fst it)) Some).
    now apply nodup_some. }
  assert (Hin1 : forall k v, In (Some k, Some v) s -> In (Some k, Some v) (map g s)).
  { intros k v H. apply in_map_iff. now exists (Some k, Some v). }
  assert (Hlast : forall k v, last_entry station_data k v ->
                              In (Some k, Some v) (map g s)).
  { intros k v Hv. apply Hin1, (Permutation_in _ Hperm).
    apply (@dict_get_in _ _ cell_eqb cell_eqb_eq).
    exact (@merged_last station_data (MergeState d0 0 0) k v Hv). }
  assert (Hsame : existing_data (merge station_data (map g s)) = map g s).
  { apply dict_ext.
    - apply merged_keys_present. intros e He. simpl.
      destruct (@entry_has_last station_data (fst e)) as [v Hv];
        [now apply in_map|].
      apply Hlast in Hv. unfold dict_keys. apply in_map_iff.
      now exists (Some (fst e), Some v).
    - apply merged_nodup. exact Hk1.
    - intros k.
      destruct (in_dec cell_eq_dec k (map (fun e => Some (fst e)) station_data))
        as [Hk | Hk].
      + apply in_map_iff in Hk as (e & <- & He).
        destruct (@entry_has_last station_data (fst e)) as [v Hv];
          [now apply in_map|].
        unfold merge.
        rewrite (@merged_last station_data (MergeState (map g s) 0 0) _ _ Hv).
        symmetry. apply (@dict_in_get _ _ cell_eqb cell_eqb_eq); [exact Hk1|].
        now apply Hlast.
      + now apply (@merged_untouched_cell station_data
                     (MergeState (map g s) 0 0) k). }
  assert (Hsort1 : sorted item_lt (map g s) = Ok (map g s)).
  { apply sorted_ascending_items.
    - apply Sorted_map
        with (f := g)
             (R := fun a b : cell * cell =>
                     str_ltb (written_field (fst a)) (written_field (fst b))
                     = true).
      exact Hstrict.
    - intros it Hit. apply in_map_iff in Hit as (it' & <- & _). discriminate. }
  assert (Hrows : map written_row (map g s) = map written_row s).
  { rewrite map_map. apply map_ext. intros [k c]. reflexivity. }
  split.
  - unfold update_android_csv.
    match goal with
    | |- match ?x with _ => _ end = _ =>
        replace x with (Ok (A := dict cell cell) (map g s))
          by (symmetry; exact Hd1)
    end.
    rewrite Hsame, Hsort1, Hrows. reflexivity.
  - exists (map g s). split; [exact Hd1|].
    destruct (merge_counts station_data (MergeState (map g s) 0 0)) as [H _].
    unfold merge in *. simpl in H. rewrite Hsame in H. lia.
Qed.

Lemma update_again_witness :
  update_android_csv
    [("03-57-03-01", "7"); ("03-57-01-01", "12")]
    (Some [["station_number"; "check_digit"];
           ["03-57-01-01"; "12"]; ["03-57-03-01"; "7"]; ["03-58-01-01"; "9"]])
  = (Wrote [["station_number"; "check_digit"];
            ["03-57-01-01"; "12"]; ["03-57-03-01"; "7"]; ["03-58-01-01"; "9"]],
     true)
  /\ exists d1,
      read_existing
        (Some [["station_number"; "check_digit"];
               ["03-57-01-01"; "12"]; ["03-57-03-01"; "7"];
               ["03-58-01-01"; "9"]]) = Ok d1
      /\ new_count (merge [("03-57-03-01", "7"); ("03-57-01-01", "12")] d1) = 0.
Proof.
  apply (@update_again
           [("03-57-03-01", "7"); ("03-57-01-01", "12")]
           (Some [["station_number"; "check_digit"];
                  ["03-58-01-01"; "9"]; ["03-57-03-01"; "8"]])).
  reflexivity.
Defined.

End Again.

(* ------------------------------------------------------------------ *)
(** ** The analysis of the table and the lookup *)
(* ------------------------------------------------------------------ *)

Section Lookup.

Lemma good_row (st : analysis) (k v a : str) :
  k <> [] -> v <> [] -> getitem (split "-" k) 1 = Ok a ->
  analyze_row st (["station_number"; "check_digit"], [k; v])
  = Ok (Analysis
          (dict_set str_eqb a
                    (match dict_get str_eqb a (stations st) with
                     | Some l => l
                     | None => []
                     end ++ [(k, v)])
                    (stations st))
          (let issues1 :=
             if station_format k then issues st
             else issues st
                  ++ [issue (row_num st) ("Invalid station format: " ++ k)] in
           if isdigit v then issues1
           else issues1 ++ [issue (row_num st) ("Invalid check digit: " ++ v)])
          (row_num st + 1)).
Proof.
  intros Hk Hv Ha. unfold analyze_row. simpl.
  destruct k as [|c k]; [contradiction|].
  destruct v as [|c' v]; [contradiction|].
  simpl falsy. cbn [orb written_field]. cbv zeta.
  change (getitem (split "-" (c :: k)) 1) with (getitem (split "-" (c :: k)) 1).
  rewrite Ha. reflexivity.
Qed.

Lemma listed_after (d : dict str (list (str * str))) (a0 : str)
      (x0 : str * str) (a : str) (x : str * str) :
  listed_in (dict_set str_eqb a0
                      (match dict_get str_eqb a0 d with
                       | Some l => l
                       | None => []
                       end ++ [x0]) d) a x
  <-> listed_in d a x \/ (a = a0 /\ x = x0).
Proof.
  unfold listed_in. destruct (str_eqb a0 a) eqn:E.
  - apply str_eqb_eq in E. subst a.
    rewrite (@dict_get_set_same _ _ str_eqb str_eqb_eq). split.
    + intros (l & Hl & Hx). injection Hl as <-.
      apply in_app_iff in Hx as [Hx | [<- | []]]; [|now right].
      left. destruct (dict_get str_eqb a0 d) as [l|]; [|destruct Hx].
      now exists l.
    + intros [(l & Hl & Hx) | [_ ->]]; eexists; (split; [reflexivity|]);
        apply in_app_iff; [left; now rewrite Hl | right; now left].
  - apply str_eqb_neq in E.
    rewrite (@dict_get_set_other _ _ str_eqb str_eqb_eq) by congruence.
    split; [now left|]. intros [H | [-> _]]; [exact H | congruence].
Qed.

Lemma analyze_good (records : list (str * str)) (st : analysis) :
  (forall k v, In (k, v) records ->
               k <> [] /\ v <> [] /\ In "-"%char k) ->
  NoDup (dict_keys (stations st)) ->
  exists st',
    foldM analyze_row
          (map (pair ["station_number"; "check_digit"])
               (map (fun kv : str * str => [fst kv; snd kv]) records)) st
    = Ok st'
    /\ NoDup (dict_keys (stations st'))
    /\ (forall a x,
           listed_in (stations st') a x <->
           listed_in (stations st) a x
           \/ (In x records /\ getitem (split "-" (fst x)) 1 = Ok a))
    /\ ((forall k v, In (k, v) records ->
                     station_format k = true /\ isdigit v = true) ->
        issues st' = issues st).
Proof.
  revert st. induction records as [|[k v] records IH]; intros st Hgood Hn.
  - exists st. simpl. repeat split; try assumption; tauto.
  - destruct (Hgood k v) as (Hk & Hv & Hh); [now left|].
    destruct (proj2 (second_part "-" k) Hh) as [a0 Ha0].
    cbn [map foldM fst snd]. rewrite (good_row st Hk Hv Ha0). cbn [bind].
    match goal with
    | |- exists st', foldM _ _ ?s = _ /\ _ => destruct (IH s) as (st' & Hst' & Hn' & Hl & Hi)
    end.
    + intros k' v' H. apply Hgood. now right.
    + simpl. apply dict_set_nodup; [exact str_eqb_eq | exact Hn].
    + exists st'. split; [exact Hst' | split; [exact Hn' | split]].
      * intros a x. rewrite Hl. cbn [stations]. rewrite listed_after.
        split.
        -- intros [[H | [-> ->]] | [H1 H2]]; auto.
           ++ right. split; [now left | exact Ha0].
           ++ right. split; [now right | exact H2].
        -- intros [H | [[<- | H1] H2]]; auto.
           left. right. simpl in H2. split; [congruence | reflexivity].
      * intros Hfmt. rewrite Hi.
        -- cbn [issues]. destruct (Hfmt k v) as [-> ->]; [now left|].
           reflexivity.
        -- intros k' v' H. apply Hfmt. now right.
Qed.

(** When every record is filled in and has a hyphen in its station
    number, the analysis lists each record under the second part of its
    station number and nowhere else. *)
Theorem analysis_lists (records : list (str * str)) :
  (forall k v, In (k, v) records ->
               k <> [] /\ v <> [] /\ In "-"%char k) ->
  exists st,
    analyze_rows (["station_number"; "check_digit"]
                    :: map (fun kv : str * str => [fst kv; snd kv]) records)
    = Ok st
    /\ forall a x,
        listed_in (stations st) a x <->
        In x records /\ getitem (split "-" (fst x)) 1 = Ok a.
Proof.
  intros Hgood.
  destruct (@analyze_good records (Analysis [] [] 2) Hgood)
    as (st & Hst & _ & Hl & _); [constructor|].
  exists st. split.
  - unfold analyze_rows, dictreader. cbn [tl].
    assert (Hf : filter (fun r : row => negb (is_blank r))
                        (map (fun kv : str * str => [fst kv; snd kv]) records)
                 = map (fun kv : str * str => [fst kv; snd kv]) records).
    { clear. induction records as [|kv records IH]; simpl;
        [reflexivity | now rewrite IH]. }
    rewrite Hf. exact Hst.
  - intros a x. rewrite Hl. split; [|tauto].
    intros [(l & Hd & _) | H]; [discriminate | exact H].
Qed.

Lemma analysis_lists_witness :
  exists st,
    analyze_rows [["station_number"; "check_digit"];
                  ["03-57-01-01"; "12"]; ["59-01"; "4"]] = Ok st
    /\ forall a x,
        listed_in (stations st) a x <->
        In x [("03-57-01-01", "12"); ("59-01", "4")]
        /\ getitem (split "-" (fst x)) 1 = Ok a.
Proof.
  apply (@analysis_lists [("03-57-01-01", "12"); ("59-01", "4")]).
  intros k v [E | [E | []]]; injection E as <- <-;
    (repeat split; [discriminate | discriminate | vm_compute; tauto]).
Defined.

Lemma listed_flat (d : dict str (list (str * str))) (x : str * str) :
  NoDup (dict_keys d) ->
  In x (concat (map snd d)) <-> exists a, listed_in d a x.
Proof.
  unfold listed_in, dict_keys.
  induction d as [|[a0 l0] d IH]; simpl; intros Hn.
  - split; [tauto | intros (a & l & H & _); discriminate].
  - inversion Hn as [|? ? Ha Hd]; subst. rewrite in_app_iff, (IH Hd). split.
    + intros [H | (a & l & Hl & Hx)].
      * exists a0, l0. now rewrite str_eqb_refl.
      * exists a, l. split; [|exact Hx].
        destruct (str_eqb a0 a) eqn:E; [|exact Hl].
        apply str_eqb_eq in E. subst a. exfalso. apply Ha.
        apply (@dict_get_in _ _ str_eqb str_eqb_eq) in Hl.
        apply in_map_iff. now exists (a0, l).
    + intros (a & l & Hl & Hx). destruct (str_eqb a0 a) eqn:E.
      * injection Hl as <-. now left.
      * right. now exists a, l.
Qed.

Lemma lookup_db_flat (d : dict str (list (str * str))) (acc : dict str str) :
  fold_left (fun db (group : str * list (str * str)) =>
               fold_left (fun db (sc : str * str) =>
                            dict_set str_eqb (fst sc) (snd sc) db)
                         (snd group) db) d acc
  = fold_left (fun db (sc : str * str) => dict_set str_eqb (fst sc) (snd sc) db)
              (concat (map snd d)) acc.
Proof.
  revert acc. induction d as [|g d IH]; intros acc; simpl; [reflexivity|].
  now rewrite fold_left_app, IH.
Qed.

Lemma fold_set_other (l : list (str * str)) (acc : dict str str) (k : str) :
  ~ In k (map fst l) ->
  dict_get str_eqb k
           (fold_left (fun db (sc : str * str) =>
                         dict_set str_eqb (fst sc) (snd sc) db) l acc)
  = dict_get str_eqb k acc.
Proof.
  revert acc. induction l as [|e l IH]; intros acc H; simpl; [reflexivity|].
  rewrite IH by (simpl in H; tauto).
  apply (@dict_get_set_other _ _ str_eqb str_eqb_eq).
  simpl in H. intros E. apply H. now left.
Qed.

Lemma fold_set_get (l : list (str * str)) (acc : dict str str) (k v : str) :
  In (k, v) l ->
  (forall v', In (k, v') l -> v' = v) ->
  dict_get str_eqb k
           (fold_left (fun db (sc : str * str) =>
                         dict_set str_eqb (fst sc) (snd sc) db) l acc)
  = Some v.
Proof.
  intros Hin Hfun.
  destruct (@last_occurrence str str k l str_eq_dec)
    as (before & v' & after & -> & Hafter).
  { apply in_map_iff. now exists (k, v). }
  assert (v' = v) by (apply Hfun, in_elt). subst v'.
  rewrite fold_left_app. simpl. rewrite fold_set_other by exact Hafter.
  apply (@dict_get_set_same _ _ str_eqb str_eqb_eq).
Qed.

Lemma foldM_raises_at (A S : Type) (f : S -> A -> result S) (l : list A)
      (s : S) (a : A) :
  In a l -> (forall s, exists e, f s a = Raise e) ->
  exists e, foldM f l s = Raise e.
Proof.
  intros Hin Ha. revert s. induction l as [|b l IH]; intros s; [destruct Hin|].
  simpl. destruct Hin as [-> | Hin].
  - destruct (Ha s) as [e He]. rewrite He. now exists e.
  - destruct (f s b) as [s'|e]; simpl; [now apply IH | now exists e].
Qed.

(** One record with both fields filled in and no hyphen in its station
    number empties the analysis: the [IndexError] is caught and the
    dictionary returned is empty, whatever the other records are. *)
Theorem analysis_aborts (rows : table) (k v : str) (rest : row) :
  In (k :: v :: rest) rows ->
  k <> [] -> v <> [] -> ~ In "-"%char k ->
  analyze_csv_data (Some (["station_number"; "check_digit"] :: rows)) = [].
Proof.
  intros Hin Hk Hv Hh. unfold analyze_csv_data, analyze_rows.
  destruct (@foldM_raises_at _ _ analyze_row
              (dictreader (["station_number"; "check_digit"] :: rows))
              (Analysis [] [] 2)
              (["station_number"; "check_digit"], k :: v :: rest)) as [e He].
  - unfold dictreader. apply in_map, filter_In. now split.
  - intros st. unfold analyze_row. simpl.
    destruct k as [|c k]; [contradiction|].
    destruct v as [|c' v]; [contradiction|].
    cbn [falsy orb written_field]. cbv zeta.
    rewrite (@split_without "-"%char (c :: k) Hh). simpl. eauto.
  - now rewrite He.
Qed.

Lemma analysis_aborts_witness :
  analyze_csv_data (Some [["station_number"; "check_digit"];
                          ["03-57-01-01"; "12"]; ["0357"; "1"]]) = [].
Proof.
  apply (@analysis_aborts [["03-57-01-01"; "12"]; ["0357"; "1"]] "0357" "1" []).
  - right. now left.
  - discriminate.
  - discriminate.
  - vm_compute. intuition discriminate.
Defined.

Lemma last_entry_unique (station_data : list (str * str)) (k v v' : str) :
  last_entry station_data k v -> last_entry station_data k v' -> v = v'.
Proof.
  intros H H'.
  pose proof (@merged_last station_data (MergeState [] 0 0) k v H) as E.
  rewrite (@merged_last station_data (MergeState [] 0 0) k v' H') in E.
  now injection E.
Qed.

Lemma canonical_format (a1 a2 s1 s2 : ascii) :
  is_decimal a1 = true -> is_decimal a2 = true ->
  is_decimal s1 = true -> is_decimal s2 = true ->
  station_format ("03-" ++ [a1; a2] ++ "-" ++ [s1; s2] ++ "-01") = true.
Proof.
  intros H1 H2 H3 H4. unfold station_format.
  rewrite expect_app, two_decimals_app by assumption.
  rewrite expect_app, two_decimals_app by assumption.
  reflexivity.
Qed.

Lemma decimals_isdigit (v : str) :
  v <> [] -> forallb is_decimal v = true -> isdigit v = true.
Proof.
  intros Hv H. destruct v as [|c v]; [contradiction|]. unfold isdigit.
  rewrite forallb_forall in *. intros x Hx.
  now apply decimal_isdigit_char, H.
Qed.

Lemma dictreader_rows (records : list (str * str)) :
  dictreader (["station_number"; "check_digit"]
                :: map (fun kv : str * str => [fst kv; snd kv]) records)
  = map (pair ["station_number"; "check_digit"])
        (map (fun kv : str * str => [fst kv; snd kv]) records).
Proof.
  unfold dictreader. f_equal.
  induction records as [|kv records IH]; simpl; [reflexivity | now rewrite IH].
Qed.

(** After [main] of update_station_csv.py has written a fresh table from
    a document, the lookup of the debug script finds, for every input
    whose normal form is an extracted code, the last check digit the
    document gives for the code, and finds nothing for an input whose
    normal form is no extracted code; and the analysis of the table
    reports no issue. *)
Theorem lookup_after_update (content : str) (csv : file table) (t : table) :
  read_existing csv = Ok [] ->
  main (Some content) csv = (Wrote t, 0%Z) ->
  (forall input k v,
      normalize_station_number input = Ok k ->
      last_entry (findall content) k v ->
      lookup (analyze_csv_data (Some t)) input = Ok (Some v)
      /\ found (Some v) = true)
  /\ (forall input k,
         normalize_station_number input = Ok k ->
         ~ In k (map fst (findall content)) ->
         lookup (analyze_csv_data (Some t)) input = Ok None)
  /\ exists st, analyze_rows t = Ok st /\ issues st = [].
Proof.
  intros Hread. unfold main.
  destruct (extract_check_digits_from_md (Some content)) as [sd|] eqn:Hex;
    [|discriminate].
  pose proof (extracted_digits_are_matches _ Hex) as Hsd. rewrite <- Hsd.
  unfold update_android_csv. rewrite Hread.
  destruct (sorted item_lt (existing_data (merge sd []))) as [s|] eqn:Hs;
    [|discriminate].
  intros H. injection H as <-.
  pose proof (sorted_perm _ _ Hs) as Hperm.
  set (records := map (fun it : cell * cell =>
                         (written_field (fst it), written_field (snd it))) s).
  assert (Hrows : map written_row s
                  = map (fun kv : str * str => [fst kv; snd kv]) records).
  { unfold records. rewrite map_map. reflexivity. }
  assert (Hrec : forall k v, In (k, v) records <-> last_entry sd k v).
  { intros k v. unfold records. rewrite in_map_iff. split.
    - intros (it & E & Hit).
      apply (Permutation_in _ (Permutation_sym Hperm)) in Hit.
      apply fresh_items in Hit as (k' & v' & -> & Hl). simpl in E.
      now injection E as <- <-.
    - intros Hl. exists (Some k, Some v). split; [reflexivity|].
      apply (Permutation_in _ Hperm), fresh_items. now exists k, v. }
  assert (Hshape : forall k v, In (k, v) records ->
             (k <> [] /\ v <> [] /\ In "-"%char k)
             /\ station_format k = true /\ isdigit v = true).
  { intros k v Hin. apply Hrec, last_entry_in in Hin. rewrite Hsd in Hin.
    apply findall_spec in Hin as (line & _ & Hl).
    destruct Hl as (a1 & a2 & s1 & s2 & rest' & H1 & H2 & H3 & H4 & -> & Hne
                    & Hcd & _).
    repeat split.
    - discriminate.
    - exact Hne.
    - simpl. tauto.
    - now apply canonical_format.
    - now apply decimals_isdigit. }
  destruct (@analyze_good records (Analysis [] [] 2))
    as (st & Hst & Hn & Hl & Hi).
  { intros k v Hin. now apply Hshape. }
  { constructor. }
  assert (Han : analyze_rows (UpdateStationCsv.header :: map written_row s)
                = Ok st).
  { unfold analyze_rows. rewrite Hrows.
    change UpdateStationCsv.header with ["station_number"; "check_digit"].
    rewrite dictreader_rows. exact Hst. }
  assert (Hflat : forall x, In x (concat (map snd (stations st)))
                            <-> In x records).
  { intros x. rewrite (@listed_flat (stations st) x Hn). split.
    - intros (a & Ha). apply Hl in Ha as [(l & Hd & _) | [Hx _]];
        [discriminate | exact Hx].
    - intros Hx. destruct x as [k v].
      destruct (Hshape k v Hx) as [(_ & _ & Hh) _].
      destruct (proj2 (second_part "-" k) Hh) as [a Ha].
      exists a. apply Hl. right. now split. }
  unfold lookup, analyze_csv_data. rewrite Han. unfold lookup_db.
  rewrite lookup_db_flat.
  split; [|split].
  - intros input k v Hnorm Hlast. rewrite Hnorm. simpl. split.
    + f_equal. apply fold_set_get.
      * now apply Hflat, Hrec.
      * intros v' Hv'. apply Hflat, Hrec in Hv'.
        exact (@last_entry_unique sd k v' v Hv' Hlast).
    + apply Hrec in Hlast. destruct (Hshape k v Hlast) as [(_ & Hv & _) _].
      now destruct v.
  - intros input k Hnorm Hout. rewrite Hnorm. simpl. f_equal.
    rewrite fold_set_other; [reflexivity|].
    intros Hin. apply in_map_iff in Hin as ([k' v'] & E & Hin).
    simpl in E. subst k'. apply Hflat, Hrec, last_entry_in in Hin.
    apply Hout. apply in_map_iff. now exists (k, v').
  - exists st. split; [reflexivity|].
    rewrite Hi; [reflexivity|]. intros k v Hin. now apply Hshape.
Qed.

Lemma lookup_after_update_witness :
  (forall input k v,
      normalize_station_number input = Ok k ->
      last_entry (findall "03-57-01-01--12") k v ->
      lookup (analyze_csv_data
                (Some [["station_number"; "check_digit"];
                       ["03-57-01-01"; "12"]])) input = Ok (Some v)
      /\ found (Some v) = true)
  /\ (forall input k,
         normalize_station_number input = Ok k ->
         ~ In k (map fst (findall "03-57-01-01--12")) ->
         lookup (analyze_csv_data
                   (Some [["station_number"; "check_digit"];
                          ["03-57-01-01"; "12"]])) input = Ok None)
  /\ exists st,
      analyze_rows [["station_number"; "check_digit"]; ["03-57-01-01"; "12"]]
      = Ok st /\ issues st = [].
Proof.
  apply (@lookup_after_update "03-57-01-01--12" None); reflexivity.
Defined.

End Lookup.

(* ------------------------------------------------------------------ *)
(** ** generate_warehouse_map.py: the breezeway of an aisle *)
(* ------------------------------------------------------------------ *)

Section Breezeways.

Example breezeways_example :
  find_breezeways [(57%Z, [(3%Z, "a"); (1%Z, "b"); (2%Z, "c"); (7%Z, "d"); (10%Z, "e")]);
                   (58%Z, [(1%Z, "a"); (2%Z, "b")])]
  = Ok [(57%Z, (4, 6)%Z)].
Proof. reflexivity. Qed.

Lemma int_lt_asym (a b : Z) : int_lt a b = Ok true -> int_lt b a = Ok false.
Proof.
  unfold int_lt. intros H. injection H as H. f_equal. lia.
Qed.

Lemma sorted_ints (l : list Z) :
  exists r, sorted int_lt l = Ok r
            /\ Permutation l r /\ StronglySorted Z.le r.
Proof.
  destruct (@sorted_total _ int_lt l) as [r Hr].
  { intros a b. unfold int_lt. eauto. }
  exists r. split; [exact Hr | split; [now apply sorted_perm in Hr|]].
  apply (@sorted_Sorted _ int_lt int_lt_asym) in Hr.
  apply Sorted_StronglySorted; [intros a b c; apply Z.le_trans|].
  revert Hr. apply Sorted_weaken. intros a b H.
  unfold not_above, int_lt in H. injection H as H. lia.
Qed.

Lemma sorted_head_least (a : Z) (l : list Z) :
  StronglySorted Z.le (a :: l) -> forall x, In x (a :: l) -> (a <= x)%Z.
Proof.
  intros Hs x [<- | Hin]; [lia|].
  inversion Hs as [|? ? _ Ha]; subst.
  rewrite Forall_forall in Ha. now apply Ha.
Qed.

Lemma gaps_first (l : list Z) (gs ge : Z) (rest : list (Z * Z)) :
  StronglySorted Z.le l ->
  gaps l = (gs, ge) :: rest ->
  (gs <= ge)%Z /\ In (gs - 1)%Z l /\ In (ge + 1)%Z l
  /\ (forall n, (gs <= n <= ge)%Z -> ~ In n l)
  /\ (forall lo n, In lo l -> (lo <= n < gs)%Z -> In n l).
Proof.
  induction l as [|a l IH]; [discriminate|].
  intros Hs. pose proof (sorted_head_least Hs) as Ha.
  inversion Hs as [|? ? Hl _]; subst.
  destruct l as [|b r]; [discriminate|].
  cbn [gaps]. fold (gaps (b :: r)).
  pose proof (sorted_head_least Hl) as Hb.
  assert (Hab : (a <= b)%Z) by (apply Ha; right; now left).
  destruct (Z.gtb_spec (b - a) 1) as [Hgap | Hnear].
  - intros E. injection E as <- <- _.
    replace (a + 1 - 1)%Z with a by lia. replace (b - 1 + 1)%Z with b by lia.
    repeat split; [lia | now left | right; now left | |].
    + intros n Hn [<- | Hin]; [lia|]. apply Hb in Hin. lia.
    + intros lo n [<- | Hlo] Hn; [left; lia|]. apply Hb in Hlo. lia.
  - intros E. destruct (IH Hl E) as (H1 & H2 & H3 & H4 & H5).
    apply Hb in H2 as Hbg.
    repeat split; [exact H1 | now right | now right | |].
    + intros n Hn [<- | Hin]; [lia | now apply (H4 n)].
    + intros lo n Hlo Hn.
      destruct (Z.eq_dec n a) as [-> | Hna]; [now left | right].
      apply Ha in Hlo. apply (H5 b); [now left | lia].
Qed.

Lemma gaps_none (l : list Z) :
  StronglySorted Z.le l ->
  gaps l = [] ->
  forall lo hi n, In lo l -> In hi l -> (lo <= n <= hi)%Z -> In n l.
Proof.
  induction l as [|a l IH]; [intros _ _ lo hi n []|].
  intros Hs. pose proof (sorted_head_least Hs) as Ha.
  inversion Hs as [|? ? Hl _]; subst.
  destruct l as [|b r].
  - intros _ lo hi n [<- | []] [<- | []] Hn. left. lia.
  - cbn [gaps]. fold (gaps (b :: r)).
    pose proof (sorted_head_least Hl) as Hb.
    destruct (Z.gtb_spec (b - a) 1) as [Hgap | Hnear]; [discriminate|].
    intros E lo hi n Hlo Hhi Hn.
    destruct (Z.eq_dec n a) as [-> | Hna]; [now left | right].
    apply Ha in Hlo.
    apply (IH Hl E b hi); [now left | | lia].
    destruct Hhi as [<- | Hhi]; [lia | exact Hhi].
Qed.

Lemma gaps_perm_in (l r : list Z) (n : Z) :
  Permutation l r -> (In n l <-> In n r).
Proof.
  intros P. split; intros H.
  - now apply (Permutation_in _ P).
  - now apply (Permutation_in _ (Permutation_sym P)).
Qed.

(** What one aisle contributes. *)
Lemma breezeway_step_cases (V : Type) (b : dict Z (Z * Z)) (aisle : Z)
      (by_station : dict Z V) :
  exists r, sorted int_lt (dict_keys by_station) = Ok r
            /\ Permutation (dict_keys by_station) r
            /\ StronglySorted Z.le r
            /\ breezeway_step b (aisle, by_station)
               = Ok match gaps r with
                    | [] => b
                    | first :: _ => dict_set Z.eqb aisle first b
                    end.
Proof.
  destruct (sorted_ints (dict_keys by_station)) as (r & Hr & P & S).
  exists r. repeat split; try assumption.
  unfold breezeway_step. rewrite Hr. cbn. now destruct (gaps r).
Qed.

Lemma Z_eqb_eq (a b : Z) : Z.eqb a b = true <-> a = b.
Proof. apply Z.eqb_eq. Qed.

(** The loop over the aisles: an aisle that is not in the data keeps what
    it had, and an aisle of the data with no entry yet gets the first
    gap of its sorted stations, if there is one. *)
Lemma fold_breezeways (V : Type) (station_data : dict Z (dict Z V)) :
  forall acc,
    NoDup (dict_keys station_data) ->
    exists b,
      foldM (@breezeway_step V) station_data acc = Ok b
      /\ (forall aisle, ~ In aisle (dict_keys station_data) ->
                        dict_get Z.eqb aisle b = dict_get Z.eqb aisle acc)
      /\ (forall aisle by_station,
             In (aisle, by_station) station_data ->
             dict_get Z.eqb aisle acc = None ->
             exists r, Permutation (dict_keys by_station) r
                       /\ StronglySorted Z.le r
                       /\ dict_get Z.eqb aisle b = hd_error (gaps r)).
Proof.
  induction station_data as [|[a0 bs0] sd IH]; intros acc Hnd.
  - exists acc. cbn. split; [reflexivity|]. split; [reflexivity|].
    intros ? ? [].
  - cbn [dict_keys map fst] in Hnd. inversion Hnd as [|? ? Hfresh Hnd']; subst.
    destruct (breezeway_step_cases acc a0 bs0) as (r0 & _ & P0 & S0 & E0).
    set (acc' := match gaps r0 with
                 | [] => acc
                 | first :: _ => dict_set Z.eqb a0 first acc
                 end) in E0.
    destruct (IH acc' Hnd') as (b & Hb & Hout & Hin).
    exists b. cbn [foldM]. rewrite E0. cbn [bind]. split; [exact Hb|].
    assert (Hother : forall aisle, aisle <> a0 ->
                       dict_get Z.eqb aisle acc' = dict_get Z.eqb aisle acc).
    { intros aisle Hne. unfold acc'. destruct (gaps r0); [reflexivity|].
      now apply (@dict_get_set_other _ _ Z.eqb Z_eqb_eq). }
    split.
    + intros aisle Hno. cbn [dict_keys map fst] in Hno.
      rewrite Hout by (intros H; apply Hno; now right).
      apply Hother. intros ->. apply Hno. now left.
    + intros aisle by_station [E | Hlater] Hnone.
      * injection E as <- <-. exists r0. repeat split; try assumption.
        rewrite (Hout a0 Hfresh). unfold acc'.
        destruct (gaps r0); [exact Hnone|].
        cbn [hd_error]. apply (@dict_get_set_same _ _ Z.eqb Z_eqb_eq).
      * apply (Hin aisle by_station Hlater). rewrite Hother; [exact Hnone|].
        intros ->. apply Hfresh. unfold dict_keys.
        change a0 with (fst (a0, by_station)). now apply in_map.
Qed.

(** X17.  [find_breezeways] never raises, and what it records for an
    aisle is the lowest gap of that aisle: the numbers [gs .. ge] are
    not stations of the aisle, the numbers just below and just above
    are, and from any station below the gap up to the gap every number
    is a station. *)
Theorem breezeway_first_gap (V : Type) (station_data : dict Z (dict Z V))
        (aisle : Z) (by_station : dict Z V) :
  NoDup (dict_keys station_data) ->
  In (aisle, by_station) station_data ->
  exists b,
    find_breezeways station_data = Ok b
    /\ forall gs ge,
        dict_get Z.eqb aisle b = Some (gs, ge) ->
        (gs <= ge)%Z
        /\ In (gs - 1)%Z (dict_keys by_station)
        /\ In (ge + 1)%Z (dict_keys by_station)
        /\ (forall n, (gs <= n <= ge)%Z -> ~ In n (dict_keys by_station))
        /\ (forall lo n, In lo (dict_keys by_station) ->
                         (lo <= n < gs)%Z -> In n (dict_keys by_station)).
Proof.
  intros Hnd Hin.
  destruct (@fold_breezeways V station_data [] Hnd) as (b & Hb & _ & Hget).
  exists b. split; [exact Hb|]. intros gs ge E.
  destruct (Hget aisle by_station Hin eq_refl) as (r & P & S & Hr).
  rewrite E in Hr. destruct (gaps r) as [|[gs' ge'] rest] eqn:G; [discriminate|].
  injection Hr as -> ->.
  destruct (gaps_first S G) as (H1 & H2 & H3 & H4 & H5).
  repeat split.
  - exact H1.
  - now apply (gaps_perm_in _ P).
  - now apply (gaps_perm_in _ P).
  - intros n Hn Hk. apply (H4 n Hn). now apply (gaps_perm_in _ P).
  - intros lo n Hlo Hn. apply (gaps_perm_in _ P).
    apply (H5 lo); [now apply (gaps_perm_in _ P) | exact Hn].
Qed.

Lemma breezeway_first_gap_witness :
  exists b,
    find_breezeways
      [(57%Z, [(3%Z, "a"); (1%Z, "b"); (2%Z, "c"); (7%Z, "d"); (10%Z, "e")]);
       (58%Z, [(1%Z, "a"); (2%Z, "b")])] = Ok b
    /\ forall gs ge,
        dict_get Z.eqb 57%Z b = Some (gs, ge) ->
        (gs <= ge)%Z
        /\ In (gs - 1)%Z [3; 1; 2; 7; 10]%Z
        /\ In (ge + 1)%Z [3; 1; 2; 7; 10]%Z
        /\ (forall n, (gs <= n <= ge)%Z -> ~ In n [3; 1; 2; 7; 10]%Z)
        /\ (forall lo n, In lo [3; 1; 2; 7; 10]%Z ->
                         (lo <= n < gs)%Z -> In n [3; 1; 2; 7; 10]%Z).
Proof.
  apply (@breezeway_first_gap str
           [(57%Z, [(3%Z, "a"); (1%Z, "b"); (2%Z, "c"); (7%Z, "d"); (10%Z, "e")]);
            (58%Z, [(1%Z, "a"); (2%Z, "b")])]
           57%Z [(3%Z, "a"); (1%Z, "b"); (2%Z, "c"); (7%Z, "d"); (10%Z, "e")]).
  - cbn. repeat constructor; cbn; intuition discriminate.
  - now left.
Defined.

(** X18.  An aisle gets no breezeway only when it has no gap at all (any
    number between two of its stations is a station too), and an aisle
    that is not in the data gets none. *)
Theorem no_breezeway_contiguous (V : Type) (station_data : dict Z (dict Z V)) :
  NoDup (dict_keys station_data) ->
  exists b,
    find_breezeways station_data = Ok b
    /\ (forall aisle, ~ In aisle (dict_keys station_data) ->
                      dict_get Z.eqb aisle b = None)
    /\ (forall aisle by_station,
           In (aisle, by_station) station_data ->
           dict_get Z.eqb aisle b = None ->
           forall lo hi n,
             In lo (dict_keys by_station) -> In hi (dict_keys by_station) ->
             (lo <= n <= hi)%Z -> In n (dict_keys by_station)).
Proof.
  intros Hnd.
  destruct (@fold_breezeways V station_data [] Hnd) as (b & Hb & Hout & Hget).
  exists b. split; [exact Hb|]. split.
  - intros aisle Hno. now rewrite (Hout aisle Hno).
  - intros aisle by_station Hin E lo hi n Hlo Hhi Hn.
    destruct (Hget aisle by_station Hin eq_refl) as (r & P & S & Hr).
    rewrite E in Hr. destruct (gaps r) as [|g rest] eqn:G; [|discriminate].
    apply (gaps_perm_in _ P).
    apply (@gaps_none r S G lo hi n); [| | exact Hn];
      now apply (gaps_perm_in _ P).
Qed.

Lemma no_breezeway_contiguous_witness :
  exists b,
    find_breezeways
      [(57%Z, [(3%Z, "a"); (1%Z, "b"); (2%Z, "c"); (7%Z, "d"); (10%Z, "e")]);
       (58%Z, [(2%Z, "a"); (1%Z, "b")])] = Ok b
    /\ (forall aisle, ~ In aisle [57; 58]%Z -> dict_get Z.eqb aisle b = None)
    /\ (forall aisle by_station,
           In (aisle, by_station)
              [(57%Z, [(3%Z, "a"); (1%Z, "b"); (2%Z, "c"); (7%Z, "d"); (10%Z, "e")]);
               (58%Z, [(2%Z, "a"); (1%Z, "b")])] ->
           dict_get Z.eqb aisle b = None ->
           forall lo hi n,
             In lo (dict_keys by_station) -> In hi (dict_keys by_station) ->
             (lo <= n <= hi)%Z -> In n (dict_keys by_station)).
Proof.
  apply (@no_breezeway_contiguous str
           [(57%Z, [(3%Z, "a"); (1%Z, "b"); (2%Z, "c"); (7%Z, "d"); (10%Z, "e")]);
            (58%Z, [(2%Z, "a"); (1%Z, "b")])]).
  cbn. repeat constructor; cbn; intuition discriminate.
Defined.

End Breezeways.
